(** * GrumpiMiner: combination generator, test executor and suite summary

    A shallow embedding of [grumpi_miner/dimensions.py],
    [grumpi_miner/combination_generator.py] and
    [grumpi_miner/test_executor.py], followed by the properties of the
    generator, the executor and the summary that the specification states. *)

From Stdlib Require Import ZArith List Bool Lia Permutation.
From Stdlib Require Import Floats.PrimFloat Numbers.Cyclic.Int63.Uint63.
From stdpp Require Import gmap strings list.

Local Open Scope string_scope.
Local Open Scope Z_scope.
Local Open Scope list_scope.

(* ===================================================================== *)
(** * Python built-ins used by the three modules *)
(* ===================================================================== *)

Module Py.

(** ** Numbers *)

(** A Python number as the summary produces them: an [int] or a [float]
    (IEEE 754 binary64, as Rocq's primitive floats). *)
Inductive num : Type :=
| Int (n : Z)
| Float (f : float).

(** [float(n)] for an [int] below [2^63]; exact below [2^53]. *)
Definition float_of_int (n : Z) : float := of_uint63 (Uint63.of_Z n).

(** Truth value of an optional [int] argument, as in [if max_total:] or
    [x or default]: [None] and [0] are false. *)
Definition truthy_int (x : option Z) : bool :=
  match x with
  | None => false
  | Some n => negb (n =? 0)
  end.

(** [x or default] for an optional [int] [x]. *)
Definition int_or (x : option Z) (default : Z) : Z :=
  match x with
  | Some n => if truthy_int x then n else default
  | None => default
  end.

(** ** Sequences *)

(** [len(l)] as a Python [int]. *)
Definition len {A} (l : list A) : Z := Z.of_nat (length l).

(** [range(a, b)]. *)
Definition range (a b : Z) : list Z := seqZ a (b - a).

(** [l[:n]]: the first [n] elements, a negative [n] counting from the
    end of the list. *)
Definition slice_to {A} (l : list A) (n : Z) : list A :=
  if n <? 0 then take (Z.to_nat (len l + n)) l else take (Z.to_nat n) l.

(** [itertools.combinations(l, r)]: the [r]-element subsequences of [l],
    in lexicographic order of their positions. *)
Fixpoint combinations {A} (l : list A) (r : nat) : list (list A) :=
  match r, l with
  | O, _ => [[]]
  | S _, [] => []
  | S r', x :: t => map (cons x) (combinations t r') ++ combinations t r
  end.

(** [itertools.product( *ls )]: the cross product, the last list varying
    fastest. *)
Fixpoint product {A} (ls : list (list A)) : list (list A) :=
  match ls with
  | [] => [[]]
  | l :: rest => flat_map (fun x => map (cons x) (product rest)) l
  end.

(** ** Strings *)

(** [sorted(l)] for a list of [str]: a stable insertion sort on the
    code-point order. *)
Fixpoint insort (x : string) (l : list string) : list string :=
  match l with
  | [] => [x]
  | y :: l' => if String.leb x y then x :: l else y :: insort x l'
  end.

Definition sorted (l : list string) : list string := foldr insort [] l.

(** [sep.join(l)]. *)
Definition join (sep : string) (l : list string) : string :=
  String.concat sep l.

(** ** Dictionaries with [str] keys

    A [dict] keeps its items in insertion order, and that order is what the
    construction of a combination varies, so it is an association list with
    each key at most once.  [d[k] = v] overwrites in place or appends. *)
Section Dict.
Context {V : Type}.

Definition dict : Type := list (string * V).

Fixpoint dict_get (d : dict) (k : string) : option V :=
  match d with
  | [] => None
  | (k', v) :: d' => if decide (k' = k) then Some v else dict_get d' k
  end.

(** [k in d] *)
Definition dict_contains (d : dict) (k : string) : bool :=
  match dict_get d k with Some _ => true | None => false end.

Fixpoint dict_set (d : dict) (k : string) (v : V) : dict :=
  match d with
  | [] => [(k, v)]
  | (k', v') :: d' =>
      if decide (k' = k) then (k', v) :: d' else (k', v') :: dict_set d' k v
  end.

(** [{k: v for k, v in items}] and the literal [{k1: v1, ...}]. *)
Definition dict_of_items (items : list (string * V)) : dict :=
  fold_left (fun d kv => dict_set d kv.1 kv.2) items [].

(** Each key occurs once: what every [dict] built by [dict_set] satisfies. *)
Definition dict_wf (d : dict) : Prop := NoDup (map fst d).
End Dict.
Arguments dict V : clear implicits.

End Py.

(* ===================================================================== *)
(** * dimensions.py *)
(* ===================================================================== *)

Module dimensions.

(** A member of an [Enum] class: the class it belongs to, its name and its
    [.value] (a [str] in every registered dimension). *)
Record EnumMember : Type := mkMember {
  member_class : string;
  member_name : string;
  value : string
}.

(** An [Enum] class: its [__name__] and [list(cls)], the members in
    definition order. *)
Record EnumClass : Type := mkEnumClass {
  __name__ : string;
  members : list EnumMember
}.

Definition Enum (name : string) (body : list (string * string)) : EnumClass :=
  mkEnumClass name (map (fun nv => mkMember name nv.1 nv.2) body).

Definition FormatVariation : EnumClass :=
  Enum "FormatVariation"
    [ ("NATURAL_LANGUAGE", "natural_language"); ("XML", "xml");
      ("JSON", "json"); ("YAML", "yaml"); ("CODE", "code");
      ("LATEX", "latex"); ("DIAGRAMS", "diagrams"); ("HYBRID", "hybrid") ].

Definition StructuralArchitecture : EnumClass :=
  Enum "StructuralArchitecture"
    [ ("FLAT", "flat"); ("HIERARCHICAL", "hierarchical"); ("GRAPH", "graph");
      ("TREE", "tree"); ("MESH", "mesh"); ("LAYERED", "layered") ].

Definition ModelOrchestration : EnumClass :=
  Enum "ModelOrchestration"
    [ ("SINGLE", "single"); ("SEQUENTIAL", "sequential");
      ("PARALLEL", "parallel"); ("HIERARCHICAL", "hierarchical");
      ("ENSEMBLE", "ensemble"); ("CASCADING", "cascading") ].

Definition ContextRepresentation : EnumClass :=
  Enum "ContextRepresentation"
    [ ("MINIMAL", "minimal"); ("EXTENDED", "extended");
      ("CONTEXTUAL", "contextual"); ("GLOBAL", "global");
      ("WINDOWED", "windowed"); ("DYNAMIC", "dynamic") ].

Definition InstructionSemantics : EnumClass :=
  Enum "InstructionSemantics"
    [ ("IMPERATIVE", "imperative"); ("DECLARATIVE", "declarative");
      ("FUNCTIONAL", "functional"); ("CONSTRAINT_BASED", "constraint_based");
      ("GOAL_ORIENTED", "goal_oriented"); ("EXAMPLE_BASED", "example_based") ].

Definition VerificationProtocol : EnumClass :=
  Enum "VerificationProtocol"
    [ ("NONE", "none"); ("BASIC", "basic");
      ("COMPREHENSIVE", "comprehensive"); ("FORMAL", "formal");
      ("STATISTICAL", "statistical"); ("HEURISTIC", "heuristic") ].

Definition MetaCognitiveScaffolding : EnumClass :=
  Enum "MetaCognitiveScaffolding"
    [ ("NONE", "none"); ("REFLECTION", "reflection");
      ("PLANNING", "planning"); ("MONITORING", "monitoring");
      ("EVALUATION", "evaluation"); ("ADAPTIVE", "adaptive") ].

Definition ConstraintArchitecture : EnumClass :=
  Enum "ConstraintArchitecture"
    [ ("UNCONSTRAINED", "unconstrained"); ("SOFT", "soft"); ("HARD", "hard");
      ("ADAPTIVE", "adaptive"); ("HIERARCHICAL", "hierarchical");
      ("NEGOTIABLE", "negotiable") ].

Definition CrossModalTranslation : EnumClass :=
  Enum "CrossModalTranslation"
    [ ("NONE", "none"); ("TEXT_TO_CODE", "text_to_code");
      ("CODE_TO_TEXT", "code_to_text");
      ("DIAGRAM_TO_TEXT", "diagram_to_text");
      ("TEXT_TO_DIAGRAM", "text_to_diagram"); ("MULTIMODAL", "multimodal") ].

Definition TemporalDynamics : EnumClass :=
  Enum "TemporalDynamics"
    [ ("STATIC", "static"); ("SEQUENTIAL", "sequential");
      ("CONCURRENT", "concurrent"); ("REAL_TIME", "real_time");
      ("ADAPTIVE", "adaptive"); ("PREDICTIVE", "predictive") ].

(** All dimension classes for iteration. *)
Definition DIMENSION_CLASSES : list EnumClass :=
  [ FormatVariation;
    StructuralArchitecture;
    ModelOrchestration;
    ContextRepresentation;
    InstructionSemantics;
    VerificationProtocol;
    MetaCognitiveScaffolding;
    ConstraintArchitecture;
    CrossModalTranslation;
    TemporalDynamics ].

End dimensions.

(* ===================================================================== *)
(** * combination_generator.py *)
(* ===================================================================== *)

Module combination_generator.
Import Py dimensions.

(** Represents a specific combination of dimension values. *)
Record DimensionCombination : Type := mkCombination {
  dimensions : dict EnumMember
}.

(** [DimensionCombination.get_hash]: one ["<class>:<value>"] part per
    registered class that is a key of the mapping, sorted and joined. *)
Definition get_hash (self : DimensionCombination) : string :=
  let parts :=
    fold_left
      (fun parts dim_class =>
         let dim_name := __name__ dim_class in
         match dict_get (dimensions self) dim_name with
         | Some v => parts ++ [dim_name +:+ ":" +:+ value v]
         | None => parts
         end)
      DIMENSION_CLASSES [] in
  join "|" (sorted parts).

Record CombinationGenerator : Type := mkGenerator {
  min_dimensions : Z;
  max_dimensions : Z
}.

(** [CombinationGenerator.__init__(min_dimensions=2, max_dimensions=None)] *)
Definition __init__ (min_dimensions : Z) (max_dimensions : option Z)
  : CombinationGenerator :=
  let min_dimensions := Z.max 2 min_dimensions in
  let max_dimensions := int_or max_dimensions (len DIMENSION_CLASSES) in
  let max_dimensions := Z.min max_dimensions (len DIMENSION_CLASSES) in
  mkGenerator min_dimensions max_dimensions.

(** Generate all pairs of dimension classes. *)
Definition generate_dimension_pairs : list (list EnumClass) :=
  combinations DIMENSION_CLASSES 2.

(** Generate all groups of dimension classes of a given size. *)
Definition generate_dimension_groups (size : Z) : list (list EnumClass) :=
  if (size <? 2) || (len DIMENSION_CLASSES <? size) then []
  else combinations DIMENSION_CLASSES (Z.to_nat size).

(** Generate all value combinations for a group of dimensions. *)
Definition generate_combinations_for_group
    (dimension_group : list EnumClass) (max_per_dimension : option Z)
  : list DimensionCombination :=
  let dimension_values :=
    map (fun dim_class =>
           let values := members dim_class in
           let values :=
             match max_per_dimension with
             | Some n => if truthy_int max_per_dimension
                         then slice_to values n else values
             | None => values
             end in
           map (fun v => (__name__ dim_class, v)) values)
        dimension_group in
  map (fun combo => mkCombination (dict_of_items combo))
      (product dimension_values).

(** The ceiling test after a group: [max_total_combinations and
    total_count >= max_total_combinations]. *)
Definition ceiling_reached (max_total_combinations : option Z)
    (total_count : Z) : bool :=
  match max_total_combinations with
  | Some m => truthy_int max_total_combinations && (m <=? total_count)
  | None => false
  end.

Section all_combinations.
Variable max_per_dimension : option Z.
Variable max_total_combinations : option Z.

(** The inner loop [for group in dimension_groups] for one [size]:
    [inr results] is the early [return results], [inl (results,
    total_count)] falls through to the next size.  [results[size]] was
    set by the caller, so [extend] finds it. *)
Fixpoint for_groups (size : Z) (dimension_groups : list (list EnumClass))
    (results : gmap Z (list DimensionCombination)) (total_count : Z)
  : gmap Z (list DimensionCombination) * Z
    + gmap Z (list DimensionCombination) :=
  match dimension_groups with
  | [] => inl (results, total_count)
  | group :: rest =>
      let combos :=
        generate_combinations_for_group group max_per_dimension in
      let results := alter (fun l => l ++ combos) size results in
      let total_count := total_count + len combos in
      if ceiling_reached max_total_combinations total_count
      then inr results
      else for_groups size rest results total_count
  end.

(** The outer loop [for size in range(...)]. *)
Fixpoint for_sizes (sizes : list Z)
    (results : gmap Z (list DimensionCombination)) (total_count : Z)
  : gmap Z (list DimensionCombination) :=
  match sizes with
  | [] => results
  | size :: rest =>
      let results := <[size := []]> results in
      match for_groups size (generate_dimension_groups size)
                       results total_count with
      | inr results => results
      | inl (results, total_count) => for_sizes rest results total_count
      end
  end.

(** Generate all combinations across all dimension group sizes. *)
Definition generate_all_combinations (self : CombinationGenerator)
  : gmap Z (list DimensionCombination) :=
  for_sizes (range (min_dimensions self) (max_dimensions self + 1)) ∅ 0.
End all_combinations.

End combination_generator.

(* ===================================================================== *)
(** * test_executor.py *)
(* ===================================================================== *)

Module test_executor.
Import Py dimensions combination_generator.

(** Status of a test execution. *)
Inductive TestStatus : Type :=
| PENDING
| RUNNING
| PASSED
| FAILED
| SKIPPED
| ERROR.

#[export] Instance TestStatus_eq_dec : EqDecision TestStatus.
Proof. solve_decision. Defined.

(** [status.value] *)
Definition status_value (status : TestStatus) : string :=
  match status with
  | PENDING => "pending"
  | RUNNING => "running"
  | PASSED => "passed"
  | FAILED => "failed"
  | SKIPPED => "skipped"
  | ERROR => "error"
  end.

(** [for status in TestStatus]: the members in definition order. *)
Definition TestStatus_members : list TestStatus :=
  [PENDING; RUNNING; PASSED; FAILED; SKIPPED; ERROR].

(** ** The world the executor runs in, exceptions and calls *)

(** The interpreter state a call can read and write (the closures and
    globals of the test function, the clocks), with the library calls the
    executor makes on it. *)
Class Runtime : Type := {
  World : Type;
  datetime : Type;
  (** [time.time()] *)
  time_time : World -> float * World;
  (** [datetime.now()] *)
  datetime_now : World -> datetime * World;
  (** [(a - b).total_seconds()] *)
  total_seconds : datetime -> datetime -> float;
  (** [str(x)] of a [float] *)
  float_str : float -> string;
  (** [sum(...)] of a sequence of [float] *)
  float_sum : list float -> num
}.

(** Where the class of an exception sits, as far as the handlers of
    [execute_test] tell: it is [TimeoutError] or one of its subclasses, another
    subclass of [Exception], or a class outside [Exception]
    ([KeyboardInterrupt], [SystemExit], [GeneratorExit] and whatever else
    derives from [BaseException] alone). *)
Inductive base : Type :=
| TimeoutError
| Exception
| BaseException.

#[export] Instance base_eq_dec : EqDecision base.
Proof. solve_decision. Defined.

(** A raised exception: where its class sits, and its [__str__], code that
    returns the message or raises in its turn, and may change the world. *)
#[warnings="-register-all"]
Inductive exception `{Runtime} : Type := mkException {
  base_of : base;
  __str__ : World -> (string + exception) * World
}.
Arguments mkException {_} base_of __str__.

(** [isinstance(e, TimeoutError)] *)
Definition is_TimeoutError `{Runtime} (e : exception) : bool :=
  bool_decide (base_of e = TimeoutError).

(** [isinstance(e, Exception)] *)
Definition is_Exception `{Runtime} (e : exception) : bool :=
  negb (bool_decide (base_of e = BaseException)).

(** The [__str__] of an exception of a built-in class constructed with one
    argument, or with none (the empty message). *)
Definition says `{Runtime} (message : string)
  : World -> (string + exception) * World :=
  fun w => (inl message, w).

Definition KeyError `{Runtime} (key : string) : exception :=
  mkException Exception (says ("'" +:+ key +:+ "'")).

Definition ZeroDivisionError `{Runtime} : exception :=
  mkException Exception (says "division by zero").

Definition ValueError `{Runtime} (message : string) : exception :=
  mkException Exception (says message).

Definition TypeError `{Runtime} (message : string) : exception :=
  mkException Exception (says message).

Definition RuntimeError `{Runtime} (message : string) : exception :=
  mkException Exception (says message).

(** The outcome of a call: a value, or a raised exception. *)
Inductive outcome `{Runtime} (A : Type) : Type :=
| Returns (a : A)
| Raises (e : exception).
Arguments Returns {_ A} a.
Arguments Raises {_ A} e.

(** A call that ends: it returns or raises, and may change the world.  A
    call that never comes back has no value of this type. *)
Definition call `{Runtime} (A : Type) : Type := World -> outcome A * World.

Definition ret `{Runtime} {A} (a : A) : call A := fun w => (Returns a, w).

Definition bind `{Runtime} {A B} (c : call A) (k : A -> call B) : call B :=
  fun w =>
    match c w with
    | (Returns a, w') => k a w'
    | (Raises e, w') => (Raises e, w')
    end.

(** [raise e] *)
Definition raise `{Runtime} {A} (e : exception) : call A :=
  fun w => (Raises e, w).

(** A library call that cannot raise. *)
Definition lift `{Runtime} {A} (f : World -> A * World) : call A :=
  fun w => let '(a, w') := f w in (Returns a, w').

(** [try: c  except ... as e:] with the exception handed to the handlers. *)
Definition attempt `{Runtime} {A} (c : call A) : call (outcome A) :=
  fun w => let '(o, w') := c w in (Returns o, w').

#[export] Instance call_ret `{Runtime} : MRet call := @ret _.
#[export] Instance call_bind `{Runtime} : MBind call := fun A B k c => bind c k.

(** [str(e)] *)
Definition str `{Runtime} (e : exception) : call string :=
  fun w =>
    match __str__ e w with
    | (inl message, w') => (Returns message, w')
    | (inr e', w') => (Raises e', w')
    end.

(** What a test function hands back; [execute_test] only takes its truth
    value.  Besides the built-in values, an instance of a class of the
    caller's, whose [__bool__] (or [__len__]) is code of the caller's. *)
Inductive object `{Runtime} : Type :=
| None_
| Bool (b : bool)
| Num (n : Z)
| Str (s : string)
| Instance (__bool__ : call bool).

(** [bool(x)] *)
Definition truthy `{Runtime} (x : object) : call bool :=
  match x with
  | None_ => mret false
  | Bool b => mret b
  | Num n => mret (negb (n =? 0))
  | Str s => mret (negb (bool_decide (s = "")))
  | Instance __bool__ => __bool__
  end.

(** ** Results and suites *)

(** Result of executing a test on a dimension combination. *)
Record TestResult `{Runtime} : Type := mkTestResult {
  combination : DimensionCombination;
  status : TestStatus;
  execution_time : float;
  error_message : option string;
  metadata : dict object;
  timestamp : datetime
}.

(** Collection of test results. *)
Record TestSuite `{Runtime} : Type := mkTestSuite {
  name : string;
  results : list TestResult;
  start_time : datetime;
  end_time : option datetime
}.

(** [TestSuite(name=...)]: the start time is read at construction. *)
Definition new_TestSuite `{Runtime} (name : string) : call TestSuite :=
  now ← lift datetime_now;
  mret (mkTestSuite _ name [] now None).

(** Add a test result to the suite. *)
Definition add_result `{Runtime} (self : TestSuite) (result : TestResult)
  : TestSuite :=
  mkTestSuite _ (name self) (results self ++ [result])
              (start_time self) (end_time self).

(** Mark the test suite as complete. *)
Definition mark_complete `{Runtime} (self : TestSuite) : call TestSuite :=
  now ← lift datetime_now;
  mret (mkTestSuite _ (name self) (results self) (start_time self) (Some now)).

(** ** Summary of a suite *)

(** Exceptions in code that does not touch the world. *)
#[export] Instance outcome_ret `{Runtime} : MRet outcome := @Returns _.
#[export] Instance outcome_bind `{Runtime} : MBind outcome :=
  fun A B k o => match o with Returns a => k a | Raises e => Raises e end.

(** [d[key]] on a [dict] whose order is never observed. *)
Definition getitem `{Runtime} {V} (d : gmap string V) (key : string)
  : outcome V :=
  match d !! key with
  | Some v => Returns v
  | None => Raises (KeyError key)
  end.

(** [a / b] on two [int]: true division. *)
Definition truediv `{Runtime} (a b : Z) : outcome float :=
  if b =? 0 then Raises ZeroDivisionError
  else Returns (float_of_int a / float_of_int b)%float.

(** The dictionary [get_summary] returns, one field per key. *)
Record Summary : Type := mkSummary {
  summary_name : string;
  total_tests : Z;
  status_counts : gmap string Z;
  total_execution_time : num;
  suite_duration : option float;
  pass_rate : num
}.

(** [sum(1 for r in self.results if r.status == status)] *)
Definition count_status `{Runtime} (results : list TestResult)
    (s : TestStatus) : Z :=
  len (filter (fun r => status r = s) results).

(** Get a summary of test results. *)
Definition get_summary `{Runtime} (self : TestSuite) : outcome Summary :=
  let status_counts :=
    fold_left
      (fun (d : gmap string Z) s =>
         <[status_value s := count_status (results self) s]> d)
      TestStatus_members ∅ in
  let total_time := float_sum (map execution_time (results self)) in
  let duration :=
    match end_time self with
    | Some e => Some (total_seconds e (start_time self))
    | None => None
    end in
  rate ← match results self with
         | _ :: _ =>
             passed ← getitem status_counts "passed";
             ratio ← truediv passed (len (results self));
             mret (Float (ratio * float_of_int 100)%float)
         | [] => mret (Int 0)
         end;
  mret (mkSummary (name self) (len (results self)) status_counts
                  total_time duration rate).

(** ** The executor *)

(** Executes tests on dimension combinations. *)
Record TestExecutor `{Runtime} : Type := mkTestExecutor {
  test_function : DimensionCombination -> call object
}.

(** Default test function that always passes. *)
Definition _default_test_function `{Runtime}
    (combination : DimensionCombination) : call object :=
  mret (Bool true).

(** [TestExecutor.__init__(test_function=None)] *)
Definition new_TestExecutor `{Runtime}
    (test_function : option (DimensionCombination -> call object))
  : TestExecutor :=
  mkTestExecutor _ (default _default_test_function test_function).

(** [f"{timeout}"] for the optional [float] argument. *)
Definition format_timeout `{Runtime} (timeout : option float) : string :=
  match timeout with
  | Some t => float_str t
  | None => "None"
  end.

(** Execute a test on a single combination.  The body of the [try] calls the
    test function and takes the truth value of what it returned; the first
    handler takes a [TimeoutError], the second every other [Exception],
    reading its [str]; an exception of neither kind, and one raised by that
    [str], leave the function.  The assignments of [PENDING] and [RUNNING] to
    the local [status] are overwritten on every path that returns and never
    read. *)
Definition execute_test `{Runtime} (self : TestExecutor)
    (combination : DimensionCombination) (timeout : option float)
  : call TestResult :=
  start_time ← lift time_time;
  o ← attempt (result ← test_function self combination;
               b ← truthy result;
               mret (if b : bool then PASSED else FAILED));
  handled ← match o with
            | Returns status => mret (status, None)
            | Raises e =>
                if is_TimeoutError e
                then mret (ERROR,
                           Some ("Test timed out after "
                                 +:+ format_timeout timeout +:+ "s"))
                else if is_Exception e
                then error_message ← str e;
                     mret (ERROR, Some error_message)
                else raise e
            end;
  now ← lift time_time;
  let execution_time := (now - start_time)%float in
  timestamp ← lift datetime_now;
  mret (mkTestResult _ combination handled.1 execution_time handled.2 []
                     timestamp).

(** The loop [for combo in combinations] of the sequential branch. *)
Fixpoint for_combinations `{Runtime} (self : TestExecutor)
    (combinations : list DimensionCombination) (suite : TestSuite)
  : call TestSuite :=
  match combinations with
  | [] => mret suite
  | combo :: rest =>
      result ← execute_test self combo None;
      for_combinations self rest (add_result suite result)
  end.

(** [concurrent.futures]: what the worker threads of a
    [ThreadPoolExecutor(max_workers)] make of the jobs submitted to it one
    after the other, as [as_completed] hands the futures out: for each, the
    position of its job among the submitted ones and what the job did (the
    value or the exception [future.result()] gives), in the order in which
    the jobs were completed; and the world once the pool is shut down, which
    the [with] statement does on every way out, waiting for all jobs. *)
Class ThreadPoolExecutor `{Runtime} : Type := {
  as_completed :
    ∀ {A : Type}, Z -> list (call A) -> World -> list (nat * outcome A) * World
}.

(** What the library promises of a pool with at least one worker: every
    submitted job is completed exactly once, and what a future holds is what
    its job did, started in some state of the world.  Jobs are looked at as
    wholes here, as calls are everywhere in this model. *)
Definition completes_every_job `{ThreadPoolExecutor} : Prop :=
  ∀ (A : Type) (max_workers : Z) (jobs : list (call A)) (w : World),
    0 < max_workers →
    map fst (as_completed max_workers jobs w).1 ≡ₚ seq 0 (length jobs)
    ∧ ∀ i o, (i, o) ∈ (as_completed max_workers jobs w).1 →
             ∃ job wi wi', jobs !! i = Some job ∧ job wi = (o, wi').

(** The loop [for future in as_completed(futures)]: [future.result()] gives
    the value or raises the exception of the job. *)
Fixpoint for_futures `{Runtime} (completed : list (nat * outcome TestResult))
    (suite : TestSuite) : call TestSuite :=
  match completed with
  | [] => mret suite
  | future :: rest =>
      result ← (fun w => (future.2, w));
      for_futures rest (add_result suite result)
  end.

(** Execute tests on a batch of combinations: one at a time on the calling
    thread, or, with [parallel], on the threads of a pool.
    [ThreadPoolExecutor] refuses a [max_workers] that is not positive. *)
Definition execute_batch `{ThreadPoolExecutor} (self : TestExecutor)
    (combinations : list DimensionCombination) (suite_name : string)
    (parallel : bool) (max_workers : Z)
  : call TestSuite :=
  suite ← new_TestSuite suite_name;
  suite ← (if parallel
           then if max_workers <=? 0
                then raise (ValueError "max_workers must be greater than 0")
                else completed ←
                       lift (as_completed max_workers
                               (map (fun combo => execute_test self combo None)
                                    combinations));
                     for_futures completed suite
           else for_combinations self combinations suite);
  mark_complete suite.

(** ** Notions the statements about the executor are phrased in *)

(** What the predicate answers: the test function is called and the truth
    value of what it returned is taken. *)
Definition predicate `{Runtime} (self : TestExecutor)
    (combo : DimensionCombination) : call bool :=
  v ← test_function self combo;
  truthy v.

(** An exception one of the two handlers makes a result of: a
    [TimeoutError], or another [Exception] whose [str] returns. *)
Definition caught `{Runtime} (e : exception) (w : World) : Prop :=
  is_TimeoutError e = true
  ∨ (is_Exception e = true ∧ ∃ message w', str e w = (Returns message, w')).

(** An invocation of the predicate that answers, or raises an exception that
    is caught. *)
Definition contained `{Runtime} (self : TestExecutor)
    (combo : DimensionCombination) (w : World) : Prop :=
  match predicate self combo w with
  | (Returns _, _) => True
  | (Raises e, w') => caught e w'
  end.

(** What the handlers make of the predicate's answer: the status and the
    error message of the result, or the exception that leaves
    [execute_test]. *)
Definition verdict `{Runtime} (timeout : option float) (o : outcome bool)
  : call (TestStatus * option string) :=
  match o with
  | Returns b => mret (if b then PASSED else FAILED, None)
  | Raises e =>
      if is_TimeoutError e
      then mret (ERROR,
                 Some ("Test timed out after "
                       +:+ format_timeout timeout +:+ "s"))
      else if is_Exception e
      then message ← str e; mret (ERROR, Some message)
      else raise e
  end.

(** [execute_test] returns a result for the combination, with the given
    status and error message. *)
Definition reports `{Runtime} (self : TestExecutor)
    (combo : DimensionCombination) (timeout : option float) (w : World)
    (s : TestStatus) (message : option string) : Prop :=
  ∃ result w',
    execute_test self combo timeout w = (Returns result, w')
    ∧ combination result = combo
    ∧ status result = s
    ∧ error_message result = message.

(** [runs self w combinations results w']: starting in world [w], calling
    [execute_test] on the combinations one after the other, each in the world
    the one before left, returns [results] in that order and leaves [w']. *)
Inductive runs `{Runtime} (self : TestExecutor)
  : World → list DimensionCombination → list TestResult → World → Prop :=
| runs_nil w : runs self w [] [] w
| runs_cons w combo result w1 rest results w2 :
    execute_test self combo None w = (Returns result, w1) →
    runs self w1 rest results w2 →
    runs self w (combo :: rest) (result :: results) w2.

(** A result as a raising test function should leave it. *)
Definition error_with_message `{Runtime} (result : TestResult) : Prop :=
  status result = ERROR
  ∧ ∃ message, error_message result = Some message ∧ message ≠ "".

End test_executor.

(* ===================================================================== *)
(** * Notions the statements below are phrased in *)
(* ===================================================================== *)

Module visits.
Import Py dimensions combination_generator.

(** The groups [generate_all_combinations] would visit if nothing stopped it,
    each with its size: size by size, and within a size in the order of
    [generate_dimension_groups]. *)
Definition schedule (self : CombinationGenerator)
  : list (Z * list EnumClass) :=
  flat_map (fun size => map (pair size) (generate_dimension_groups size))
           (range (min_dimensions self) (max_dimensions self + 1)).

(** The running total after the given visits: the sizes of their whole
    cross products. *)
Definition produced (max_per_dimension : option Z)
    (visited : list (Z * list EnumClass)) : Z :=
  foldr Z.add 0
    (map (fun sg => len (generate_combinations_for_group sg.2 max_per_dimension))
         visited).

(** The whole cross products of the visited groups of one size, in order. *)
Definition collected (max_per_dimension : option Z)
    (visited : list (Z * list EnumClass)) (size : Z)
  : list DimensionCombination :=
  flat_map (fun sg => generate_combinations_for_group sg.2 max_per_dimension)
           (filter (fun sg => sg.1 = size) visited).

(** What the two loops maintain of [results]: each list is the whole cross
    products of the visited groups of its size, and every visited size has
    its list. *)
Definition whole_products (max_per_dimension : option Z)
    (results : gmap Z (list DimensionCombination))
    (visited : list (Z * list EnumClass)) : Prop :=
  (∀ size l, results !! size = Some l →
             l = collected max_per_dimension visited size)
  ∧ (∀ size, size ∈ map fst visited → is_Some (results !! size)).

(** No stop so far: the running total stayed below the ceiling. *)
Definition below_ceiling (max_per_dimension : option Z) (ceiling : Z)
    (visited : list (Z * list EnumClass)) : Prop :=
  ∀ m : nat, produced max_per_dimension (take m visited) < ceiling.

End visits.

(** Values the examples are written with. *)
Module examples.
Import Py dimensions combination_generator test_executor.

Definition JSON : EnumMember := mkMember "FormatVariation" "JSON" "json".
Definition XML : EnumMember := mkMember "FormatVariation" "XML" "xml".
Definition HIERARCHICAL : EnumMember :=
  mkMember "StructuralArchitecture" "HIERARCHICAL" "hierarchical".

(** [{"FormatVariation": JSON, "StructuralArchitecture": HIERARCHICAL}] *)
Definition json_hierarchical : DimensionCombination :=
  mkCombination (dict_of_items [("FormatVariation", JSON);
                                ("StructuralArchitecture", HIERARCHICAL)]).

(** The same mapping, the keys written in the opposite order. *)
Definition hierarchical_json : DimensionCombination :=
  mkCombination (dict_of_items [("StructuralArchitecture", HIERARCHICAL);
                                ("FormatVariation", JSON)]).

Definition json_only : DimensionCombination :=
  mkCombination (dict_of_items [("FormatVariation", JSON)]).

Definition xml_only : DimensionCombination :=
  mkCombination (dict_of_items [("FormatVariation", XML)]).

(** A runtime to run the examples in: the world is the number of clock
    reads so far, and both clocks show it. *)
Definition ticking : Runtime := {|
  World := nat;
  datetime := nat;
  time_time := fun w => (float_of_int (Z.of_nat w), S w);
  datetime_now := fun w => (w, S w);
  total_seconds := fun a b => float_of_int (Z.of_nat a - Z.of_nat b);
  float_str := fun _ => "0.0";
  float_sum := fun l => match l with
                        | [] => Int 0
                        | _ => Float (fold_left PrimFloat.add l 0%float)
                        end
|}.

(** The jobs run one after the other in the order of submission, each in the
    world the one before left. *)
Fixpoint in_turn `{Runtime} {A} (i : nat) (jobs : list (call A)) (w : World)
  : list (nat * outcome A) * World :=
  match jobs with
  | [] => ([], w)
  | job :: rest =>
      let '(o, w1) := job w in
      let '(done, w2) := in_turn (S i) rest w1 in
      ((i, o) :: done, w2)
  end.

(** A pool to run the examples with: the jobs run in turn, and the one
    submitted last is handed out first. *)
Definition last_first `{Runtime} : ThreadPoolExecutor := {|
  as_completed := fun A max_workers jobs w =>
    let '(done, w') := in_turn 0 jobs w in (reverse done, w')
|}.

(** [def error_function(combo): raise ValueError("Test error")] *)
Definition error_function `{Runtime} (combo : DimensionCombination)
  : call object :=
  raise (ValueError "Test error").

(** [def f(combo): raise ValueError()]: an exception without arguments, whose
    [str] is empty. *)
Definition raise_bare `{Runtime} (combo : DimensionCombination)
  : call object :=
  raise (ValueError "").

(** [def f(combo): raise TimeoutError("boom")] *)
Definition raise_timeout `{Runtime} (combo : DimensionCombination)
  : call object :=
  raise (mkException TimeoutError (says "boom")).

(** [def f(combo): raise KeyboardInterrupt()] *)
Definition raise_interrupt `{Runtime} (combo : DimensionCombination)
  : call object :=
  raise (mkException BaseException (says "")).

(** An exception of a class of the caller's whose [__str__] returns a number:
    [str(e)] raises a [TypeError]. *)
Definition unprintable `{Runtime} : exception :=
  mkException Exception
    (fun w => (inr (TypeError "__str__ returned non-string (type int)"), w)).

(** [def f(combo): raise Unprintable()] *)
Definition raise_unprintable `{Runtime} (combo : DimensionCombination)
  : call object :=
  raise unprintable.

(** [def f(combo): return Undecided()], an instance whose [__bool__] raises
    [ValueError("no truth value")]. *)
Definition return_undecided `{Runtime} (combo : DimensionCombination)
  : call object :=
  mret (Instance (raise (ValueError "no truth value"))).

(** [def always_fail(combo): return False] *)
Definition always_fail `{Runtime} (combo : DimensionCombination)
  : call object :=
  mret (Bool false).

End examples.

(* ===================================================================== *)
(** * combination_generator.py: sampling *)
(* ===================================================================== *)

Module sampling.
Import Py dimensions combination_generator test_executor.

(** The state of the [random] module's generator and the selection
    [random.sample] makes from it, for a sample size within the population. *)
Class Random : Type := {
  Rng : Type;
  choose_sample : ∀ {A : Type}, list A → nat → Rng → list A * Rng
}.

(** What [random.sample] promises of a selection of [k] out of a population:
    [k] elements, taken from different positions of the population. *)
Definition sample_without_replacement `{Random} : Prop :=
  ∀ (A : Type) (population : list A) (k : nat) (g : Rng),
    (k ≤ length population)%nat →
    ∃ chosen, (choose_sample population k g).1 ≡ₚ chosen
              ∧ sublist chosen population
              ∧ length chosen = k.

(** [random.sample(population, k)]: it refuses a negative [k] and a [k]
    above the size of the population. *)
Definition random_sample `{Runtime} `{Random} {A} (population : list A)
    (k : Z) : Rng → outcome (list A) * Rng :=
  fun g =>
    if (k <? 0) || (len population <? k)
    then (Raises (ValueError "Sample larger than population or is negative"),
          g)
    else let '(chosen, g') := choose_sample population (Z.to_nat k) g in
         (Returns chosen, g').

(** The loop [for group in sampled_groups]: one value from each dimension of
    the group, kept when there is one. *)
Fixpoint for_sampled_groups (sampled_groups : list (list EnumClass))
    (all_combos : list DimensionCombination) : list DimensionCombination :=
  match sampled_groups with
  | [] => all_combos
  | group :: rest =>
      let combos := generate_combinations_for_group group (Some 1) in
      let all_combos :=
        match combos with
        | first :: _ => all_combos ++ [first]
        | [] => all_combos
        end in
      for_sampled_groups rest all_combos
  end.

(** The loop [for size in range(...)] of [generate_sample_combinations]. *)
Fixpoint for_sample_sizes `{Runtime} `{Random} (samples_per_size : Z)
    (sizes : list Z) (results : gmap Z (list DimensionCombination))
  : Rng → outcome (gmap Z (list DimensionCombination)) * Rng :=
  fun g =>
    match sizes with
    | [] => (Returns results, g)
    | size :: rest =>
        let dimension_groups := generate_dimension_groups size in
        match random_sample dimension_groups
                (Z.min samples_per_size (len dimension_groups)) g with
        | (Raises e, g') => (Raises e, g')
        | (Returns sampled_groups, g') =>
            for_sample_sizes samples_per_size rest
              (<[size := for_sampled_groups sampled_groups []]> results) g'
        end
    end.

(** Generate a sample of combinations for each group size. *)
Definition generate_sample_combinations `{Runtime} `{Random}
    (self : CombinationGenerator) (samples_per_size : Z)
  : Rng → outcome (gmap Z (list DimensionCombination)) * Rng :=
  for_sample_sizes samples_per_size
    (range (min_dimensions self) (max_dimensions self + 1)) ∅.

(** What one size of the sample holds. *)
Definition sample_of (samples_per_size size : Z)
    (l : list DimensionCombination) : Prop :=
  len l = Z.min samples_per_size (len (generate_dimension_groups size))
  ∧ ∀ c, c ∈ l →
         ∃ group, group ∈ generate_dimension_groups size
                  ∧ generate_combinations_for_group group (Some 1) = [c]
                  ∧ Forall2 (fun d item => item.1 = __name__ d
                                           ∧ head (members d) = Some item.2)
                            group (dimensions c).

End sampling.

(** A sampler to run the examples with: it takes the first [k] elements and
    keeps no state. *)
Module sampling_examples.
Import sampling.

Definition first_k : Random := {|
  Rng := unit;
  choose_sample := fun A population k g => (take k population, g)
|}.

End sampling_examples.

(** Callbacks to run the examples with. *)
Module callback_examples.
Import Py dimensions combination_generator test_executor.

(** [def callback(result): raise RuntimeError("observer failed")] *)
Definition failing_callback `{Runtime} (result : TestResult) : call object :=
  raise (RuntimeError "observer failed").

(** [def callback(result): pass] *)
Definition silent_callback `{Runtime} (result : TestResult) : call object :=
  mret None_.

End callback_examples.

(* ===================================================================== *)
(** * test_executor.py: execution with a callback *)
(* ===================================================================== *)

Module callbacks.
Import Py dimensions combination_generator test_executor.

(** The loop of [execute_with_callback]: execute, append, call back. *)
Fixpoint for_combinations_callback `{Runtime} (self : TestExecutor)
    (combinations : list DimensionCombination)
    (callback : TestResult → call object) (suite : TestSuite)
  : call TestSuite :=
  match combinations with
  | [] => mret suite
  | combo :: rest =>
      result ← execute_test self combo None;
      let suite := add_result suite result in
      _ ← callback result;
      for_combinations_callback self rest callback suite
  end.

(** Execute tests with a callback for each result. *)
Definition execute_with_callback `{Runtime} (self : TestExecutor)
    (combinations : list DimensionCombination)
    (callback : TestResult → call object) (suite_name : string)
  : call TestSuite :=
  suite ← new_TestSuite suite_name;
  suite ← for_combinations_callback self combinations callback suite;
  mark_complete suite.

(** [observed self callback w combinations results w']: the run of [runs],
    with the callback called on each result before the next combination is
    executed, every call of it returning. *)
Inductive observed `{Runtime} (self : TestExecutor)
    (callback : TestResult → call object)
  : World → list DimensionCombination → list TestResult → World → Prop :=
| observed_nil w : observed self callback w [] [] w
| observed_cons w combo result w1 v w2 rest results w3 :
    execute_test self combo None w = (Returns result, w1) →
    callback result w1 = (Returns v, w2) →
    observed self callback w2 rest results w3 →
    observed self callback w (combo :: rest) (result :: results) w3.

End callbacks.

(* ===================================================================== *)
(** * reporter.py: the analysis by dimension *)
(* ===================================================================== *)

Module reporter.
Import Py dimensions combination_generator test_executor.

(** The four counters kept per ["<dimension>:<value>"] key. *)
Record stats : Type := mkStats {
  total : Z;
  passed : Z;
  failed : Z;
  error : Z
}.

(** The default of the [defaultdict]. *)
Definition no_stats : stats := mkStats 0 0 0 0.

(** The body of the inner loop: the counters of [key] after one more result
    with the given status. *)
Definition count_result (s : TestStatus) (st : stats) : stats :=
  let st := mkStats (total st + 1) (passed st) (failed st) (error st) in
  match s with
  | PASSED => mkStats (total st) (passed st + 1) (failed st) (error st)
  | FAILED => mkStats (total st) (passed st) (failed st + 1) (error st)
  | ERROR => mkStats (total st) (passed st) (failed st) (error st + 1)
  | _ => st
  end.

(** [for dim_name, dim_value in result.combination.dimensions.items()] *)
Definition count_items (s : TestStatus) (items : dict EnumMember)
    (dimension_stats : gmap string stats) : gmap string stats :=
  fold_left
    (fun (d : gmap string stats) item =>
       let key := item.1 +:+ ":" +:+ value item.2 in
       <[key := count_result s (default no_stats (d !! key))]> d)
    items dimension_stats.

(** [for result in suite.results]: the statistics collected by
    [format_dimension_analysis] before it formats them. *)
Definition dimension_stats `{Runtime} (suite : TestSuite)
  : gmap string stats :=
  fold_left
    (fun d result =>
       count_items (status result) (dimensions (combination result)) d)
    (results suite) ∅.

(** The pass rate shown for one key:
    [(passed / total * 100) if total > 0 else 0]. *)
Definition stats_pass_rate `{Runtime} (st : stats) : outcome num :=
  if 0 <? total st
  then ratio ← truediv (passed st) (total st);
       mret (Float (ratio * float_of_int 100)%float)
  else mret (Int 0).

(** [format(x, spec)] for the numbers the report shows. *)
Class Format : Type := {
  (** [f"{x:<width>.<precision>f}"] *)
  format_fixed : nat → nat → num → string;
  (** [f"{n:<width>}"] for an [int] *)
  format_int : nat → Z → string
}.

(** [c * n] for a one-character string. *)
Fixpoint repeat_string (c : string) (n : nat) : string :=
  match n with
  | O => ""
  | S n' => c +:+ repeat_string c n'
  end.

(** [f"{s:<width>}"] for a [str]: padded with spaces on the right. *)
Definition ljust (width : nat) (s : string) : string :=
  s +:+ repeat_string " " (width - String.length s).

(** The line of one key. *)
Definition analysis_line `{Runtime} `{Format} (dim_key : string) (st : stats)
  : outcome string :=
  pass_rate ← stats_pass_rate st;
  mret (ljust 50 dim_key +:+ " : " +:+ format_int 4 (total st)
        +:+ " tests, " +:+ format_fixed 5 1 pass_rate +:+ "% pass rate").

(** The loop [for dim_key in sorted(dimension_stats.keys())]. *)
Fixpoint analysis_lines `{Runtime} `{Format} (dimension_stats : gmap string stats)
    (keys : list string) (lines : list string) : outcome (list string) :=
  match keys with
  | [] => mret lines
  | dim_key :: rest =>
      st ← getitem dimension_stats dim_key;
      line ← analysis_line dim_key st;
      analysis_lines dimension_stats rest (lines ++ [line])
  end.

(** The string of one line feed. *)
Definition newline : string := String (Ascii.ascii_of_nat 10) "".

(** Analyze results by dimension. *)
Definition format_dimension_analysis `{Runtime} `{Format} (suite : TestSuite)
  : outcome string :=
  let dimension_stats := dimension_stats suite in
  let lines :=
    [newline +:+ "Dimension Analysis:"; repeat_string "-" 70] in
  lines ← analysis_lines dimension_stats
             (sorted (elements (dom dimension_stats))) lines;
  let lines := lines ++ [newline +:+ repeat_string "-" 70 +:+ newline] in
  mret (join newline lines).

End reporter.

(** What the counters of the analysis count. *)
Module reporter_counts.
Import Py dimensions combination_generator test_executor reporter.

(** The key of one item of a combination: ["<dimension>:<value>"]. *)
Definition item_key (item : string * EnumMember) : string :=
  item.1 +:+ ":" +:+ value item.2.

(** How many items of the combinations of the given results have the key. *)
Definition occurrences `{Runtime} (key : string) (rs : list TestResult) : Z :=
  foldr Z.add 0
    (map (fun r =>
            len (filter (fun item => item_key item = key)
                        (dimensions (combination r)))) rs).

(** Counters that fit together: a positive total, and no more passed, failed
    and errored tests than tests. *)
Definition counted (st : stats) : Prop :=
  0 < total st ∧ 0 ≤ passed st ∧ 0 ≤ failed st ∧ 0 ≤ error st
  ∧ passed st + failed st + error st ≤ total st.

End reporter_counts.

(** What the pass rate is the rate of. *)
Module summary_counts.
Import test_executor.

(** How many of the results passed. *)
Fixpoint passed_count `{Runtime} (results : list TestResult) : nat :=
  match results with
  | [] => 0
  | result :: rest =>
      match status result with
      | PASSED => S (passed_count rest)
      | _ => passed_count rest
      end
  end.

End summary_counts.

(* ===================================================================== *)
(** * Counting *)
(* ===================================================================== *)

Module counting.

(** The number of [k]-element subsets of an [n]-element set, by Pascal's
    rule. *)
Fixpoint choose (n k : nat) : nat :=
  match k, n with
  | O, _ => 1
  | S _, O => 0
  | S k', S n' => choose n' k' + choose n' k
  end.

End counting.

(** Equality of dimension classes, their members and combinations is
    decidable. *)
Module decisions.
Import Py dimensions combination_generator.

#[export] Instance EnumMember_eq_dec : EqDecision EnumMember.
Proof. solve_decision. Defined.

#[export] Instance EnumClass_eq_dec : EqDecision EnumClass.
Proof. solve_decision. Defined.

#[export] Instance DimensionCombination_eq_dec
  : EqDecision DimensionCombination.
Proof. unfold dict. solve_decision. Defined.

End decisions.

(** Whether a character occurs in a string. *)
Module chars.

Fixpoint has_char (c : Ascii.ascii) (s : string) : bool :=
  match s with
  | EmptyString => false
  | String c' s' => bool_decide (c' = c) || has_char c s'
  end.

(** A string that can stand between separators [c]: not empty, and free of
    [c]. *)
Definition field (c : Ascii.ascii) (s : string) : Prop :=
  s ≠ "" ∧ has_char c s = false.

End chars.

(** The canonical key, part by part. *)
Module keys.
Import Py dimensions combination_generator.

(** The list [parts] of [get_hash], before it is sorted and joined. *)
Definition key_parts (self : DimensionCombination) : list string :=
  fold_left
    (fun parts dim_class =>
       let dim_name := __name__ dim_class in
       match dict_get (dimensions self) dim_name with
       | Some v => parts ++ [dim_name +:+ ":" +:+ value v]
       | None => parts
       end)
    DIMENSION_CLASSES [].

(** A combination over the registry: every item gives, to the name of a
    registered dimension, a member of that dimension, and the names come in
    the order of the registry. *)
Definition over_registry (c : DimensionCombination) : Prop :=
  sublist (map fst (dimensions c)) (map __name__ DIMENSION_CLASSES)
  ∧ ∀ n v, (n, v) ∈ dimensions c →
           ∃ dim_class, dim_class ∈ DIMENSION_CLASSES
                        ∧ n = __name__ dim_class
                        ∧ v ∈ members dim_class.

End keys.

(** The two ways out of the inner loop of [generate_all_combinations]. *)
Module loops.
Import Py dimensions combination_generator.

(** The results either branch of the inner loop hands on. *)
Definition handed_on
    (r : gmap Z (list DimensionCombination) * Z
         + gmap Z (list DimensionCombination))
  : gmap Z (list DimensionCombination) :=
  match r with
  | inl (results, _) => results
  | inr results => results
  end.

End loops.

(** The values [generate_combinations_for_group] keeps of one dimension:
    [list(dim_class)], sliced when a cap is given. *)
Module offer.
Import Py dimensions.

Definition offered (max_per_dimension : option Z) (dim_class : EnumClass)
  : list EnumMember :=
  match max_per_dimension with
  | Some n => if truthy_int max_per_dimension
              then slice_to (members dim_class) n else members dim_class
  | None => members dim_class
  end.

End offer.

(* ===================================================================== *)
(** * Properties of the built-ins *)
(* ===================================================================== *)

Section builtin_facts.
Import Py.

Lemma fold_left_pointwise {A B} (f g : A → B → A) (l : list B) (a : A) :
  (∀ a x, f a x = g a x) → fold_left f l a = fold_left g l a.
Proof.
  intros Hfg. revert a. induction l as [|x l IH]; intros a; [done|].
  cbn [fold_left]. rewrite Hfg. apply IH.
Qed.

Lemma len_nonneg {A} (l : list A) : 0 ≤ len l.
Proof. unfold len. lia. Qed.

Lemma len_app {A} (l k : list A) : len (l ++ k) = len l + len k.
Proof. unfold len. rewrite length_app. lia. Qed.

(** The cross product has as many elements as the product of the sizes. *)
Lemma len_product {A} (ls : list (list A)) :
  len (product ls) = foldr Z.mul 1 (map len ls).
Proof.
  induction ls as [|l ls IH]; [reflexivity|].
  cbn [product map foldr]. rewrite <- IH. clear IH.
  induction l as [|x l IHl]; [unfold len; cbn [flat_map length]; lia|].
  cbn [flat_map]. rewrite len_app, IHl.
  unfold len. rewrite length_map. cbn [length]. lia.
Qed.

Lemma len_slice_to_nonneg {A} (l : list A) (n : Z) :
  0 ≤ n → len (slice_to l n) = Z.min n (len l).
Proof.
  intros Hn. unfold slice_to.
  destruct (Z.ltb_spec n 0) as [?|_]; [lia|].
  unfold len. rewrite length_take. lia.
Qed.

Lemma len_slice_to_neg {A} (l : list A) (n : Z) :
  n < 0 → len (slice_to l n) = Z.max 0 (len l + n).
Proof.
  intros Hn. unfold slice_to.
  destruct (Z.ltb_spec n 0) as [_|?]; [|lia].
  unfold len. rewrite length_take. lia.
Qed.

(** There is a subsequence of every size up to the length. *)
Lemma combinations_nonempty {A} (l : list A) (r : nat) :
  (r ≤ length l)%nat → combinations l r ≠ [].
Proof.
  revert r. induction l as [|x l IH]; intros [|r] Hr; cbn in *; try done; try lia.
  intros Happ. apply app_eq_nil in Happ as [Hmap _].
  apply map_eq_nil in Hmap. revert Hmap. apply IH. lia.
Qed.

Lemma combinations_too_long {A} (l : list A) (r : nat) :
  (length l < r)%nat → combinations l r = [].
Proof.
  revert r. induction l as [|x l IH]; intros [|r] Hr; cbn in *; try done; try lia.
  rewrite !IH by lia. reflexivity.
Qed.

End builtin_facts.

(* ===================================================================== *)
(** * Properties of the combination generator *)
(* ===================================================================== *)

Section generator_facts.
Import Py dimensions combination_generator.

Lemma len_DIMENSION_CLASSES : len DIMENSION_CLASSES = 10.
Proof. reflexivity. Qed.

(** The number of value combinations of a group is the product, over its
    dimensions, of the sizes of the (possibly sliced) variant lists. *)
Lemma len_generate_combinations_for_group
    (group : list EnumClass) (cap : option Z) :
  len (generate_combinations_for_group group cap)
  = foldr Z.mul 1
      (map (fun d =>
              match cap with
              | Some c => if truthy_int cap then len (slice_to (members d) c)
                          else len (members d)
              | None => len (members d)
              end) group).
Proof.
  unfold generate_combinations_for_group.
  unfold len at 1. rewrite length_map. fold (len (product
    (map (fun dim_class =>
            map (fun v => (__name__ dim_class, v))
              match cap with
              | Some n => if truthy_int cap then slice_to (members dim_class) n
                          else members dim_class
              | None => members dim_class
              end) group))).
  rewrite len_product, map_map. f_equal.
  apply map_ext. intros d. unfold len at 1. rewrite length_map.
  destruct cap as [c|]; [destruct (truthy_int (Some c))|]; reflexivity.
Qed.

(** C3, as amended: for every group of dimensions, the number of combinations
    [generate_combinations_for_group] returns is the product over the group's
    dimensions of [min(cap, variant count)] when a positive cap is supplied,
    and of the full variant counts when no cap is supplied. *)
Theorem generate_combinations_for_group_count
    (group : list EnumClass) (cap : option Z) :
  match cap with Some c => 0 < c | None => True end →
  len (generate_combinations_for_group group cap)
  = foldr Z.mul 1
      (map (fun d =>
              match cap with
              | Some c => Z.min c (len (members d))
              | None => len (members d)
              end) group).
Proof.
  intros Hcap. rewrite len_generate_combinations_for_group.
  f_equal. apply map_ext. intros d.
  destruct cap as [c|]; [|reflexivity].
  unfold truthy_int. destruct (Z.eqb_spec c 0) as [->|_]; [lia|].
  cbn [negb]. apply len_slice_to_nonneg. lia.
Qed.

(** The two sizes the specification quotes: variant counts (8, 6) give 4
    combinations under a cap of 2 and 48 without a cap. *)
Lemma generate_combinations_for_group_count_witness :
  (0 < 2 ∧
   len (generate_combinations_for_group
          [FormatVariation; StructuralArchitecture] (Some 2)) = 4)
  ∧ (True ∧
     len (generate_combinations_for_group
            [FormatVariation; StructuralArchitecture] None) = 48).
Proof.
  split; split.
  - lia.
  - apply (generate_combinations_for_group_count
             [FormatVariation; StructuralArchitecture] (Some 2)). lia.
  - exact I.
  - apply (generate_combinations_for_group_count
             [FormatVariation; StructuralArchitecture] None). exact I.
Defined.

(** A cap of [0] is read as no cap: the product of [min(0, count)] is 0,
    the function returns all 48 combinations. *)
Lemma generate_combinations_for_group_cap_zero :
  len (generate_combinations_for_group
         [FormatVariation; StructuralArchitecture] (Some 0)) = 48
  ∧ len (generate_combinations_for_group
           [FormatVariation; StructuralArchitecture] (Some 0))
    ≠ foldr Z.mul 1
        (map (fun d => Z.min 0 (len (members d)))
             [FormatVariation; StructuralArchitecture]).
Proof. split; [reflexivity | vm_compute; discriminate]. Qed.

(** C6: for every [size] below 2 or above the number of registered
    dimensions, [generate_dimension_groups] returns the empty list. *)
Theorem generate_dimension_groups_invalid (size : Z) :
  size < 2 ∨ len DIMENSION_CLASSES < size →
  generate_dimension_groups size = [].
Proof.
  intros Hsize. unfold generate_dimension_groups.
  destruct (Z.ltb_spec size 2), (Z.ltb_spec (len DIMENSION_CLASSES) size);
    cbn [orb]; try reflexivity.
  lia.
Qed.

Lemma generate_dimension_groups_invalid_witness :
  ((1 < 2 ∨ len DIMENSION_CLASSES < 1) ∧ generate_dimension_groups 1 = [])
  ∧ ((11 < 2 ∨ len DIMENSION_CLASSES < 11)
     ∧ generate_dimension_groups 11 = [])
  ∧ ((-3 < 2 ∨ len DIMENSION_CLASSES < -3)
     ∧ generate_dimension_groups (-3) = []).
Proof.
  split; [|split]; split.
  - left; lia.
  - apply (generate_dimension_groups_invalid 1). left; lia.
  - right; rewrite len_DIMENSION_CLASSES; lia.
  - apply (generate_dimension_groups_invalid 11).
    right; rewrite len_DIMENSION_CLASSES; lia.
  - left; lia.
  - apply (generate_dimension_groups_invalid (-3)). left; lia.
Defined.

(** A valid size has at least one group. *)
Lemma generate_dimension_groups_valid (size : Z) :
  2 ≤ size ≤ len DIMENSION_CLASSES → generate_dimension_groups size ≠ [].
Proof.
  intros Hsize. unfold generate_dimension_groups.
  destruct (Z.ltb_spec size 2), (Z.ltb_spec (len DIMENSION_CLASSES) size);
    cbn [orb]; try lia.
  apply combinations_nonempty. unfold len in *. lia.
Qed.

(** C9: whatever the arguments, the constructed generator has
    [2 <= min_dimensions] and [max_dimensions <= len(DIMENSION_CLASSES)]; a
    requested minimum below 2 becomes 2 and a requested maximum above the
    number of dimensions becomes that number. *)
Theorem init_clamps_range (min_arg : Z) (max_arg : option Z) :
  let g := __init__ min_arg max_arg in
  2 ≤ min_dimensions g
  ∧ max_dimensions g ≤ len DIMENSION_CLASSES
  ∧ min_dimensions g = (if min_arg <? 2 then 2 else min_arg)
  ∧ match max_arg with
    | Some m => if len DIMENSION_CLASSES <? m
                then max_dimensions g = len DIMENSION_CLASSES
                else True
    | None => max_dimensions g = len DIMENSION_CLASSES
    end.
Proof.
  cbn zeta. unfold __init__. cbn [min_dimensions max_dimensions].
  split; [lia|]. split; [lia|]. split.
  - destruct (Z.ltb_spec min_arg 2); lia.
  - destruct max_arg as [m|]; cbn [int_or]; [|lia].
    destruct (Z.ltb_spec (len DIMENSION_CLASSES) m); [|exact I].
    destruct (truthy_int (Some m)); lia.
Qed.

End generator_facts.

(* ===================================================================== *)
(** * Properties of dictionaries and of the canonical key *)
(* ===================================================================== *)

Section dict_facts.
Import Py.
Context {V : Type}.
Implicit Types (d : dict V) (k : string) (v : V).

Lemma dict_get_Some_elem_of d k v : dict_get d k = Some v → (k, v) ∈ d.
Proof.
  induction d as [|[k' v'] d IH]; cbn [dict_get]; [done|].
  destruct (decide (k' = k)) as [->|Hne].
  - intros [= ->]. apply list_elem_of_here.
  - intros Hget. apply list_elem_of_further, IH, Hget.
Qed.

Lemma dict_get_None_keys d k : dict_get d k = None → k ∉ map fst d.
Proof.
  induction d as [|[k' v'] d IH]; cbn [dict_get map fst].
  - intros _. apply not_elem_of_nil.
  - destruct (decide (k' = k)) as [->|Hne]; [done|].
    intros Hget. apply not_elem_of_cons. split; [congruence | by apply IH].
Qed.

Lemma elem_of_keys d k v : (k, v) ∈ d → k ∈ map fst d.
Proof. intros Hin. change k with (fst (k, v)). by apply list_elem_of_fmap_2. Qed.

(** In a dictionary the items are exactly the successful lookups. *)
Lemma dict_get_Some d k v :
  dict_wf d → dict_get d k = Some v ↔ (k, v) ∈ d.
Proof.
  intros Hwf. split; [apply dict_get_Some_elem_of|].
  induction d as [|[k' v'] d IH]; [by intros ?%elem_of_nil|].
  apply NoDup_cons in Hwf as [Hk' Hwf]. cbn [dict_get].
  intros [[= -> ->]|Hin]%elem_of_cons.
  - by rewrite decide_True.
  - rewrite decide_False; [by apply IH|].
    intros ->. apply Hk'. by eapply elem_of_keys.
Qed.

(** Two dictionaries with the same items answer every lookup alike. *)
Lemma dict_get_same_items d1 d2 :
  dict_wf d1 → dict_wf d2 →
  (∀ k v, (k, v) ∈ d1 ↔ (k, v) ∈ d2) →
  ∀ k, dict_get d1 k = dict_get d2 k.
Proof.
  intros Hwf1 Hwf2 Hsame k.
  destruct (dict_get d1 k) as [v|] eqn:H1.
  - symmetry. apply dict_get_Some, Hsame, dict_get_Some; done.
  - destruct (dict_get d2 k) as [v|] eqn:H2; [|done].
    apply dict_get_Some, Hsame, dict_get_Some in H2; [|done..].
    congruence.
Qed.

Lemma dict_get_set d k v k' :
  dict_get (dict_set d k v) k'
  = if decide (k = k') then Some v else dict_get d k'.
Proof.
  induction d as [|[k0 v0] d IH]; cbn [dict_set dict_get].
  - reflexivity.
  - destruct (decide (k0 = k)) as [->|Hne]; cbn [dict_get].
    + destruct (decide (k = k')); reflexivity.
    + destruct (decide (k0 = k')) as [->|?]; [by rewrite decide_False|done].
Qed.

Lemma dict_set_keys d k v :
  map fst (dict_set d k v)
  = if decide (k ∈ map fst d) then map fst d else map fst d ++ [k].
Proof.
  induction d as [|[k0 v0] d IH]; cbn [dict_set map fst app].
  - rewrite decide_False; [done | apply not_elem_of_nil].
  - destruct (decide (k0 = k)) as [->|Hne]; cbn [map fst].
    + rewrite decide_True; [done | apply list_elem_of_here].
    + rewrite IH. destruct (decide (k ∈ map fst d)) as [Hin|Hnin].
      * rewrite decide_True; [done | by apply list_elem_of_further].
      * rewrite decide_False; [done|].
        intros [?|?]%elem_of_cons; congruence.
Qed.

(** Assignment keeps every key unique. *)
Lemma dict_set_wf d k v : dict_wf d → dict_wf (dict_set d k v).
Proof.
  unfold dict_wf. rewrite dict_set_keys. intros Hwf.
  destruct (decide (k ∈ map fst d)); [done|].
  apply NoDup_app. split; [done|]. split; [|apply NoDup_singleton].
  intros x Hx ->%list_elem_of_singleton. done.
Qed.

Lemma fold_dict_set_wf (items : list (string * V)) d :
  dict_wf d → dict_wf (fold_left (fun d kv => dict_set d kv.1 kv.2) items d).
Proof.
  revert d. induction items as [|[k v] items IH]; intros d Hwf; [done|].
  cbn [fold_left]. apply IH, dict_set_wf, Hwf.
Qed.

Lemma dict_of_items_wf (items : list (string * V)) :
  dict_wf (dict_of_items items).
Proof. apply fold_dict_set_wf, NoDup_nil_2. Qed.

(** A comprehension over items with distinct keys answers each lookup with
    the item of that key. *)
Lemma dict_get_fold_set (items : list (string * V)) d k :
  NoDup (map fst items) →
  dict_get (fold_left (fun d kv => dict_set d kv.1 kv.2) items d) k
  = match dict_get items k with Some v => Some v | None => dict_get d k end.
Proof.
  revert d. induction items as [|[k0 v0] items IH]; intros d Hnd; [done|].
  apply NoDup_cons in Hnd as [Hk0 Hnd].
  cbn [fold_left dict_get fst snd]. rewrite IH by done.
  rewrite dict_get_set.
  destruct (decide (k0 = k)) as [->|Hne]; [|done].
  destruct (dict_get items k) as [v|] eqn:Hget; [|done].
  exfalso. apply Hk0. eapply elem_of_keys, dict_get_Some_elem_of, Hget.
Qed.

Lemma dict_get_of_items (items : list (string * V)) k :
  NoDup (map fst items) → dict_get (dict_of_items items) k = dict_get items k.
Proof.
  intros Hnd. unfold dict_of_items. rewrite dict_get_fold_set by done.
  by destruct (dict_get items k).
Qed.

End dict_facts.

Section canonical_key.
Import Py dimensions combination_generator.

(** [get_hash] reads the mapping through lookups only. *)
Lemma get_hash_ext (c1 c2 : DimensionCombination) :
  (∀ k, dict_get (dimensions c1) k = dict_get (dimensions c2) k) →
  get_hash c1 = get_hash c2.
Proof.
  intros Hget. unfold get_hash. do 2 f_equal.
  apply fold_left_pointwise. intros parts dim_class.
  by rewrite Hget.
Qed.

(** C1: two combinations whose mappings hold the same (dimension, variant)
    pairs, in whatever order those were inserted, have the same canonical
    key: [get_hash] depends on the set of pairs only. *)
Theorem get_hash_same_assignments (c1 c2 : DimensionCombination) :
  dict_wf (dimensions c1) →
  dict_wf (dimensions c2) →
  (∀ k v, (k, v) ∈ dimensions c1 ↔ (k, v) ∈ dimensions c2) →
  get_hash c1 = get_hash c2.
Proof.
  intros Hwf1 Hwf2 Hsame. apply get_hash_ext.
  by apply dict_get_same_items.
Qed.

(** The same mapping written down in any two orders. *)
Lemma get_hash_insertion_order (items1 items2 : list (string * EnumMember)) :
  NoDup (map fst items1) →
  items1 ≡ₚ items2 →
  get_hash (mkCombination (dict_of_items items1))
  = get_hash (mkCombination (dict_of_items items2)).
Proof.
  intros Hnd Hperm. apply get_hash_ext. intros k. cbn [dimensions].
  assert (Hnd2 : NoDup (map fst items2)).
  { assert (Hkeys : map fst items1 ≡ₚ map fst items2)
      by apply Permutation_map, Hperm.
    by rewrite <- Hkeys. }
  rewrite !dict_get_of_items by done.
  apply dict_get_same_items; [done..|].
  intros k' v. by rewrite Hperm.
Qed.

End canonical_key.

Section canonical_key_examples.
Import Py dimensions combination_generator examples.

(** The mapping of [test_combination_hash], written in its order and in the
    opposite one. *)
Lemma get_hash_same_assignments_witness :
  (dict_wf (dimensions json_hierarchical)
   ∧ dict_wf (dimensions hierarchical_json)
   ∧ ∀ k v, (k, v) ∈ dimensions json_hierarchical
            ↔ (k, v) ∈ dimensions hierarchical_json)
  ∧ dimensions json_hierarchical ≠ dimensions hierarchical_json
  ∧ get_hash json_hierarchical = get_hash hierarchical_json.
Proof.
  assert (Hsame : ∀ k v, (k, v) ∈ dimensions json_hierarchical
                         ↔ (k, v) ∈ dimensions hierarchical_json).
  { intros k v. vm_compute dimensions.
    rewrite !elem_of_cons, !elem_of_nil. tauto. }
  split; [|split].
  - split; [apply dict_of_items_wf|]. split; [apply dict_of_items_wf|].
    exact Hsame.
  - discriminate.
  - apply (get_hash_same_assignments json_hierarchical hierarchical_json).
    + apply dict_of_items_wf.
    + apply dict_of_items_wf.
    + exact Hsame.
Defined.

Example get_hash_example :
  get_hash hierarchical_json
  = "FormatVariation:json|StructuralArchitecture:hierarchical".
Proof. vm_compute. reflexivity. Qed.

End canonical_key_examples.

(* ===================================================================== *)
(** * The ceiling of [generate_all_combinations] *)
(* ===================================================================== *)

Section ceiling.
Import Py dimensions combination_generator visits.
Variable cap : option Z.
Implicit Types (visited : list (Z * list EnumClass)).
Implicit Types (results : gmap Z (list DimensionCombination)).

Lemma produced_app visited1 visited2 :
  produced cap (visited1 ++ visited2)
  = produced cap visited1 + produced cap visited2.
Proof.
  unfold produced. induction visited1 as [|sg visited1 IH]; cbn; lia.
Qed.

Lemma produced_singleton size group :
  produced cap [(size, group)]
  = len (generate_combinations_for_group group cap).
Proof. unfold produced. cbn [map foldr snd]. lia. Qed.

Lemma collected_app visited1 visited2 size :
  collected cap (visited1 ++ visited2) size
  = collected cap visited1 size ++ collected cap visited2 size.
Proof. unfold collected. by rewrite filter_app, flat_map_app. Qed.

Lemma collected_not_visited visited size :
  size ∉ map fst visited → collected cap visited size = [].
Proof.
  unfold collected. induction visited as [|[k g] visited IH]; [done|].
  cbn [map fst]. intros [Hne Hnin]%not_elem_of_cons.
  rewrite filter_cons_False by (cbn; congruence). by apply IH.
Qed.

Lemma collected_singleton size group :
  collected cap [(size, group)] size
  = generate_combinations_for_group group cap.
Proof.
  unfold collected. rewrite filter_cons_True by done.
  cbn. apply app_nil_r.
Qed.

Lemma collected_singleton_ne size size' group :
  size ≠ size' → collected cap [(size, group)] size' = [].
Proof.
  intros Hne. unfold collected. by rewrite filter_cons_False.
Qed.

(** [results[size] = []] before the first group of a new size. *)
Lemma whole_products_insert results visited size :
  size ∉ map fst visited →
  whole_products cap results visited →
  whole_products cap (<[size := []]> results) visited.
Proof.
  intros Hnew [Hlists Hkeys]. split.
  - intros k l. destruct (decide (size = k)) as [<-|Hne].
    + rewrite lookup_insert_eq. intros [= <-].
      by rewrite collected_not_visited.
    + rewrite lookup_insert_ne by done. apply Hlists.
  - intros k Hk. apply lookup_insert_is_Some.
    destruct (decide (size = k)); [by left|right]. split; [done|by apply Hkeys].
Qed.

(** [results[size].extend(combos)] after a group. *)
Lemma whole_products_extend results visited size group :
  is_Some (results !! size) →
  whole_products cap results visited →
  whole_products cap
    (alter (fun l => l ++ generate_combinations_for_group group cap)
           size results)
    (visited ++ [(size, group)]).
Proof.
  intros [l0 Hl0] [Hlists Hkeys]. split.
  - intros k l. rewrite collected_app.
    destruct (decide (size = k)) as [<-|Hne].
    + rewrite lookup_alter_eq, Hl0. cbn [fmap option_fmap option_map].
      intros [= <-]. by rewrite collected_singleton, (Hlists size l0).
    + rewrite lookup_alter_ne by done. intros Hl.
      rewrite collected_singleton_ne by done.
      rewrite app_nil_r. by apply Hlists.
  - intros k. rewrite map_app. cbn [map fst].
    intros [Hk|Hk%list_elem_of_singleton]%elem_of_app;
      apply lookup_alter_is_Some; [by apply Hkeys|].
    subst k. by exists l0.
Qed.

Lemma below_ceiling_nil (ceiling : Z) : 0 < ceiling → below_ceiling cap ceiling [].
Proof. intros Hpos m. by rewrite take_nil. Qed.

(** One more group below the ceiling. *)
Lemma below_ceiling_snoc (ceiling : Z) visited sg :
  below_ceiling cap ceiling visited →
  produced cap (visited ++ [sg]) < ceiling →
  below_ceiling cap ceiling (visited ++ [sg]).
Proof.
  intros Hbelow Hlast m.
  destruct (decide (m ≤ length visited)%nat) as [Hm|Hm].
  - rewrite take_app_le by done. apply Hbelow.
  - rewrite take_ge; [done|]. rewrite length_app. cbn. lia.
Qed.

Lemma ceiling_reached_Some (ceiling total : Z) :
  0 < ceiling → ceiling_reached (Some ceiling) total = (ceiling <=? total).
Proof.
  intros Hpos. unfold ceiling_reached, truthy_int.
  destruct (Z.eqb_spec ceiling 0); [lia|done].
Qed.

End ceiling.

Section ceiling_loops.
Import Py dimensions combination_generator visits.
Variable cap : option Z.
Variable ceiling : Z.
Hypothesis ceiling_pos : 0 < ceiling.
Implicit Types (visited : list (Z * list EnumClass)).
Implicit Types (results : gmap Z (list DimensionCombination)).

(** The inner loop either visits all its groups and stays below the ceiling,
    or returns right after the first group that reaches it. *)
Lemma for_groups_spec size groups results total visited :
  whole_products cap results visited →
  is_Some (results !! size) →
  total = produced cap visited →
  below_ceiling cap ceiling visited →
  match for_groups cap (Some ceiling) size groups results total with
  | inl (results', total') =>
      let visited' := visited ++ map (pair size) groups in
      whole_products cap results' visited'
      ∧ total' = produced cap visited'
      ∧ below_ceiling cap ceiling visited'
  | inr results' =>
      ∃ n : nat,
        (n ≤ length groups)%nat ∧
        let visited' := visited ++ take n (map (pair size) groups) in
        whole_products cap results' visited'
        ∧ ceiling ≤ produced cap visited'
        ∧ ∀ m : nat, (m < length visited')%nat →
                     produced cap (take m visited') < ceiling
  end.
Proof.
  revert results total visited.
  induction groups as [|group rest IH]; intros results total visited
    Hwhole Hkey Htotal Hbelow.
  - cbn. by rewrite app_nil_r.
  - cbn [for_groups]. rewrite ceiling_reached_Some by done.
    set (combos := generate_combinations_for_group group cap).
    assert (Hwhole1 := whole_products_extend cap results visited size group
                         Hkey Hwhole).
    fold combos in Hwhole1.
    assert (Htotal1 : total + len combos
                      = produced cap (visited ++ [(size, group)])).
    { by rewrite produced_app, produced_singleton, Htotal. }
    destruct (Z.leb_spec ceiling (total + len combos)) as [Hreached|Hnot].
    + exists 1%nat. cbn [length]. split; [lia|].
      change (take 1 (map (pair size) (group :: rest)))
        with [(size, group)]. cbn zeta.
      split; [done|]. split; [lia|].
      intros m. rewrite length_app. cbn [length]. intros Hm.
      rewrite take_app_le by lia. apply Hbelow.
    + specialize (IH (alter (fun l => l ++ combos) size results)
                     (total + len combos) (visited ++ [(size, group)])
                     Hwhole1).
      assert (Hbelow1 : below_ceiling cap ceiling (visited ++ [(size, group)]))
        by (apply below_ceiling_snoc; [done|lia]).
      specialize (IH (proj2 (lookup_alter_is_Some _ _ _ _) Hkey)
                     Htotal1 Hbelow1).
      destruct (for_groups cap (Some ceiling) size rest
                  (alter (fun l => l ++ combos) size results)
                  (total + len combos)) as [[results' total']|results'].
      * cbn zeta in IH. rewrite <- app_assoc in IH. exact IH.
      * destruct IH as (n & Hn & IH). exists (S n).
        split; [cbn [length]; lia|].
        cbn zeta in *. rewrite <- app_assoc in IH. exact IH.
Qed.

(** The outer loop: some initial part of the remaining schedule is visited,
    whole; it ends at the first visit at which the total reaches the ceiling,
    or with the schedule. *)
Lemma for_sizes_spec sizes results total visited :
  NoDup sizes →
  (∀ size, size ∈ sizes → size ∉ map fst visited) →
  whole_products cap results visited →
  total = produced cap visited →
  below_ceiling cap ceiling visited →
  let remaining :=
    flat_map (fun size => map (pair size) (generate_dimension_groups size))
             sizes in
  ∃ n : nat,
    (n ≤ length remaining)%nat ∧
    let visited' := visited ++ take n remaining in
    whole_products cap (for_sizes cap (Some ceiling) sizes results total)
                   visited'
    ∧ (∀ m : nat, (m < length visited')%nat →
                  produced cap (take m visited') < ceiling)
    ∧ (n = length remaining ∨ ceiling ≤ produced cap visited').
Proof.
  revert results total visited.
  induction sizes as [|size sizes IH]; intros results total visited
    Hnodup Hfresh Hwhole Htotal Hbelow; cbn zeta.
  - exists 0%nat. cbn [flat_map for_sizes length take].
    split; [lia|]. rewrite app_nil_r. split; [done|]. split; [|by left].
    intros m _. apply Hbelow.
  - apply NoDup_cons in Hnodup as [Hsize Hnodup].
    cbn [flat_map for_sizes].
    set (groups := generate_dimension_groups size).
    set (rest := flat_map
                   (fun size => map (pair size) (generate_dimension_groups size))
                   sizes).
    assert (Hwhole0 : whole_products cap (<[size := []]> results) visited).
    { apply whole_products_insert; [|done]. apply Hfresh, list_elem_of_here. }
    pose proof (for_groups_spec size groups (<[size := []]> results) total
                  visited Hwhole0) as Hgroups.
    specialize (Hgroups (proj2 (lookup_insert_is_Some _ _ _ _)
                               (or_introl eq_refl)) Htotal Hbelow).
    destruct (for_groups cap (Some ceiling) size groups
                (<[size := []]> results) total)
      as [[results' total']|results'].
    + destruct Hgroups as (Hwhole' & Htotal' & Hbelow').
      destruct (IH results' total' (visited ++ map (pair size) groups))
        as (n & Hn & Hwhole'' & Hprefix & Hstop); [done| |done..|].
      { intros k Hk. rewrite map_app, map_map. cbn [fst].
        intros [Hin|Hin]%elem_of_app.
        - by apply (Hfresh k); [apply list_elem_of_further|].
        - apply list_elem_of_In, in_map_iff in Hin as (g & <- & _).
          by apply Hsize. }
      fold rest in Hn, Hwhole'', Hprefix, Hstop. cbn zeta in *.
      exists (length (map (pair size) groups) + n)%nat.
      rewrite length_app, take_app_add, app_assoc.
      split; [lia|]. split; [done|]. split; [done|].
      destruct Hstop as [->|Hstop]; [by left|by right].
    + destruct Hgroups as (n & Hn & Hwhole' & Hreached & Hprefix).
      exists n. rewrite length_app, length_map.
      rewrite take_app_le by (rewrite length_map; lia).
      split; [lia|]. split; [done|]. split; [done|by right].
Qed.

End ceiling_loops.

Section ceiling_theorems.
Import Py dimensions combination_generator visits.

(** C4: under a positive [max_total_combinations], [generate_all_combinations]
    visits an initial part of its schedule of groups and appends the whole
    cross product of each visited group; it visits a further group exactly as
    long as the running total is below the ceiling, so it ends with the first
    group at which the total reaches or exceeds the ceiling (that group's
    output included in full) or with the schedule. *)
Theorem generate_all_combinations_ceiling
    (self : CombinationGenerator) (cap : option Z) (max_total : Z) :
  0 < max_total →
  let results := generate_all_combinations cap (Some max_total) self in
  ∃ n : nat,
    (n ≤ length (schedule self))%nat ∧
    let visited := take n (schedule self) in
    (∀ size l, results !! size = Some l → l = collected cap visited size)
    ∧ (∀ size, size ∈ map fst visited → is_Some (results !! size))
    ∧ (∀ m : nat, (m < n)%nat →
                  produced cap (take m (schedule self)) < max_total)
    ∧ (n = length (schedule self) ∨ max_total ≤ produced cap visited).
Proof.
  intros Hpos. cbn zeta. unfold generate_all_combinations.
  destruct (for_sizes_spec cap max_total Hpos
              (range (min_dimensions self) (max_dimensions self + 1)) ∅ 0 [])
    as (n & Hn & [Hlists Hkeys] & Hprefix & Hstop).
  - apply NoDup_seqZ.
  - intros size _. apply not_elem_of_nil.
  - split; [intros size l; by rewrite lookup_empty|].
    intros size []%elem_of_nil.
  - reflexivity.
  - by apply below_ceiling_nil.
  - fold (schedule self) in *. cbn [app] in *.
    exists n. split; [done|]. split; [done|]. split; [done|]. split; [|done].
    intros m Hm. specialize (Hprefix m).
    rewrite length_take, take_take in Hprefix.
    replace (m `min` n)%nat with m in Hprefix by lia.
    apply Hprefix. lia.
Qed.

(** Pairs only, one variant per dimension, a ceiling of 3: each pair gives
    one combination. *)
Lemma generate_all_combinations_ceiling_witness :
  0 < 3 ∧
  let self := __init__ 2 (Some 2) in
  let results := generate_all_combinations (Some 1) (Some 3) self in
  ∃ n : nat,
    (n ≤ length (schedule self))%nat ∧
    let visited := take n (schedule self) in
    (∀ size l, results !! size = Some l → l = collected (Some 1) visited size)
    ∧ (∀ size, size ∈ map fst visited → is_Some (results !! size))
    ∧ (∀ m : nat, (m < n)%nat →
                  produced (Some 1) (take m (schedule self)) < 3)
    ∧ (n = length (schedule self) ∨ 3 ≤ produced (Some 1) visited).
Proof.
  split; [lia|].
  apply (generate_all_combinations_ceiling (__init__ 2 (Some 2)) (Some 1) 3).
  lia.
Defined.

(** The group that crosses the ceiling is kept whole: with two variants per
    dimension a pair gives 4 combinations, and a ceiling of 6 is crossed by
    the second pair, which leaves 8. *)
Example generate_all_combinations_crossing :
  let results :=
    generate_all_combinations (Some 2) (Some 6) (__init__ 2 (Some 2)) in
  len <$> results = {[ 2 := 8 ]}.
Proof. vm_compute. reflexivity. Qed.

Example generate_all_combinations_no_ceiling :
  let results :=
    generate_all_combinations (Some 1) None (__init__ 2 (Some 3)) in
  len <$> results = {[ 2 := 45; 3 := 120 ]}.
Proof. vm_compute. reflexivity. Qed.

Lemma for_groups_ceiling_zero (cap : option Z) size groups
    (results : gmap Z (list DimensionCombination)) total :
  for_groups cap (Some 0) size groups results total
  = for_groups cap None size groups results total.
Proof.
  revert results total. induction groups as [|group rest IH]; [done|].
  intros results total. cbn. apply IH.
Qed.

Lemma for_sizes_ceiling_zero (cap : option Z) sizes
    (results : gmap Z (list DimensionCombination)) total :
  for_sizes cap (Some 0) sizes results total
  = for_sizes cap None sizes results total.
Proof.
  revert results total. induction sizes as [|size sizes IH]; [done|].
  intros results total. cbn [for_sizes]. rewrite for_groups_ceiling_zero.
  destruct (for_groups cap None size (generate_dimension_groups size)
              (<[size := []]> results) total) as [[results' total']|results'];
    [apply IH|done].
Qed.

(** C10: a [max_per_dimension] of 0 gives what no cap gives, the cross
    product of the full variant lists, and a [max_total_combinations] of 0
    gives what no ceiling gives. *)
Theorem zero_is_no_limit
    (self : CombinationGenerator) (group : list EnumClass) (cap : option Z) :
  generate_combinations_for_group group (Some 0)
  = generate_combinations_for_group group None
  ∧ len (generate_combinations_for_group group (Some 0))
    = foldr Z.mul 1 (map (fun d => len (members d)) group)
  ∧ generate_all_combinations cap (Some 0) self
    = generate_all_combinations cap None self.
Proof.
  split; [reflexivity|]. split.
  - by rewrite len_generate_combinations_for_group.
  - apply for_sizes_ceiling_zero.
Qed.

(** With a ceiling of 0 all 45 pairs are visited, not none. *)
Example generate_all_combinations_ceiling_zero :
  let results :=
    generate_all_combinations (Some 1) (Some 0) (__init__ 2 (Some 2)) in
  len <$> results = {[ 2 := 45 ]}.
Proof. vm_compute. reflexivity. Qed.

End ceiling_theorems.

(* ===================================================================== *)
(** * Properties of the test executor *)
(* ===================================================================== *)

(** Reads the clocks that are left in the goal. *)
Ltac read_clocks :=
  repeat match goal with
         | |- context [test_executor.time_time ?w] =>
             destruct (test_executor.time_time w) as [? ?]
         | |- context [test_executor.datetime_now ?w] =>
             destruct (test_executor.datetime_now w) as [? ?]
         end.

Section executor_facts.
Import Py dimensions combination_generator test_executor.
Context `{ThreadPoolExecutor}.
Implicit Types (self : TestExecutor) (suite : TestSuite) (w : World).

(** [execute_test] step by step: clock, predicate, handlers, clock,
    timestamp. *)
Lemma execute_test_unfold self combo timeout w :
  execute_test self combo timeout w
  = let '(start_time, w1) := time_time w in
    let '(o, w2) := predicate self combo w1 in
    match verdict timeout o w2 with
    | (Returns handled, w3) =>
        let '(now, w4) := time_time w3 in
        let '(timestamp, w5) := datetime_now w4 in
        (Returns (mkTestResult _ combo handled.1 (now - start_time)%float
                    handled.2 [] timestamp), w5)
    | (Raises e, w3) => (Raises e, w3)
    end.
Proof.
  unfold execute_test, predicate, verdict, mbind, call_bind, bind, lift,
    attempt, raise, mret, call_ret, ret.
  destruct (time_time w) as [start_time w1].
  destruct (test_function self combo w1) as [[v|e] w2];
    [destruct (truthy v w2) as [[b|e] w3]|]; cbv beta iota zeta;
    try (destruct (is_TimeoutError e);
         [|destruct (is_Exception e);
           [destruct (str e _) as [[message|e'] w4]|]]);
    cbv beta iota zeta; try done; read_clocks; done.
Qed.

(** What [execute_test] does, by what the predicate did in the world after
    the first clock read. *)
Lemma execute_test_cases self combo timeout w :
  match predicate self combo (time_time w).2 with
  | (Returns b, _) =>
      reports self combo timeout w (if b then PASSED else FAILED) None
  | (Raises e, w2) =>
      if is_TimeoutError e
      then reports self combo timeout w ERROR
             (Some ("Test timed out after "
                    +:+ format_timeout timeout +:+ "s"))
      else if is_Exception e
      then match str e w2 with
           | (Returns message, _) =>
               reports self combo timeout w ERROR (Some message)
           | (Raises e', w3) =>
               execute_test self combo timeout w = (Raises e', w3)
           end
      else execute_test self combo timeout w = (Raises e, w2)
  end.
Proof.
  unfold reports. rewrite execute_test_unfold.
  destruct (time_time w) as [start_time w1]. cbn [snd].
  destruct (predicate self combo w1) as [[b|e] w2]; cbn [verdict].
  - unfold mret, call_ret, ret.
    destruct (time_time w2) as [now w4].
    destruct (datetime_now w4) as [timestamp w5]. by eexists _, _.
  - destruct (is_TimeoutError e).
    { unfold mret, call_ret, ret.
      destruct (time_time w2) as [now w4].
      destruct (datetime_now w4) as [timestamp w5]. by eexists _, _. }
    destruct (is_Exception e); [|done].
    unfold mbind, call_bind, bind, mret, call_ret, ret.
    destruct (str e w2) as [[message|e'] w3]; [|done].
    destruct (time_time w3) as [now w4].
    destruct (datetime_now w4) as [timestamp w5]. by eexists _, _.
Qed.

(** A result that [execute_test] returned: it is for the combination, its
    metadata is empty, its status is one of the three final ones, and it has
    an error message exactly when the status is ERROR. *)
Lemma execute_test_returned self combo timeout w result w' :
  execute_test self combo timeout w = (Returns result, w') →
  combination result = combo
  ∧ metadata result = []
  ∧ (status result = PASSED ∨ status result = FAILED
     ∨ status result = ERROR)
  ∧ (is_Some (error_message result) ↔ status result = ERROR).
Proof.
  rewrite execute_test_unfold.
  destruct (time_time w) as [start_time w1].
  destruct (predicate self combo w1) as [o w2].
  assert (Hverdict : match verdict timeout o w2 with
                     | (Returns handled, _) =>
                         (handled.1 = PASSED ∨ handled.1 = FAILED
                          ∨ handled.1 = ERROR)
                         ∧ (is_Some handled.2 ↔ handled.1 = ERROR)
                     | (Raises _, _) => True
                     end).
  { destruct o as [b|e]; cbn [verdict].
    - unfold mret, call_ret, ret. cbn [fst snd].
      destruct b; (split; [auto|]); (split; [by intros [? ?]|done]).
    - destruct (is_TimeoutError e).
      { unfold mret, call_ret, ret. cbn [fst snd].
        split; [auto|]. split; [done|by eexists]. }
      destruct (is_Exception e); [|done].
      unfold mbind, call_bind, bind, mret, call_ret, ret.
      destruct (str e w2) as [[message|e'] w3]; [|done]. cbn [fst snd].
      split; [auto|]. split; [done|by eexists]. }
  destruct (verdict timeout o w2) as [[handled|e] w3]; [|done].
  destruct (time_time w3) as [now w4].
  destruct (datetime_now w4) as [timestamp w5].
  intros [= <- <-]. by cbn [combination metadata status error_message].
Qed.

(** [execute_test] returns exactly when the invocation is contained. *)
Lemma execute_test_returns self combo timeout w :
  contained self combo (time_time w).2
  ↔ ∃ result w', execute_test self combo timeout w = (Returns result, w').
Proof.
  pose proof (execute_test_cases self combo timeout w) as Hcases.
  unfold contained, caught, reports in *.
  destruct (predicate self combo (time_time w).2) as [[b|e] w2].
  { split; [intros _|done].
    destruct Hcases as (result & w' & Hexec & _). by eexists _, _. }
  destruct (is_TimeoutError e).
  { split; [intros _|by left].
    destruct Hcases as (result & w' & Hexec & _). by eexists _, _. }
  destruct (is_Exception e).
  - destruct (str e w2) as [[message|e'] w3].
    + split; [intros _|intros _; right; split; [done|by eexists _, _]].
      destruct Hcases as (result & w' & Hexec & _). by eexists _, _.
    + rewrite Hcases. split.
      * by intros [?|[_ (message & w' & ?)]].
      * by intros (result & w' & ?).
  - rewrite Hcases. split.
    + by intros [?|[? _]].
    + by intros (result & w' & ?).
Qed.

(** With a predicate whose invocations are all contained, the loop runs the
    combinations in order and appends their results. *)
Lemma for_combinations_runs self combos suite w :
  (∀ combo w, contained self combo w) →
  ∃ rs w',
    for_combinations self combos suite w
    = (Returns (mkTestSuite _ (name suite) (results suite ++ rs)
                            (start_time suite) (end_time suite)), w')
    ∧ runs self w combos rs w'.
Proof.
  intros Hcontained. revert suite w.
  induction combos as [|combo rest IH]; intros suite w.
  - exists [], w. rewrite app_nil_r. split; [by destruct suite|constructor].
  - destruct (proj1 (execute_test_returns self combo None w))
      as (result & w1 & Hexec); [done|].
    destruct (IH (add_result suite result) w1) as (rs & w2 & Hloop & Hruns).
    exists (result :: rs), w2. split; [|by econstructor].
    cbn [for_combinations]. unfold mbind, call_bind, bind.
    rewrite Hexec, Hloop. cbn [add_result name results start_time end_time].
    by rewrite <- app_assoc.
Qed.

(** The sequential batch: a new suite, the loop, the completion time. *)
Lemma execute_batch_runs self combos suite_name max_workers w :
  (∀ combo w, contained self combo w) →
  ∃ rs w1 w2,
    execute_batch self combos suite_name false max_workers w
    = (Returns (mkTestSuite _ suite_name rs (datetime_now w).1
                            (Some (datetime_now w1).1)), w2)
    ∧ runs self (datetime_now w).2 combos rs w1.
Proof.
  intros Hcontained.
  unfold execute_batch, new_TestSuite, mark_complete, mbind, call_bind, bind,
    lift, mret, call_ret, ret.
  destruct (datetime_now w) as [start w0]. cbn [fst snd].
  destruct (for_combinations_runs self combos
              (mkTestSuite _ suite_name [] start None) w0 Hcontained)
    as (rs & w1 & -> & Hruns).
  cbn [name results start_time end_time app].
  destruct (datetime_now w1) as [stop w2] eqn:Hstop.
  exists rs, w1, w2. by rewrite Hstop.
Qed.

Lemma runs_length self w combos rs w' :
  runs self w combos rs w' → length rs = length combos.
Proof. induction 1; cbn; congruence. Qed.

Lemma runs_combination self w combos rs w' :
  runs self w combos rs w' → map combination rs = combos.
Proof.
  induction 1 as [|w combo result w1 rest rs w2 Hexec _ IH]; [done|].
  destruct (execute_test_returned _ _ _ _ _ _ Hexec) as (Hcombo & _).
  cbn [map]. by rewrite Hcombo, IH.
Qed.

(** What holds of every single result holds throughout a run. *)
Lemma runs_Forall (P : TestResult → Prop) self w combos rs w' :
  (∀ combo w result w1,
     execute_test self combo None w = (Returns result, w1) → P result) →
  runs self w combos rs w' → Forall P rs.
Proof.
  intros HP. induction 1; constructor; eauto.
Qed.

(** The [i]-th result of a run is what [execute_test] returned for the
    [i]-th combination. *)
Lemma runs_lookup self w combos rs w' (i : nat) combo :
  runs self w combos rs w' →
  combos !! i = Some combo →
  ∃ result wi wi',
    rs !! i = Some result
    ∧ execute_test self combo None wi = (Returns result, wi').
Proof.
  intros Hruns. revert i.
  induction Hruns as [|w c result w1 rest rs w2 Hexec _ IH]; intros i;
    [done|].
  destruct i as [|i]; cbn.
  - intros [= ->]. by exists result, w, w1.
  - apply IH.
Qed.

(** ** The thread pool *)

(** Looking up every position of a list in turn gives the list. *)
Lemma lookup_positions {A} (k l : list A) :
  map (fun i => (k ++ l) !! i) (seq (length k) (length l)) = map Some l.
Proof.
  revert k. induction l as [|x l IH]; intros k; [done|].
  cbn [length seq map]. f_equal; [by rewrite list_lookup_middle|].
  specialize (IH (k ++ [x])). rewrite length_app, <- app_assoc in IH.
  cbn [length app] in IH. by rewrite Nat.add_1_r in IH.
Qed.

Lemma Forall_exists_Forall2 {A B} (R : A → B → Prop) (l : list A) :
  Forall (fun x => ∃ y, R x y) l → ∃ k, Forall2 R l k.
Proof.
  induction 1 as [|x l [y Hy] _ [k Hk]]; [by exists []|].
  exists (y :: k). by constructor.
Qed.

(** The loop over the futures, when every job returned. *)
Lemma for_futures_returns (completed : list (nat * outcome TestResult))
    (rs : list TestResult) suite w :
  map snd completed = map Returns rs →
  for_futures completed suite w
  = (Returns (mkTestSuite _ (name suite) (results suite ++ rs)
                          (start_time suite) (end_time suite)), w).
Proof.
  revert rs suite. induction completed as [|[i o] completed IH];
    intros [|r rs] suite; try done.
  - intros _. cbn [for_futures]. rewrite app_nil_r. by destruct suite.
  - intros [= -> Hrest]. cbn [for_futures snd].
    unfold mbind, call_bind, bind. rewrite (IH rs _ Hrest).
    cbn [add_result name results start_time end_time].
    by rewrite <- app_assoc.
Qed.

(** The batch on a pool that completes every job, for a predicate whose
    invocations are all contained: one result for each combination, in the
    order of completion. *)
Lemma execute_batch_pool self combos suite_name max_workers w :
  (∀ combo w, contained self combo w) →
  0 < max_workers →
  completes_every_job →
  ∃ rs w1 w2,
    execute_batch self combos suite_name true max_workers w
    = (Returns (mkTestSuite _ suite_name rs (datetime_now w).1
                            (Some (datetime_now w1).1)), w2)
    ∧ map combination rs ≡ₚ combos
    ∧ Forall (fun r => ∃ combo wi wi',
                execute_test self combo None wi = (Returns r, wi')) rs.
Proof.
  intros Hcontained Hworkers Hpool.
  unfold execute_batch, new_TestSuite, mark_complete, mbind, call_bind, bind,
    lift, mret, call_ret, ret.
  destruct (datetime_now w) as [start w0]. cbn [fst snd].
  destruct (Z.leb_spec max_workers 0) as [?|_]; [lia|].
  destruct (Hpool _ max_workers
              (map (fun combo => execute_test self combo None) combos) w0
              Hworkers) as [Hperm Hjobs].
  destruct (as_completed max_workers
              (map (fun combo => execute_test self combo None) combos) w0)
    as [completed w1]. cbn [fst] in Hperm, Hjobs.
  rewrite length_map in Hperm.
  assert (Hall : Forall (fun future =>
            ∃ r, future.2 = Returns r
                 ∧ combos !! future.1 = Some (combination r)
                 ∧ ∃ combo wi wi',
                     execute_test self combo None wi = (Returns r, wi'))
            completed).
  { apply Forall_forall. intros [i o] Hin.
    destruct (Hjobs i o Hin) as (job & wi & wi' & Hjob & Hrun).
    rewrite list_lookup_fmap in Hjob.
    destruct (combos !! i) as [combo|] eqn:Hcombo; [|done].
    injection Hjob as <-.
    destruct (proj1 (execute_test_returns self combo None wi))
      as (r & wi'' & Hexec); [done|].
    rewrite Hexec in Hrun. injection Hrun as <- <-.
    destruct (execute_test_returned _ _ _ _ _ _ Hexec) as (Hr & _).
    exists r. cbn [fst snd]. rewrite Hr. split; [done|]. split; [done|].
    by exists combo, wi, wi''. }
  apply Forall_exists_Forall2 in Hall as [rs Hrs].
  assert (Hresults : map snd completed = map Returns rs).
  { clear -Hrs. induction Hrs as [|? ? ? ? [Hr _] _ IH]; [done|].
    cbn [map]. by rewrite Hr, IH. }
  assert (Hlookups : map (fun i => combos !! i) (map fst completed)
                     = map Some (map combination rs)).
  { clear -Hrs. induction Hrs as [|? ? ? ? (_ & Hr & _) _ IH]; [done|].
    cbn [map]. by rewrite Hr, IH. }
  assert (Hexecs : Forall (fun r => ∃ combo wi wi',
                     execute_test self combo None wi = (Returns r, wi')) rs).
  { clear -Hrs. induction Hrs as [|? ? ? ? (_ & _ & ?) _ IH]; by constructor. }
  rewrite (for_futures_returns completed rs _ w1 Hresults).
  cbn [name results start_time end_time app].
  destruct (datetime_now w1) as [stop w2] eqn:Hstop.
  exists rs, w1, w2. rewrite Hstop. split; [done|]. split; [|done].
  assert (Hsome : map Some (map combination rs) ≡ₚ map Some combos).
  { rewrite <- Hlookups, <- (lookup_positions [] combos).
    by apply Permutation_map. }
  apply Permutation_map_inv in Hsome as (l & Hl & Hcombos).
  apply (inj (fmap Some)) in Hl. by rewrite Hcombos, Hl.
Qed.

(** Both branches of the batch, for a predicate whose invocations are all
    contained. *)
Lemma execute_batch_results self combos suite_name parallel max_workers w :
  (∀ combo w, contained self combo w) →
  (parallel = true → 0 < max_workers ∧ completes_every_job) →
  ∃ suite w',
    execute_batch self combos suite_name parallel max_workers w
    = (Returns suite, w')
    ∧ map combination (results suite) ≡ₚ combos
    ∧ (parallel = false → map combination (results suite) = combos)
    ∧ Forall (fun r => ∃ combo wi wi',
                execute_test self combo None wi = (Returns r, wi'))
             (results suite).
Proof.
  intros Hcontained Hpool. destruct parallel.
  - destruct Hpool as [Hworkers Hpool]; [done|].
    destruct (execute_batch_pool self combos suite_name max_workers w
                Hcontained Hworkers Hpool)
      as (rs & w1 & w2 & Hbatch & Hperm & Hexecs).
    eexists _, _. split; [exact Hbatch|]. cbn [results].
    split; [done|]. split; [done|]. done.
  - destruct (execute_batch_runs self combos suite_name max_workers w
                Hcontained) as (rs & w1 & w2 & Hbatch & Hruns).
    eexists _, _. split; [exact Hbatch|]. cbn [results].
    pose proof (runs_combination _ _ _ _ _ Hruns) as Hcombos.
    split; [by rewrite Hcombos|]. split; [done|].
    eapply runs_Forall; [|exact Hruns].
    intros combo w0 result w0' Hexec. by exists combo, w0, w0'.
Qed.

(** A predicate that always raises a caught exception is contained. *)
Lemma raising_contained self combo w e w' :
  test_function self combo w = (Raises e, w') →
  caught e w' →
  contained self combo w.
Proof.
  intros Hcall Hcaught. unfold contained, predicate, mbind, call_bind, bind.
  by rewrite Hcall.
Qed.

(** C2, as amended.  What [execute_test] does is settled by what the
    predicate did (the test function called and the truth value of its
    answer taken, in the world after the first clock read): it returns a
    result for the combination, PASSED for a true answer and FAILED for a
    false one, without a message; ERROR for a raised [TimeoutError], with the
    text ["Test timed out after <timeout>s"]; ERROR for another raised
    [Exception] whose [str] returns, with that message; and it raises what
    [str] raised, or the exception itself when it is not an [Exception].
    So [execute_test] returns exactly for the invocations that are
    contained; and for a predicate whose invocations all are, every
    [execute_batch], sequential or on a pool of at least one worker that
    completes every job, returns a suite with one result per input
    combination, in input order when sequential. *)
Theorem execute_test_contains_errors self :
  (∀ combo timeout w,
     match predicate self combo (time_time w).2 with
     | (Returns b, _) =>
         reports self combo timeout w (if b then PASSED else FAILED) None
     | (Raises e, w2) =>
         if is_TimeoutError e
         then reports self combo timeout w ERROR
                (Some ("Test timed out after "
                       +:+ format_timeout timeout +:+ "s"))
         else if is_Exception e
         then match str e w2 with
              | (Returns message, _) =>
                  reports self combo timeout w ERROR (Some message)
              | (Raises e', w3) =>
                  execute_test self combo timeout w = (Raises e', w3)
              end
         else execute_test self combo timeout w = (Raises e, w2)
     end)
  ∧ (∀ combo timeout w,
       contained self combo (time_time w).2
       ↔ ∃ result w',
           execute_test self combo timeout w = (Returns result, w'))
  ∧ ((∀ combo w, contained self combo w) →
     ∀ combos suite_name parallel max_workers w,
       (parallel = true → 0 < max_workers ∧ completes_every_job) →
       ∃ suite w',
         execute_batch self combos suite_name parallel max_workers w
         = (Returns suite, w')
         ∧ map combination (results suite) ≡ₚ combos
         ∧ (parallel = false → map combination (results suite) = combos)).
Proof.
  split; [apply execute_test_cases|]. split; [apply execute_test_returns|].
  intros Hcontained combos suite_name parallel max_workers w Hpool.
  destruct (execute_batch_results self combos suite_name parallel max_workers
              w Hcontained Hpool) as (suite & w' & Hbatch & Hperm & Hseq & _).
  by exists suite, w'.
Qed.

(** C8: for a predicate whose invocations are all contained, the sequential
    [execute_batch] returns a suite whose results are, in the order of the
    input, what [execute_test] returned for each combination, each executed
    in the world its predecessor left. *)
Theorem execute_batch_sequential_order self combos suite_name max_workers w :
  (∀ combo w, contained self combo w) →
  ∃ suite w1 w2,
    execute_batch self combos suite_name false max_workers w
    = (Returns suite, w2)
    ∧ runs self (datetime_now w).2 combos (results suite) w1
    ∧ length (results suite) = length combos
    ∧ ∀ (i : nat) combo,
        combos !! i = Some combo →
        ∃ result wi wi',
          results suite !! i = Some result
          ∧ combination result = combo
          ∧ execute_test self combo None wi = (Returns result, wi').
Proof.
  intros Hcontained.
  destruct (execute_batch_runs self combos suite_name max_workers w
              Hcontained) as (rs & w1 & w2 & Hbatch & Hruns).
  eexists _, w1, w2. split; [exact Hbatch|]. cbn [results].
  split; [done|]. split; [by eapply runs_length|].
  intros i combo Hi.
  destruct (runs_lookup _ _ _ _ _ i combo Hruns Hi)
    as (result & wi & wi' & Hresult & Hexec).
  exists result, wi, wi'. split; [done|]. split; [|done].
  by destruct (execute_test_returned _ _ _ _ _ _ Hexec) as (Hcombo & _).
Qed.

(** A result of a test function that raised a caught exception with a
    message that is not empty. *)
Lemma execute_test_raising self combo timeout w result w1 e w2 :
  execute_test self combo timeout w = (Returns result, w1) →
  test_function self combo (time_time w).2 = (Raises e, w2) →
  (is_TimeoutError e = true
   ∨ ∃ message w3, str e w2 = (Returns message, w3) ∧ message ≠ "") →
  error_with_message result.
Proof.
  intros Hexec Hcall Hmessage.
  pose proof (execute_test_cases self combo timeout w) as Hcases.
  unfold predicate, mbind, call_bind, bind, reports in Hcases.
  rewrite Hcall in Hcases. unfold error_with_message.
  destruct (is_TimeoutError e).
  { destruct Hcases as (result' & w' & Hexec' & _ & Hstatus & Herror).
    rewrite Hexec in Hexec'. injection Hexec' as <- <-.
    split; [done|]. eexists. split; [exact Herror|]. done. }
  destruct Hmessage as [?|(message & w3 & Hstr & Hne)]; [done|].
  rewrite Hstr in Hcases. destruct (is_Exception e).
  - destruct Hcases as (result' & w' & Hexec' & _ & Hstatus & Herror).
    rewrite Hexec in Hexec'. injection Hexec' as <- <-.
    split; [done|]. by exists message.
  - by rewrite Hexec in Hcases.
Qed.

(** C5, as amended: when every invocation of the test function raises a
    [TimeoutError], or another [Exception] whose [str] returns a message that
    is not empty, every [execute_batch], sequential or on a pool of at least
    one worker that completes every job, returns a suite with one result per
    combination, each with status ERROR and an error message that is not
    empty. *)
Theorem always_raising_batch self combos suite_name parallel max_workers w :
  (∀ combo w,
     ∃ e w', test_function self combo w = (Raises e, w')
             ∧ (is_TimeoutError e = true
                ∨ (is_Exception e = true
                   ∧ ∃ message w'', str e w' = (Returns message, w'')
                                    ∧ message ≠ ""))) →
  (parallel = true → 0 < max_workers ∧ completes_every_job) →
  ∃ suite w',
    execute_batch self combos suite_name parallel max_workers w
    = (Returns suite, w')
    ∧ length (results suite) = length combos
    ∧ Forall error_with_message (results suite).
Proof.
  intros Hraises Hpool.
  assert (Hcontained : ∀ combo w, contained self combo w).
  { intros combo w0. destruct (Hraises combo w0) as (e & w' & Hcall & He).
    eapply raising_contained; [exact Hcall|].
    destruct He as [?|[? (message & w'' & ? & _)]]; [by left|right].
    split; [done|]. by exists message, w''. }
  destruct (execute_batch_results self combos suite_name parallel max_workers
              w Hcontained Hpool) as (suite & w' & Hbatch & Hperm & _ & Hexecs).
  exists suite, w'. split; [done|]. split.
  { rewrite <- (length_map combination). by rewrite Hperm. }
  eapply Forall_impl; [exact Hexecs|].
  intros result (combo & wi & wi' & Hexec).
  destruct (Hraises combo (time_time wi).2) as (e & w'' & Hcall & He).
  eapply execute_test_raising; [exact Hexec|exact Hcall|].
  destruct He as [?|[_ ?]]; [by left|by right].
Qed.

End executor_facts.

Section executor_examples.
Import Py dimensions combination_generator test_executor examples.

(** The pool of the examples completes every job. *)
Lemma in_turn_positions `{Runtime} {A} (i : nat) (jobs : list (call A)) w :
  map fst (in_turn i jobs w).1 = seq i (length jobs).
Proof.
  revert i w. induction jobs as [|job jobs IH]; intros i w; [done|].
  cbn [in_turn length seq]. destruct (job w) as [o w1].
  specialize (IH (S i) w1). destruct (in_turn (S i) jobs w1) as [done w2].
  cbn [fst map] in *. by rewrite IH.
Qed.

Lemma in_turn_jobs `{Runtime} {A} (i : nat) (jobs : list (call A)) w j o :
  (j, o) ∈ (in_turn i jobs w).1 →
  ∃ job wi wi', (i ≤ j)%nat ∧ jobs !! (j - i)%nat = Some job
                ∧ job wi = (o, wi').
Proof.
  revert i w. induction jobs as [|job jobs IH]; intros i w.
  { cbn. by intros ?%elem_of_nil. }
  cbn [in_turn]. destruct (job w) as [o1 w1] eqn:Hjob.
  specialize (IH (S i) w1). destruct (in_turn (S i) jobs w1) as [done w2].
  cbn [fst] in *. intros [[= -> ->]|Hin]%elem_of_cons.
  - exists job, w, w1. rewrite Nat.sub_diag. by split; [lia|].
  - destruct (IH Hin) as (job' & wi & wi' & Hle & Hlookup & Hrun).
    exists job', wi, wi'. split; [lia|]. split; [|done].
    replace (j - i)%nat with (S (j - S i)) by lia. done.
Qed.

Lemma last_first_completes_every_job `{Runtime} :
  completes_every_job (H0 := last_first).
Proof.
  intros A max_workers jobs w _. cbn [as_completed last_first].
  pose proof (in_turn_positions 0 jobs w) as Hpositions.
  pose proof (in_turn_jobs 0 jobs w) as Hjobs.
  destruct (in_turn 0 jobs w) as [done w']. cbn [fst] in *. split.
  - rewrite <- Hpositions. apply Permutation_map, reverse_Permutation.
  - intros i o Hin. rewrite elem_of_reverse in Hin.
    destruct (Hjobs i o Hin) as (job & wi & wi' & _ & Hlookup & Hrun).
    rewrite Nat.sub_0_r in Hlookup. by exists job, wi, wi'.
Qed.

(** [test_error_handling], on the pool: both results are there, the one of
    the combination submitted last first. *)
Lemma execute_test_contains_errors_witness :
  (∀ combo w,
     contained (H := ticking) (mkTestExecutor ticking error_function) combo w)
  ∧ (true = true → 0 < 4 ∧ completes_every_job (H0 := @last_first ticking))
  ∧ ∃ suite w',
      execute_batch (H0 := @last_first ticking)
        (mkTestExecutor ticking error_function) [json_only; xml_only]
        "Combination Tests" true 4 0%nat
      = (Returns suite, w')
      ∧ map combination (results suite) ≡ₚ [json_only; xml_only]
      ∧ (true = false
         → map combination (results suite) = [json_only; xml_only]).
Proof.
  assert (Hcontained : ∀ combo w,
            contained (H := ticking) (mkTestExecutor ticking error_function)
              combo w).
  { intros combo w. right. split; [done|]. by eexists _, _. }
  assert (Hpool : true = true
                  → 0 < 4 ∧ completes_every_job (H0 := @last_first ticking)).
  { intros _. split; [lia|apply last_first_completes_every_job]. }
  split; [exact Hcontained|]. split; [exact Hpool|].
  apply (proj2 (proj2 (execute_test_contains_errors (H0 := @last_first ticking)
                         (mkTestExecutor ticking error_function)))
           Hcontained [json_only; xml_only] "Combination Tests" true 4 0%nat
           Hpool).
Defined.

(** What [execute_test] does not contain.  A test function that raises
    [KeyboardInterrupt] makes [execute_test] raise it, and the batch with it;
    so does one that raises an exception whose [str] raises, with the error
    of [str]; a pool without a worker is refused whatever the test function
    does; and a raised [TimeoutError("boom")] is reported with the timeout
    text, not with its own message. *)
Lemma execute_test_lets_through :
  (execute_test (H := ticking) (mkTestExecutor ticking raise_interrupt)
     json_only None 0%nat
   = (Raises (mkException BaseException (says "")), 1%nat)
   ∧ execute_batch (H0 := @last_first ticking)
       (mkTestExecutor ticking raise_interrupt) [json_only; xml_only]
       "Combination Tests" false 4 0%nat
     = (Raises (mkException BaseException (says "")), 2%nat))
  ∧ execute_test (H := ticking) (mkTestExecutor ticking raise_unprintable)
      json_only None 0%nat
    = (Raises (TypeError "__str__ returned non-string (type int)"), 1%nat)
  ∧ execute_batch (H0 := @last_first ticking)
      (new_TestExecutor (H := ticking) None) [json_only; xml_only]
      "Combination Tests" true 0 0%nat
    = (Raises (ValueError "max_workers must be greater than 0"), 1%nat)
  ∧ match execute_test (H := ticking) (mkTestExecutor ticking raise_timeout)
            json_only None 0%nat with
    | (Returns result, _) =>
        status result = ERROR
        ∧ error_message result = Some "Test timed out after Nones"
        ∧ error_message result ≠ Some "boom"
    | (Raises _, _) => False
    end.
Proof.
  split; [split; vm_compute; reflexivity|].
  split; [vm_compute; reflexivity|]. split; [vm_compute; reflexivity|].
  vm_compute execute_test.
  split; [reflexivity|]. split; [reflexivity|]. discriminate.
Qed.

Lemma execute_batch_sequential_order_witness :
  (∀ combo w,
     contained (H := ticking) (mkTestExecutor ticking always_fail) combo w)
  ∧ ∃ suite w1 w2,
      execute_batch (H0 := @last_first ticking)
        (mkTestExecutor ticking always_fail) [json_only; xml_only]
        "Combination Tests" false 4 0%nat
      = (Returns suite, w2)
      ∧ runs (mkTestExecutor ticking always_fail)
          (datetime_now (Runtime := ticking) 0%nat).2 [json_only; xml_only]
          (results suite) w1
      ∧ length (results suite) = length [json_only; xml_only]
      ∧ ∀ (i : nat) combo,
          [json_only; xml_only] !! i = Some combo →
          ∃ result wi wi',
            results suite !! i = Some result
            ∧ combination result = combo
            ∧ execute_test (mkTestExecutor ticking always_fail) combo None wi
              = (Returns result, wi').
Proof.
  assert (Hcontained : ∀ combo w,
            contained (H := ticking) (mkTestExecutor ticking always_fail)
              combo w) by done.
  split; [exact Hcontained|].
  apply (execute_batch_sequential_order (H0 := @last_first ticking)
           (mkTestExecutor ticking always_fail) [json_only; xml_only]
           "Combination Tests" 4 0%nat Hcontained).
Defined.

(** [test_error_handling]: the message of the raised [ValueError] is kept,
    sequentially and on the pool. *)
Lemma always_raising_batch_witness :
  ((∀ combo w,
      ∃ e w', error_function (H := ticking) combo w = (Raises e, w')
              ∧ (is_TimeoutError e = true
                 ∨ (is_Exception e = true
                    ∧ ∃ message w'', str e w' = (Returns message, w'')
                                     ∧ message ≠ "")))
   ∧ (true = true → 0 < 4 ∧ completes_every_job (H0 := @last_first ticking)))
  ∧ ∃ suite w',
      execute_batch (H0 := @last_first ticking)
        (mkTestExecutor ticking error_function) [json_only; xml_only]
        "Combination Tests" true 4 0%nat
      = (Returns suite, w')
      ∧ length (results suite) = length [json_only; xml_only]
      ∧ Forall error_with_message (results suite).
Proof.
  assert (Hraises : ∀ combo w,
            ∃ e w', error_function (H := ticking) combo w = (Raises e, w')
                    ∧ (is_TimeoutError e = true
                       ∨ (is_Exception e = true
                          ∧ ∃ message w'', str e w' = (Returns message, w'')
                                           ∧ message ≠ ""))).
  { intros combo w. eexists _, _. split; [reflexivity|]. right.
    split; [done|]. by eexists _, _. }
  assert (Hpool : true = true
                  → 0 < 4 ∧ completes_every_job (H0 := @last_first ticking)).
  { intros _. split; [lia|apply last_first_completes_every_job]. }
  split; [by split|].
  apply (always_raising_batch (H0 := @last_first ticking)
           (mkTestExecutor ticking error_function) [json_only; xml_only]
           "Combination Tests" true 4 0%nat Hraises Hpool).
Defined.

(** Test functions that raise on every invocation without leaving a suite of
    results with messages.  After [raise ValueError()] the result has status
    ERROR and the empty string as its message; after
    [raise KeyboardInterrupt()] there is no suite, the batch raises; and a
    pool without a worker is refused, whatever the test function raises. *)
Lemma always_raising_empty_message :
  ((∀ combo w, ∃ e w', raise_bare (H := ticking) combo w = (Raises e, w'))
   ∧ match execute_batch (H0 := @last_first ticking)
             (mkTestExecutor ticking raise_bare) [json_only]
             "Combination Tests" false 4 0%nat with
     | (Returns suite, _) =>
         ∃ result, results suite = [result]
                   ∧ status result = ERROR
                   ∧ error_message result = Some ""
                   ∧ ¬ error_with_message result
     | (Raises _, _) => False
     end)
  ∧ ((∀ combo w,
        ∃ e w', raise_interrupt (H := ticking) combo w = (Raises e, w'))
     ∧ execute_batch (H0 := @last_first ticking)
         (mkTestExecutor ticking raise_interrupt) [json_only]
         "Combination Tests" false 4 0%nat
       = (Raises (mkException BaseException (says "")), 2%nat))
  ∧ execute_batch (H0 := @last_first ticking)
      (mkTestExecutor ticking error_function) [json_only]
      "Combination Tests" true 0 0%nat
    = (Raises (ValueError "max_workers must be greater than 0"), 1%nat).
Proof.
  split; [split; [intros combo w; by eexists _, _|]|].
  { vm_compute execute_batch. eexists. split; [reflexivity|].
    split; [reflexivity|]. split; [reflexivity|].
    intros [_ (message & [= <-] & Hne)]. by apply Hne. }
  split; [split; [intros combo w; by eexists _, _|vm_compute; reflexivity]|].
  vm_compute. reflexivity.
Qed.

(** [test_custom_test_function] and [test_default_test_function]. *)
Example execute_test_always_fail :
  status (H := ticking)
    match execute_test (H := ticking) (mkTestExecutor ticking always_fail)
            json_only None 0%nat with
    | (Returns result, _) => result
    | (Raises _, _) =>
        mkTestResult ticking json_only PENDING 0%float None [] 0%nat
    end
  = FAILED.
Proof. vm_compute. reflexivity. Qed.

Example execute_batch_default :
  match execute_batch (H0 := @last_first ticking)
          (new_TestExecutor (H := ticking) None)
          [json_only; xml_only] "Batch Test" false 4 0%nat with
  | (Returns suite, _) =>
      name suite = "Batch Test"
      ∧ map (status (H := ticking)) (results suite) = [PASSED; PASSED]
      ∧ map (combination (H := ticking)) (results suite)
        = [json_only; xml_only]
  | (Raises _, _) => False
  end.
Proof. vm_compute. repeat split. Qed.

(** On the pool of the examples, the results come in the order of
    completion: the combination submitted last first. *)
Example execute_batch_pool_order :
  match execute_batch (H0 := @last_first ticking)
          (new_TestExecutor (H := ticking) None)
          [json_only; xml_only] "Batch Test" true 4 0%nat with
  | (Returns suite, _) =>
      map (status (H := ticking)) (results suite) = [PASSED; PASSED]
      ∧ map (combination (H := ticking)) (results suite)
        = [xml_only; json_only]
  | (Raises _, _) => False
  end.
Proof. vm_compute. repeat split. Qed.

(** A value whose truth test raises is an error of the test, reported with
    the message of what the truth test raised. *)
Example execute_test_undecided :
  match execute_test (H := ticking) (mkTestExecutor ticking return_undecided)
          json_only None 0%nat with
  | (Returns result, _) =>
      status result = ERROR ∧ error_message result = Some "no truth value"
  | (Raises _, _) => False
  end.
Proof. vm_compute. repeat split. Qed.

End executor_examples.

(* ===================================================================== *)
(** * Properties of the suite summary *)
(* ===================================================================== *)

Section summary_facts.
Import Py dimensions combination_generator test_executor summary_counts.
Context `{Runtime}.
Implicit Types (self : TestSuite).

(** The loop over [TestStatus] leaves, under each status value, the number
    of results with that status. *)
Lemma status_counts_lookup (results : list TestResult) (s : TestStatus) :
  fold_left
    (fun (d : gmap string Z) s' =>
       <[status_value s' := count_status results s']> d)
    TestStatus_members ∅ !! status_value s
  = Some (count_status results s).
Proof.
  cbn [fold_left TestStatus_members].
  destruct s; cbn [status_value]; by simplify_map_eq.
Qed.

Lemma count_status_bounds (results : list TestResult) (s : TestStatus) :
  0 ≤ count_status results s ≤ len results.
Proof.
  unfold count_status, len. pose proof (length_filter (fun r => status r = s) results).
  lia.
Qed.

(** The count [get_summary] makes for PASSED is the number of results that
    passed. *)
Lemma count_status_passed (results : list TestResult) :
  count_status results PASSED = Z.of_nat (passed_count results).
Proof.
  unfold count_status, len.
  induction results as [|result rest IH]; [done|].
  rewrite filter_cons. cbn [passed_count].
  destruct (status result); case_decide; try done; cbn [length]; lia.
Qed.

(** C7: [get_summary] always returns; the pass rate is the number of results
    that passed divided by the number of results, times 100, for a suite with
    results, and the integer 0 for a suite without: the division is never
    attempted with a zero divisor. *)
Theorem get_summary_pass_rate self :
  ∃ summary,
    get_summary self = Returns summary
    ∧ total_tests summary = Z.of_nat (length (results self))
    ∧ status_counts summary !! "passed"
      = Some (Z.of_nat (passed_count (results self)))
    ∧ pass_rate summary
      = match results self with
        | [] => Int 0
        | _ :: _ =>
            Float (float_of_int (Z.of_nat (passed_count (results self)))
                   / float_of_int (Z.of_nat (length (results self)))
                   * float_of_int 100)%float
        end.
Proof.
  unfold get_summary.
  pose proof (status_counts_lookup (results self) PASSED) as Hpassed.
  cbn [status_value] in Hpassed. rewrite count_status_passed in Hpassed.
  destruct (results self) as [|result rest] eqn:Hresults.
  - eexists. split; [reflexivity|]. cbn [total_tests status_counts pass_rate].
    by rewrite Hpassed.
  - unfold getitem. rewrite Hpassed.
    cbn [mbind outcome_bind]. unfold truediv.
    destruct (Z.eqb_spec (len (result :: rest)) 0) as [Hzero|_].
    { unfold len in Hzero. cbn [length] in Hzero. lia. }
    eexists. split; [reflexivity|].
    cbn [total_tests status_counts pass_rate]. by rewrite Hpassed.
Qed.

End summary_facts.

Section summary_examples.
Import Py dimensions combination_generator test_executor examples.

(** [test_suite_summary]: two PASSED and one FAILED result. *)
Example get_summary_two_of_three :
  let result s := mkTestResult ticking json_only s 0%float None [] 0%nat in
  let suite :=
    mkTestSuite ticking "Test Suite"
      [result PASSED; result PASSED; result FAILED] 0%nat (Some 1%nat) in
  match get_summary (H := ticking) suite with
  | Returns summary =>
      total_tests summary = 3
      ∧ status_counts summary !! "passed" = Some 2
      ∧ status_counts summary !! "failed" = Some 1
      ∧ status_counts summary !! "skipped" = Some 0
      ∧ pass_rate summary = Float 0x1.0aaaaaaaaaaaap+6%float
  | Raises _ => False
  end.
Proof. vm_compute. repeat split. Qed.

Example get_summary_empty :
  match get_summary (H := ticking)
          (mkTestSuite ticking "Test Suite" [] 0%nat None) with
  | Returns summary =>
      total_tests summary = 0
      ∧ pass_rate summary = Int 0
      ∧ suite_duration summary = None
  | Raises _ => False
  end.
Proof. vm_compute. repeat split. Qed.

End summary_examples.

(* ===================================================================== *)
(** * Further properties of the built-ins *)
(* ===================================================================== *)

Section combinations_facts.
Import Py counting.

Lemma combinations_0 {A} (l : list A) : combinations l 0 = [[]].
Proof. by destruct l. Qed.

(** Every element of [combinations l r] has [r] elements. *)
Lemma combinations_length {A} (l : list A) (r : nat) (g : list A) :
  g ∈ combinations l r → length g = r.
Proof.
  revert r g. induction l as [|x l IH]; intros [|r] g; cbn [combinations].
  - by intros ->%list_elem_of_singleton.
  - by intros ?%elem_of_nil.
  - by intros ->%list_elem_of_singleton.
  - intros [Hin|Hin]%elem_of_app.
    + apply list_elem_of_fmap in Hin as (g' & -> & Hin).
      cbn. f_equal. by apply IH.
    + by apply IH.
Qed.

(** Every element of [combinations l r] keeps the order of [l]. *)
Lemma combinations_sublist {A} (l : list A) (r : nat) (g : list A) :
  g ∈ combinations l r → sublist g l.
Proof.
  revert r g. induction l as [|x l IH]; intros [|r] g; cbn [combinations].
  - intros ->%list_elem_of_singleton. constructor.
  - by intros ?%elem_of_nil.
  - intros ->%list_elem_of_singleton. apply sublist_nil_l.
  - intros [Hin|Hin]%elem_of_app.
    + apply list_elem_of_fmap in Hin as (g' & -> & Hin).
      apply sublist_skip. by eapply IH.
    + apply sublist_cons. by eapply IH.
Qed.

(** Every subsequence of [l] is among the combinations of its size. *)
Lemma combinations_complete {A} (l g : list A) :
  sublist g l → g ∈ combinations l (length g).
Proof.
  induction 1 as [|x g l _ IH|x g l _ IH].
  - apply list_elem_of_here.
  - cbn [length combinations]. apply elem_of_app. left.
    apply list_elem_of_fmap. by exists g.
  - destruct g as [|y g]; [rewrite combinations_0; apply list_elem_of_here|].
    cbn [length combinations] in *. apply elem_of_app. by right.
Qed.

(** Over a list without repetition no combination comes twice. *)
Lemma combinations_NoDup {A} (l : list A) (r : nat) :
  NoDup l → NoDup (combinations l r).
Proof.
  intros Hl. revert r. induction Hl as [|x l Hx Hl IH]; intros [|r];
    cbn [combinations]; try apply NoDup_singleton; [apply NoDup_nil_2|].
  apply NoDup_app. split; [|split].
  - apply (NoDup_fmap_2 (cons x)), IH.
  - intros g (g' & -> & _)%list_elem_of_fmap Hin.
    apply combinations_sublist in Hin.
    apply Hx. apply (sublist_subseteq _ _ Hin). apply list_elem_of_here.
  - apply IH.
Qed.

(** There are [choose (length l) r] combinations. *)
Lemma combinations_count {A} (l : list A) (r : nat) :
  length (combinations l r) = choose (length l) r.
Proof.
  revert r. induction l as [|x l IH]; intros [|r]; cbn [combinations choose length];
    try reflexivity.
  by rewrite length_app, length_map, !IH.
Qed.

Lemma choose_above (n k : nat) : (n < k)%nat → choose n k = 0%nat.
Proof.
  revert k. induction n as [|n IH]; intros [|k] Hk; cbn [choose]; try lia.
  rewrite !IH by lia. lia.
Qed.

Lemma choose_diag (n : nat) : choose n n = 1%nat.
Proof.
  induction n as [|n IH]; [done|]. cbn [choose].
  rewrite IH, choose_above by lia. lia.
Qed.

(** [choose] is the binomial coefficient: [n! / (k! (n-k)!)]. *)
Lemma choose_fact (n k : nat) :
  (k ≤ n)%nat → (choose n k * fact k * fact (n - k) = fact n)%nat.
Proof.
  revert k. induction n as [|n IH]; intros [|k] Hk; try lia.
  - cbn. lia.
  - cbn [choose]. rewrite Nat.sub_0_r. change (fact 0) with 1%nat. lia.
  - cbn [choose]. destruct (decide (k = n)) as [->|Hne].
    + rewrite choose_diag, choose_above by lia.
      rewrite Nat.sub_diag. cbn [fact]. lia.
    + pose proof (IH k ltac:(lia)) as IH1.
      pose proof (IH (S k) ltac:(lia)) as IH2.
      replace (S n - S k)%nat with (n - k)%nat by lia.
      replace (n - k)%nat with (S (n - S k)) in * by lia.
      change (fact (S n)) with (S n * fact n)%nat.
      change (fact (S k)) with (S k * fact k)%nat in *.
      change (fact (S (n - S k))) with (S (n - S k) * fact (n - S k))%nat in *.
      nia.
Qed.

End combinations_facts.

(* ===================================================================== *)
(** * Further properties of the combination generator *)
(* ===================================================================== *)

Section groups_facts.
Import Py dimensions combination_generator counting decisions.

Lemma NoDup_DIMENSION_CLASSES : NoDup DIMENSION_CLASSES.
Proof. apply (bool_decide_unpack _). by vm_compute. Qed.

Lemma NoDup_dimension_names : NoDup (map __name__ DIMENSION_CLASSES).
Proof. apply (bool_decide_unpack _). by vm_compute. Qed.

Lemma generate_dimension_groups_valid_eq (size : Z) :
  2 ≤ size ≤ len DIMENSION_CLASSES →
  generate_dimension_groups size
  = combinations DIMENSION_CLASSES (Z.to_nat size).
Proof.
  intros Hsize. unfold generate_dimension_groups.
  destruct (Z.ltb_spec size 2), (Z.ltb_spec (len DIMENSION_CLASSES) size);
    cbn [orb]; try lia. reflexivity.
Qed.

Lemma generate_dimension_groups_sublist (size : Z) (group : list EnumClass) :
  group ∈ generate_dimension_groups size →
  sublist group DIMENSION_CLASSES ∧ len group = size.
Proof.
  unfold generate_dimension_groups.
  destruct (Z.ltb_spec size 2), (Z.ltb_spec (len DIMENSION_CLASSES) size);
    cbn [orb]; try by intros ?%elem_of_nil.
  intros Hin. split; [by eapply combinations_sublist|].
  apply combinations_length in Hin. unfold len. lia.
Qed.

(** X1: for a size from 2 to the number of dimensions, the groups
    [generate_dimension_groups] returns are exactly the [size]-element
    subsequences of [DIMENSION_CLASSES]: every subset of that size is there,
    its dimensions in registry order. *)
Theorem generate_dimension_groups_members
    (size : Z) (group : list EnumClass) :
  2 ≤ size ≤ len DIMENSION_CLASSES →
  group ∈ generate_dimension_groups size
  ↔ sublist group DIMENSION_CLASSES ∧ len group = size.
Proof.
  intros Hsize. split; [apply generate_dimension_groups_sublist|].
  intros [Hsub Hlen]. rewrite generate_dimension_groups_valid_eq by done.
  replace (Z.to_nat size) with (length group) by (unfold len in Hlen; lia).
  by apply combinations_complete.
Qed.

Lemma generate_dimension_groups_members_witness :
  2 ≤ 3 ≤ len DIMENSION_CLASSES
  ∧ [StructuralArchitecture; VerificationProtocol; TemporalDynamics]
    ∈ generate_dimension_groups 3.
Proof.
  assert (Hsize : 2 ≤ 3 ≤ len DIMENSION_CLASSES) by (by vm_compute).
  split; [exact Hsize|].
  apply (generate_dimension_groups_members 3
           [StructuralArchitecture; VerificationProtocol; TemporalDynamics]
           Hsize).
  split; [|reflexivity].
  unfold DIMENSION_CLASSES.
  repeat first [ apply sublist_nil_l | apply sublist_skip | apply sublist_cons ].
Defined.

(** X2: whatever the size, no group is returned twice and no group holds a
    dimension twice. *)
Theorem generate_dimension_groups_distinct (size : Z) :
  NoDup (generate_dimension_groups size)
  ∧ ∀ group, group ∈ generate_dimension_groups size → NoDup group.
Proof.
  split.
  - unfold generate_dimension_groups.
    destruct ((size <? 2) || (len DIMENSION_CLASSES <? size));
      [apply NoDup_nil_2|].
    apply combinations_NoDup, NoDup_DIMENSION_CLASSES.
  - intros group [Hsub _]%generate_dimension_groups_sublist.
    eapply sublist_NoDup; [apply NoDup_DIMENSION_CLASSES|exact Hsub].
Qed.

(** X3: for a size from 2 to 10 there are "10 choose size" groups. *)
Theorem generate_dimension_groups_count (size : Z) :
  2 ≤ size ≤ len DIMENSION_CLASSES →
  length (generate_dimension_groups size) = choose 10 (Z.to_nat size).
Proof.
  intros Hsize. rewrite generate_dimension_groups_valid_eq by done.
  by rewrite combinations_count.
Qed.

(** [test_generate_dimension_groups]: 45 pairs and 120 triples. *)
Lemma generate_dimension_groups_count_witness :
  (2 ≤ 2 ≤ len DIMENSION_CLASSES
   ∧ length (generate_dimension_groups 2) = 45%nat)
  ∧ (2 ≤ 3 ≤ len DIMENSION_CLASSES
     ∧ length (generate_dimension_groups 3) = 120%nat).
Proof.
  assert (H2 : 2 ≤ 2 ≤ len DIMENSION_CLASSES) by (by vm_compute).
  assert (H3 : 2 ≤ 3 ≤ len DIMENSION_CLASSES) by (by vm_compute).
  split; (split; [done|]).
  - exact (generate_dimension_groups_count 2 H2).
  - exact (generate_dimension_groups_count 3 H3).
Defined.

(** X4: [generate_dimension_pairs] returns each pair of two dimensions once:
    the pairs are exactly the [[a; b]] with [a] before [b] in
    [DIMENSION_CLASSES]. *)
Theorem generate_dimension_pairs_members (pair : list EnumClass) :
  NoDup generate_dimension_pairs
  ∧ (pair ∈ generate_dimension_pairs
     ↔ ∃ a b before between after,
         pair = [a; b]
         ∧ DIMENSION_CLASSES = before ++ a :: between ++ b :: after).
Proof.
  split; [apply combinations_NoDup, NoDup_DIMENSION_CLASSES|].
  unfold generate_dimension_pairs. split.
  - intros Hin. pose proof (combinations_length _ _ _ Hin) as Hlen.
    apply combinations_sublist in Hin.
    destruct pair as [|a [|b [|c pair]]]; try done.
    apply sublist_cons_l in Hin as (before & rest & -> & Hrest).
    apply sublist_cons_l in Hrest as (between & after & -> & _).
    by exists a, b, before, between, after.
  - intros (a & b & before & between & after & -> & Heq).
    apply (combinations_complete DIMENSION_CLASSES [a; b]).
    rewrite Heq. apply sublist_inserts_l, sublist_skip.
    apply sublist_inserts_l, sublist_skip, sublist_nil_l.
Qed.

End groups_facts.

Section shape_facts.
Import Py dimensions combination_generator decisions offer.

(** The elements of a cross product choose one element of each list. *)
Lemma elem_of_product {A} (ls : list (list A)) (x : list A) :
  x ∈ product ls ↔ Forall2 (fun xi l => xi ∈ l) x ls.
Proof.
  revert x. induction ls as [|l ls IH]; intros x; cbn [product].
  - rewrite list_elem_of_singleton. split; [intros ->; constructor|].
    by intros ->%Forall2_nil_inv_r.
  - rewrite list_elem_of_In, in_flat_map. split.
    + intros (y & Hy%list_elem_of_In & Hx%list_elem_of_In).
      apply list_elem_of_fmap in Hx as (x' & -> & Hx').
      constructor; [done|by apply IH].
    + intros Hall. apply Forall2_cons_inv_r in Hall as (y & x' & Hy & Hx' & ->).
      exists y. split; [by apply list_elem_of_In|].
      apply list_elem_of_In, list_elem_of_fmap. exists x'. by rewrite IH.
Qed.

Lemma dict_set_fresh {V} (d : dict V) (k : string) (v : V) :
  k ∉ map fst d → dict_set d k v = d ++ [(k, v)].
Proof.
  induction d as [|[k' v'] d IH]; cbn [dict_set map fst app]; [done|].
  intros [Hne Hnin]%not_elem_of_cons.
  rewrite decide_False by congruence. by rewrite IH.
Qed.

Lemma fold_dict_set_fresh {V} (items d : dict V) :
  NoDup (map fst (d ++ items)) →
  fold_left (fun d kv => dict_set d kv.1 kv.2) items d = d ++ items.
Proof.
  revert d. induction items as [|[k v] items IH]; intros d Hnd;
    cbn [fold_left fst snd]; [by rewrite app_nil_r|].
  rewrite dict_set_fresh.
  - rewrite IH; rewrite <- app_assoc; done.
  - rewrite map_app in Hnd. apply NoDup_app in Hnd as (_ & Hdisj & _).
    intros Hin. apply (Hdisj k Hin). cbn. apply list_elem_of_here.
Qed.

(** A comprehension over items with distinct keys keeps them as they come. *)
Lemma dict_of_items_distinct {V} (items : dict V) :
  NoDup (map fst items) → dict_of_items items = items.
Proof. intros Hnd. by apply (fold_dict_set_fresh items []). Qed.

(** Choosing one offered value per dimension of the group. *)
Lemma elem_of_group_product (group : list EnumClass) (cap : option Z)
    (combo : list (string * EnumMember)) :
  combo ∈ product
            (map (fun dim_class =>
                    map (fun v => (__name__ dim_class, v))
                        (offered cap dim_class)) group)
  ↔ ∃ vs, Forall2 (fun dim_class v => v ∈ offered cap dim_class) group vs
          ∧ combo = zip (map __name__ group) vs.
Proof.
  rewrite elem_of_product. revert combo.
  induction group as [|dim_class group IH]; intros combo; cbn [map].
  - split.
    + intros ->%Forall2_nil_inv_r. exists []. split; [constructor|done].
    + intros (vs & ->%Forall2_nil_inv_l & ->). constructor.
  - split.
    + intros (item & combo' & Hitem & Hrest & ->)%Forall2_cons_inv_r.
      apply list_elem_of_fmap in Hitem as (v & -> & Hv).
      apply IH in Hrest as (vs & Hvs & ->).
      exists (v :: vs). split; [by constructor|done].
    + intros (vs & Hvs & ->).
      apply Forall2_cons_inv_l in Hvs as (v & vs' & Hv & Hvs' & ->).
      cbn [zip zip_with]. constructor.
      * apply list_elem_of_fmap. by exists v.
      * apply IH. by exists vs'.
Qed.

Lemma generate_combinations_for_group_offered
    (group : list EnumClass) (cap : option Z) :
  generate_combinations_for_group group cap
  = map (fun combo => mkCombination (dict_of_items combo))
        (product
           (map (fun dim_class =>
                   map (fun v => (__name__ dim_class, v))
                       (offered cap dim_class)) group)).
Proof.
  unfold generate_combinations_for_group, offered. reflexivity.
Qed.

Lemma fst_zip_names (names : list string) (vs : list EnumMember) :
  length names = length vs → map fst (zip names vs) = names.
Proof.
  revert vs. induction names as [|n names IH]; intros [|v vs] Hlen;
    cbn in *; try done. f_equal. apply IH. lia.
Qed.

(** The mapping of a generated combination, read off the group. *)
Lemma generate_combinations_for_group_inv
    (group : list EnumClass) (cap : option Z) (c : DimensionCombination) :
  NoDup (map __name__ group) →
  c ∈ generate_combinations_for_group group cap →
  ∃ vs, Forall2 (fun dim_class v => v ∈ offered cap dim_class) group vs
        ∧ dimensions c = zip (map __name__ group) vs.
Proof.
  intros Hnames. rewrite generate_combinations_for_group_offered.
  intros (combo & -> & Hcombo)%list_elem_of_fmap.
  apply elem_of_group_product in Hcombo as (vs & Hvs & ->).
  exists vs. split; [done|]. cbn [dimensions].
  apply dict_of_items_distinct. rewrite fst_zip_names; [done|].
  rewrite length_map. by eapply Forall2_length.
Qed.

(** X5: for a group of dimensions with different names, the combinations of
    [generate_combinations_for_group] are exactly the mappings that give, to
    the class names of the group in the group's order, one of the offered
    values (all, or the first ones under a cap) of each class. *)
Theorem generate_combinations_for_group_members
    (group : list EnumClass) (cap : option Z) (c : DimensionCombination) :
  NoDup (map __name__ group) →
  c ∈ generate_combinations_for_group group cap
  ↔ ∃ vs, Forall2 (fun dim_class v => v ∈ offered cap dim_class) group vs
          ∧ dimensions c = zip (map __name__ group) vs.
Proof.
  intros Hnames. split; [by apply generate_combinations_for_group_inv|].
  rewrite generate_combinations_for_group_offered, list_elem_of_fmap.
  intros (vs & Hvs & Hdims). exists (zip (map __name__ group) vs). split.
  - destruct c as [d]. cbn [dimensions] in Hdims. subst d. f_equal.
    symmetry. apply dict_of_items_distinct. rewrite fst_zip_names; [done|].
    rewrite length_map. by eapply Forall2_length.
  - apply elem_of_group_product. by exists vs.
Qed.

Lemma generate_combinations_for_group_members_witness :
  NoDup (map __name__ [FormatVariation; StructuralArchitecture])
  ∧ examples.json_hierarchical
    ∈ generate_combinations_for_group
        [FormatVariation; StructuralArchitecture] (Some 3).
Proof.
  assert (Hnames : NoDup (map __name__
                            [FormatVariation; StructuralArchitecture])).
  { apply (bool_decide_unpack _). by vm_compute. }
  split; [exact Hnames|].
  apply (generate_combinations_for_group_members
           [FormatVariation; StructuralArchitecture] (Some 3)
           examples.json_hierarchical Hnames).
  exists [examples.JSON; examples.HIERARCHICAL]. split; [|reflexivity].
  repeat constructor; apply (bool_decide_unpack _); by vm_compute.
Defined.

(** Every combination of a group names as many dimensions as the group. *)
Lemma generate_combinations_for_group_keys
    (group : list EnumClass) (cap : option Z) (c : DimensionCombination) :
  NoDup (map __name__ group) →
  c ∈ generate_combinations_for_group group cap →
  map fst (dimensions c) = map __name__ group.
Proof.
  intros Hnames Hc.
  apply generate_combinations_for_group_inv in Hc as (vs & Hvs & ->);
    [|done].
  apply fst_zip_names. rewrite length_map. by eapply Forall2_length.
Qed.

(** X6: a negative cap does not fail: it drops that many values from the end
    of every dimension, so the number of combinations is the product of
    [max(0, variant count + cap)]. *)
Theorem generate_combinations_for_group_negative_cap
    (group : list EnumClass) (cap : Z) :
  cap < 0 →
  len (generate_combinations_for_group group (Some cap))
  = foldr Z.mul 1
      (map (fun d => Z.max 0 (len (members d) + cap)) group).
Proof.
  intros Hcap. rewrite len_generate_combinations_for_group.
  f_equal. apply map_ext. intros d.
  unfold truthy_int. destruct (Z.eqb_spec cap 0); [lia|]. cbn [negb].
  by apply len_slice_to_neg.
Qed.

Lemma generate_combinations_for_group_negative_cap_witness :
  -1 < 0
  ∧ len (generate_combinations_for_group
           [FormatVariation; StructuralArchitecture] (Some (-1))) = 35.
Proof.
  split; [lia|].
  apply (generate_combinations_for_group_negative_cap
           [FormatVariation; StructuralArchitecture] (-1)). lia.
Defined.

End shape_facts.

Section no_ceiling_facts.
Import Py dimensions combination_generator.
Variable cap : option Z.
Implicit Types (results : gmap Z (list DimensionCombination)).

(** Without a ceiling the inner loop visits every group. *)
Lemma for_groups_no_ceiling size groups results total :
  ∃ results' total',
    for_groups cap None size groups results total = inl (results', total')
    ∧ ∀ k, results' !! k
           = if decide (k = size)
             then (fun l =>
                     l ++ flat_map
                            (fun g => generate_combinations_for_group g cap)
                            groups) <$> results !! k
             else results !! k.
Proof.
  revert results total. induction groups as [|group rest IH];
    intros results total.
  - exists results, total. split; [done|]. intros k. cbn [flat_map].
    destruct (decide (k = size)); [|done].
    destruct (results !! k); cbn; by rewrite ?app_nil_r.
  - cbn [for_groups ceiling_reached].
    destruct (IH (alter
                    (fun l => l ++ generate_combinations_for_group group cap)
                    size results)
                 (total + len (generate_combinations_for_group group cap)))
      as (results' & total' & -> & Hlookup).
    exists results', total'. split; [done|]. intros k. rewrite Hlookup.
    destruct (decide (k = size)) as [->|Hne].
    + rewrite lookup_alter_eq. destruct (results !! size); cbn; [|done].
      by rewrite <- app_assoc.
    + by rewrite lookup_alter_ne.
Qed.

(** Without a ceiling every size of the range gets the cross products of all
    its groups. *)
Lemma for_sizes_no_ceiling sizes results total k :
  for_sizes cap None sizes results total !! k
  = if decide (k ∈ sizes)
    then Some (flat_map (fun g => generate_combinations_for_group g cap)
                        (generate_dimension_groups k))
    else results !! k.
Proof.
  revert results total. induction sizes as [|size sizes IH];
    intros results total; cbn [for_sizes].
  - rewrite decide_False; [done|apply not_elem_of_nil].
  - destruct (for_groups_no_ceiling size (generate_dimension_groups size)
                (<[size := []]> results) total)
      as (results' & total' & -> & Hlookup).
    rewrite IH, Hlookup.
    destruct (decide (k ∈ sizes)) as [Hin|Hnin].
    + rewrite decide_True; [done|by apply list_elem_of_further].
    + destruct (decide (k = size)) as [->|Hne].
      * rewrite decide_True by apply list_elem_of_here.
        by rewrite lookup_insert_eq.
      * rewrite decide_False by (intros [?|?]%elem_of_cons; done).
        by rewrite lookup_insert_ne.
Qed.

End no_ceiling_facts.

Section no_ceiling_theorem.
Import Py dimensions combination_generator.

(** X7: without a ceiling ([None] or 0) the result of
    [generate_all_combinations] has exactly the sizes from [min_dimensions] to
    [max_dimensions] as keys, and under each size the cross products of all
    groups of that size, group after group. *)
Theorem generate_all_combinations_complete
    (self : CombinationGenerator) (cap : option Z) (size : Z) :
  generate_all_combinations cap None self !! size
  = (if decide (min_dimensions self ≤ size ≤ max_dimensions self)
     then Some (flat_map (fun g => generate_combinations_for_group g cap)
                         (generate_dimension_groups size))
     else None)
  ∧ generate_all_combinations cap (Some 0) self !! size
    = generate_all_combinations cap None self !! size.
Proof.
  split.
  - unfold generate_all_combinations. rewrite for_sizes_no_ceiling.
    unfold range.
    destruct (decide (size ∈ seqZ (min_dimensions self)
                               (max_dimensions self + 1 - min_dimensions self)))
      as [Hin|Hnin]; rewrite elem_of_seqZ in *.
    + rewrite decide_True; [done|lia].
    + rewrite decide_False; [by rewrite lookup_empty|lia].
  - unfold generate_all_combinations. by rewrite for_sizes_ceiling_zero.
Qed.

End no_ceiling_theorem.

(* ===================================================================== *)
(** * Strings between separators *)
(* ===================================================================== *)

Section separator_facts.
Import Py chars.
Implicit Types (c : Ascii.ascii) (s t : string).

Lemma has_char_app c s t :
  has_char c (s +:+ t) = has_char c s || has_char c t.
Proof.
  induction s as [|c' s IH]; [done|].
  change (String c' s +:+ t) with (String c' (s +:+ t)).
  cbn [has_char]. rewrite IH. by rewrite orb_assoc.
Qed.

(** The first separator splits a string in one way only. *)
Lemma append_separator_inj c s1 s2 t1 t2 :
  has_char c s1 = false → has_char c s2 = false →
  s1 +:+ String c t1 = s2 +:+ String c t2 → s1 = s2 ∧ t1 = t2.
Proof.
  revert s2. induction s1 as [|a s1 IH]; intros [|b s2];
    cbn [String.append has_char]; intros H1 H2 Heq.
  - by injection Heq.
  - injection Heq as <- _. rewrite bool_decide_true in H2 by done. done.
  - injection Heq as -> _. rewrite bool_decide_true in H1 by done. done.
  - injection Heq as -> Heq.
    apply orb_false_elim in H1 as [_ H1]. apply orb_false_elim in H2 as [_ H2].
    destruct (IH s2 H1 H2 Heq) as [-> ->]. done.
Qed.

Lemma append_separator_has_char c s t : has_char c (s +:+ String c t) = true.
Proof.
  rewrite has_char_app. cbn [has_char]. rewrite bool_decide_true by done.
  by rewrite orb_true_r.
Qed.

(** Joining fields with their separator loses nothing. *)
Lemma join_inj c (l1 l2 : list string) :
  Forall (field c) l1 → Forall (field c) l2 →
  join (String c "") l1 = join (String c "") l2 → l1 = l2.
Proof.
  unfold join. intros H1. revert l2.
  induction H1 as [|s1 l1 [Hne1 Hc1] Hl1 IH]; intros l2 H2 Heq.
  - destruct H2 as [|s2 l2 [Hne2 _] _]; [done|].
    cbn [String.concat] in Heq. destruct l2; [congruence|].
    destruct s2; [done|discriminate].
  - destruct H2 as [|s2 l2 [Hne2 Hc2] Hl2].
    { cbn [String.concat] in Heq. destruct l1; [congruence|].
      destruct s1; [done|discriminate]. }
    destruct l1 as [|x1 l1], l2 as [|x2 l2]; cbn [String.concat] in Heq;
      change (String c "" +:+ ?r) with (String c r) in Heq.
    + by subst.
    + subst s1. by rewrite append_separator_has_char in Hc1.
    + subst s2. by rewrite append_separator_has_char in Hc2.
    + apply append_separator_inj in Heq as [-> Heq]; [|done..].
      f_equal. by apply IH.
Qed.

Lemma insort_Permutation (x : string) (l : list string) :
  insort x l ≡ₚ x :: l.
Proof.
  induction l as [|y l IH]; cbn [insort]; [done|].
  destruct (String.leb x y); [done|].
  rewrite IH. apply Permutation_swap.
Qed.

(** Sorting rearranges. *)
Lemma sorted_Permutation (l : list string) : sorted l ≡ₚ l.
Proof.
  unfold sorted. induction l as [|x l IH]; cbn [foldr]; [done|].
  by rewrite insort_Permutation, IH.
Qed.

End separator_facts.

(* ===================================================================== *)
(** * The canonical key identifies a combination *)
(* ===================================================================== *)

Section key_facts.
Import Py dimensions combination_generator chars keys decisions.
Import Stdlib.Strings.Ascii.

(** What the registry is made of: names without [":"] and ["|"], values
    without ["|"], and within a dimension no value twice. *)
Lemma registry_plain :
  Forall (fun dim_class =>
            has_char ":"%char (__name__ dim_class) = false
            ∧ has_char "|"%char (__name__ dim_class) = false
            ∧ Forall (fun v => has_char "|"%char (value v) = false)
                     (members dim_class)
            ∧ NoDup (map value (members dim_class)))
         DIMENSION_CLASSES.
Proof. apply (bool_decide_unpack _). by vm_compute. Qed.

Lemma get_hash_key_parts (c : DimensionCombination) :
  get_hash c = join "|" (sorted (key_parts c)).
Proof. reflexivity. Qed.

(** The parts are the ["<name>:<value>"] of the registered names the mapping
    has. *)
Lemma elem_of_key_parts (c : DimensionCombination) (s : string) :
  s ∈ key_parts c
  ↔ ∃ dim_class v,
      dim_class ∈ DIMENSION_CLASSES
      ∧ dict_get (dimensions c) (__name__ dim_class) = Some v
      ∧ s = __name__ dim_class +:+ ":" +:+ value v.
Proof.
  unfold key_parts.
  assert (Hgen : ∀ (l : list EnumClass) (acc : list string),
    s ∈ fold_left
          (fun parts dim_class =>
             match dict_get (dimensions c) (__name__ dim_class) with
             | Some v => parts ++ [__name__ dim_class +:+ ":" +:+ value v]
             | None => parts
             end) l acc
    ↔ s ∈ acc ∨ ∃ dim_class v,
        dim_class ∈ l
        ∧ dict_get (dimensions c) (__name__ dim_class) = Some v
        ∧ s = __name__ dim_class +:+ ":" +:+ value v).
  { induction l as [|dim_class l IH]; intros acc; cbn [fold_left].
    - split; [by left|]. intros [?|(? & ? & Hnil%elem_of_nil & _)]; done.
    - rewrite IH. split.
      + intros [Hacc|(d & v & Hd & Hget & ->)].
        * destruct (dict_get (dimensions c) (__name__ dim_class)) as [v|]
            eqn:Hget; [|by left].
          apply elem_of_app in Hacc as [?| ->%list_elem_of_singleton];
            [by left|].
          right. exists dim_class, v. split; [apply list_elem_of_here|done].
        * right. exists d, v. split; [by apply list_elem_of_further|done].
      + intros [Hacc|(d & v & [->|Hd]%elem_of_cons & Hget & ->)].
        * left. destruct (dict_get (dimensions c) (__name__ dim_class));
            [apply elem_of_app; by left|done].
        * left. rewrite Hget. apply elem_of_app. right.
          apply list_elem_of_here.
        * right. by exists d, v. }
  rewrite Hgen. split; [|by right].
  intros [Hnil%elem_of_nil|?]; done.
Qed.

(** A name of the registry belongs to one dimension. *)
Lemma registry_name_inj (d1 d2 : EnumClass) :
  d1 ∈ DIMENSION_CLASSES → d2 ∈ DIMENSION_CLASSES →
  __name__ d1 = __name__ d2 → d1 = d2.
Proof.
  pose proof NoDup_dimension_names as Hnames. revert Hnames.
  generalize DIMENSION_CLASSES. intros l.
  induction l as [|d l IH]; cbn [map]; [by intros _ ?%elem_of_nil|].
  intros [Hd Hl]%NoDup_cons [->|H1]%elem_of_cons [->|H2]%elem_of_cons Heq.
  - done.
  - exfalso. apply Hd. rewrite Heq. by apply (list_elem_of_fmap_2 __name__).
  - exfalso. apply Hd. rewrite <- Heq. by apply (list_elem_of_fmap_2 __name__).
  - by apply IH.
Qed.

Lemma registry_facts (dim_class : EnumClass) :
  dim_class ∈ DIMENSION_CLASSES →
  has_char ":"%char (__name__ dim_class) = false
  ∧ has_char "|"%char (__name__ dim_class) = false
  ∧ (∀ v, v ∈ members dim_class → has_char "|"%char (value v) = false)
  ∧ (∀ v1 v2, v1 ∈ members dim_class → v2 ∈ members dim_class →
              value v1 = value v2 → v1 = v2).
Proof.
  intros Hin. pose proof registry_plain as Hplain.
  rewrite Forall_forall in Hplain.
  destruct (Hplain _ Hin) as (Hcolon & Hbar & Hvalues & Hnodup).
  split; [done|]. split; [done|]. split.
  - by apply Forall_forall.
  - clear -Hnodup. induction (members dim_class) as [|v l IH];
      cbn [map] in *; [by intros ? ? ?%elem_of_nil|].
    apply NoDup_cons in Hnodup as [Hv Hl].
    intros v1 v2 [->|H1]%elem_of_cons [->|H2]%elem_of_cons Heq.
    + done.
    + exfalso. apply Hv. rewrite Heq. by apply (list_elem_of_fmap_2 value).
    + exfalso. apply Hv. rewrite <- Heq. by apply (list_elem_of_fmap_2 value).
    + by apply IH.
Qed.

(** The parts of a combination over the registry are fields between ["|"]. *)
Lemma key_parts_fields (c : DimensionCombination) :
  over_registry c → Forall (field "|"%char) (key_parts c).
Proof.
  intros [_ Hdrawn]. apply Forall_forall. intros s Hs.
  apply elem_of_key_parts in Hs as (d & v & Hd & Hget & ->).
  apply dict_get_Some_elem_of, Hdrawn in Hget as (d' & Hd' & Hname & Hv).
  apply registry_name_inj in Hname as <-; [|done..].
  destruct (registry_facts d Hd) as (_ & Hbar & Hvalues & _).
  split.
  - destruct (__name__ d); discriminate.
  - rewrite !has_char_app, Hbar, (Hvalues v Hv). done.
Qed.

(** Equal keys: every registered name has the same value in both. *)
Lemma get_hash_lookup (c1 c2 : DimensionCombination) (d : EnumClass) :
  over_registry c1 → over_registry c2 →
  get_hash c1 = get_hash c2 →
  d ∈ DIMENSION_CLASSES →
  ∀ v, dict_get (dimensions c1) (__name__ d) = Some v →
       dict_get (dimensions c2) (__name__ d) = Some v.
Proof.
  intros Hc1 Hc2 Hhash Hd v Hget.
  rewrite !get_hash_key_parts in Hhash.
  apply (join_inj "|"%char) in Hhash;
    [|rewrite sorted_Permutation; by apply key_parts_fields..].
  assert (Hperm : key_parts c1 ≡ₚ key_parts c2).
  { by rewrite <- (sorted_Permutation (key_parts c1)), Hhash,
      sorted_Permutation. }
  assert (Hpart : __name__ d +:+ ":" +:+ value v ∈ key_parts c2).
  { rewrite <- Hperm. apply elem_of_key_parts. by exists d, v. }
  apply elem_of_key_parts in Hpart as (d' & v' & Hd' & Hget' & Heq).
  destruct (registry_facts d Hd) as (Hcolon & _).
  destruct (registry_facts d' Hd') as (Hcolon' & _).
  change (?n +:+ ":" +:+ ?x) with (n +:+ String ":" x) in Heq.
  apply append_separator_inj in Heq as [Hname Hvalue]; [|done..].
  apply registry_name_inj in Hname as <-; [|done..].
  rewrite Hget'. f_equal.
  destruct Hc1 as [_ Hdrawn1], Hc2 as [_ Hdrawn2].
  apply dict_get_Some_elem_of, Hdrawn1 in Hget as (e1 & He1 & Hn1 & Hv1).
  apply dict_get_Some_elem_of, Hdrawn2 in Hget' as (e2 & He2 & Hn2 & Hv2).
  apply registry_name_inj in Hn1 as <-; [|done..].
  apply registry_name_inj in Hn2 as <-; [|done..].
  destruct (registry_facts d Hd) as (_ & _ & _ & Hinj).
  symmetry. by apply Hinj.
Qed.

End key_facts.

Section key_injective.
Import Py dimensions combination_generator chars keys decisions offer.

(** Two subsequences of a list without repetition that have the same
    elements are equal. *)
Lemma sublist_NoDup_same {A} (l a b : list A) :
  NoDup l → sublist a l → sublist b l → (∀ x, x ∈ a ↔ x ∈ b) → a = b.
Proof.
  intros Hl. revert a b. induction Hl as [|x l Hx Hl IH]; intros a b Ha Hb Hab.
  - apply sublist_nil_r in Ha, Hb. by subst.
  - apply sublist_cons_r in Ha as [Ha|(a' & -> & Ha)];
      apply sublist_cons_r in Hb as [Hb|(b' & -> & Hb)].
    + by apply IH.
    + exfalso. apply Hx. apply (sublist_subseteq _ _ Ha), Hab.
      apply list_elem_of_here.
    + exfalso. apply Hx. apply (sublist_subseteq _ _ Hb), Hab.
      apply list_elem_of_here.
    + f_equal. apply IH; [done..|]. intros y.
      assert (Hxa : x ∉ a') by (intros ?; by apply Hx, (sublist_subseteq _ _ Ha)).
      assert (Hxb : x ∉ b') by (intros ?; by apply Hx, (sublist_subseteq _ _ Hb)).
      specialize (Hab y). rewrite !elem_of_cons in Hab.
      split; intros Hy.
      * destruct (proj1 Hab (or_intror Hy)) as [->|?]; done.
      * destruct (proj2 Hab (or_intror Hy)) as [->|?]; done.
Qed.

Lemma dict_keys_is_Some {V} (d : dict V) (k : string) :
  k ∈ map fst d ↔ is_Some (dict_get d k).
Proof.
  split.
  - intros Hk. destruct (dict_get d k) eqn:Hget; [done|].
    by apply dict_get_None_keys in Hget.
  - intros [v Hget]. by eapply elem_of_keys, dict_get_Some_elem_of.
Qed.

(** Two dictionaries with the same keys in the same order and the same
    lookups are the same. *)
Lemma dict_same_keys_lookups {V} (d1 d2 : dict V) :
  map fst d1 = map fst d2 → dict_wf d1 →
  (∀ k, dict_get d1 k = dict_get d2 k) → d1 = d2.
Proof.
  revert d2. induction d1 as [|[k1 v1] d1 IH]; intros [|[k2 v2] d2];
    cbn [map fst]; try done.
  intros [= <- Hkeys] [Hk1 Hwf]%NoDup_cons Hget.
  pose proof (Hget k1) as Hhead. cbn [dict_get] in Hhead.
  rewrite !decide_True in Hhead by done. injection Hhead as <-.
  f_equal. apply IH; [done..|]. intros k. specialize (Hget k).
  cbn [dict_get] in Hget. destruct (decide (k1 = k)) as [Heq|Hne]; [|done].
  subst k. clear Hget. destruct (dict_get d1 k1) eqn:H1.
  - exfalso. apply Hk1. apply dict_keys_is_Some. cbn [fst]. by rewrite H1.
  - destruct (dict_get d2 k1) eqn:H2; [|done].
    exfalso. apply Hk1.
    assert (Hin : k1 ∈ map fst d2) by (apply dict_keys_is_Some; by rewrite H2).
    by rewrite <- Hkeys in Hin.
Qed.

Lemma over_registry_wf (c : DimensionCombination) :
  over_registry c → dict_wf (dimensions c).
Proof.
  intros [Hsub _]. eapply sublist_NoDup; [apply NoDup_dimension_names|done].
Qed.

(** Equal keys: the same lookups. *)
Lemma get_hash_lookups (c1 c2 : DimensionCombination) :
  over_registry c1 → over_registry c2 →
  get_hash c1 = get_hash c2 →
  ∀ k, dict_get (dimensions c1) k = dict_get (dimensions c2) k.
Proof.
  intros Hc1 Hc2 Hhash.
  assert (Hone : ∀ a b, over_registry a → over_registry b →
            get_hash a = get_hash b →
            ∀ k v, dict_get (dimensions a) k = Some v →
                   dict_get (dimensions b) k = Some v).
  { intros a b Ha Hb Hab k v Hget.
    pose proof Hget as Hitem. apply dict_get_Some_elem_of in Hitem.
    destruct Ha as [Hsub Hdrawn].
    destruct (Hdrawn _ _ Hitem) as (d & Hd & -> & _).
    by apply (get_hash_lookup a b d). }
  intros k. destruct (dict_get (dimensions c1) k) as [v|] eqn:H1.
  - symmetry. by apply (Hone c1 c2).
  - destruct (dict_get (dimensions c2) k) as [v|] eqn:H2; [|done].
    apply (Hone c2 c1) in H2; [congruence|done..].
Qed.

(** Over the registry the lookups fix the mapping, order included. *)
Lemma over_registry_lookups (c1 c2 : DimensionCombination) :
  over_registry c1 → over_registry c2 →
  (∀ k, dict_get (dimensions c1) k = dict_get (dimensions c2) k) →
  c1 = c2.
Proof.
  intros Hc1 Hc2 Hget.
  pose proof (over_registry_wf c1 Hc1) as Hwf.
  destruct c1 as [d1], c2 as [d2]. cbn [dimensions] in *. f_equal.
  apply dict_same_keys_lookups; [|done..].
  apply (sublist_NoDup_same (map __name__ DIMENSION_CLASSES));
    [apply NoDup_dimension_names|apply Hc1|apply Hc2|].
  intros k. by rewrite !dict_keys_is_Some, Hget.
Qed.

(** X8: among combinations over the registry (registered names in registry
    order, each with a member of its dimension) the canonical key decides:
    two of them have the same [get_hash] exactly when they are the same
    combination. *)
Theorem get_hash_inj (c1 c2 : DimensionCombination) :
  over_registry c1 → over_registry c2 →
  get_hash c1 = get_hash c2 ↔ c1 = c2.
Proof.
  intros Hc1 Hc2. split.
  - intros Hhash. apply over_registry_lookups; [done..|].
    by apply get_hash_lookups.
  - by intros ->.
Qed.

Lemma offered_members (cap : option Z) (dim_class : EnumClass) v :
  v ∈ offered cap dim_class → v ∈ members dim_class.
Proof.
  unfold offered, slice_to. destruct cap as [n|]; [|done].
  destruct (truthy_int (Some n)); [|done].
  destruct (n <? 0); apply sublist_subseteq, sublist_take.
Qed.

Lemma zip_lookup_Forall2 {A B} (P : A → B → Prop) (f : A → string)
    (l : list A) (vs : list B) n v :
  Forall2 P l vs → (n, v) ∈ zip (map f l) vs →
  ∃ x, x ∈ l ∧ n = f x ∧ P x v.
Proof.
  induction 1 as [|x y l vs Hxy _ IH]; cbn [map zip zip_with].
  - by intros ?%elem_of_nil.
  - intros [[= -> ->]|Hin]%elem_of_cons.
    + exists x. split; [apply list_elem_of_here|done].
    + destruct (IH Hin) as (x' & Hx' & -> & HP).
      exists x'. split; [by apply list_elem_of_further|done].
Qed.

(** The combinations generated for a group of the registry are over the
    registry. *)
Lemma generate_combinations_for_group_over_registry
    (group : list EnumClass) (cap : option Z) (c : DimensionCombination) :
  sublist group DIMENSION_CLASSES →
  c ∈ generate_combinations_for_group group cap →
  over_registry c.
Proof.
  intros Hsub Hc.
  assert (Hnames : NoDup (map __name__ group)).
  { eapply sublist_NoDup; [apply NoDup_dimension_names|].
    by apply (fmap_sublist __name__). }
  pose proof (generate_combinations_for_group_keys group cap c Hnames Hc)
    as Hkeys.
  apply generate_combinations_for_group_inv in Hc as (vs & Hvs & Hdims);
    [|done].
  split.
  - rewrite Hkeys. by apply (fmap_sublist __name__).
  - intros n v Hin. rewrite Hdims in Hin.
    destruct (zip_lookup_Forall2 _ _ _ _ _ _ Hvs Hin) as (d & Hd & -> & Hv).
    exists d. split; [by apply (sublist_subseteq _ _ Hsub)|].
    split; [done|]. by eapply offered_members.
Qed.

End key_injective.

Section key_examples.
Import Py dimensions combination_generator keys decisions examples.

Lemma json_hierarchical_over_registry : over_registry json_hierarchical.
Proof.
  split.
  - vm_compute. repeat first [ apply sublist_nil_l | apply sublist_skip
                             | apply sublist_cons ].
  - intros n v. vm_compute dimensions.
    rewrite !elem_of_cons, elem_of_nil. intros [[= -> ->]|[[= -> ->]|[]]].
    + exists FormatVariation. repeat split;
        apply (bool_decide_unpack _); by vm_compute.
    + exists StructuralArchitecture. repeat split;
        apply (bool_decide_unpack _); by vm_compute.
Qed.

(** The combination of [test_combination_hash] and the one read back from
    its items. *)
Lemma get_hash_inj_witness :
  (over_registry json_hierarchical
   ∧ over_registry (mkCombination (dimensions json_hierarchical))
   ∧ get_hash json_hierarchical
     = get_hash (mkCombination (dimensions json_hierarchical)))
  ∧ json_hierarchical = mkCombination (dimensions json_hierarchical).
Proof.
  split.
  - split; [apply json_hierarchical_over_registry|].
    split; [apply json_hierarchical_over_registry|reflexivity].
  - apply (get_hash_inj json_hierarchical
             (mkCombination (dimensions json_hierarchical))).
    + apply json_hierarchical_over_registry.
    + apply json_hierarchical_over_registry.
    + reflexivity.
Defined.

End key_examples.

Section distinct_keys.
Import Py dimensions combination_generator chars keys decisions offer.

Lemma NoDup_flat_map {A B} (f : A → list B) (l : list A) :
  NoDup l →
  (∀ x, x ∈ l → NoDup (f x)) →
  (∀ x y b, x ∈ l → y ∈ l → b ∈ f x → b ∈ f y → x = y) →
  NoDup (flat_map f l).
Proof.
  induction 1 as [|x l Hx Hl IH]; intros Hf Hdisj; cbn [flat_map];
    [apply NoDup_nil_2|].
  apply NoDup_app. split; [apply Hf, list_elem_of_here|]. split.
  - intros b Hb Hin. apply list_elem_of_In, in_flat_map in Hin as (y & Hy & Hby).
    apply list_elem_of_In in Hy, Hby. apply Hx.
    rewrite (Hdisj x y b); [done|apply list_elem_of_here|
                            by apply list_elem_of_further|done..].
  - apply IH.
    + intros y Hy. by apply Hf, list_elem_of_further.
    + intros y z b Hy Hz. apply Hdisj; by apply list_elem_of_further.
Qed.

(** The cross product of lists without repetition has none. *)
Lemma NoDup_product {A} (ls : list (list A)) :
  Forall NoDup ls → NoDup (product ls).
Proof.
  induction 1 as [|l ls Hl _ IH]; cbn [product]; [apply NoDup_singleton|].
  apply NoDup_flat_map; [done| |].
  - intros x _. by apply (NoDup_fmap_2 (cons x)).
  - intros x y b _ _ (b1 & -> & _)%list_elem_of_fmap
      (b2 & [= -> _] & _)%list_elem_of_fmap. done.
Qed.

Lemma NoDup_members (dim_class : EnumClass) :
  dim_class ∈ DIMENSION_CLASSES → NoDup (members dim_class).
Proof.
  intros Hin. pose proof registry_plain as Hplain.
  rewrite Forall_forall in Hplain.
  destruct (Hplain _ Hin) as (_ & _ & _ & Hnodup).
  by apply (NoDup_fmap_1 value).
Qed.

Lemma NoDup_offered (cap : option Z) (dim_class : EnumClass) :
  dim_class ∈ DIMENSION_CLASSES → NoDup (offered cap dim_class).
Proof.
  intros Hin. pose proof (NoDup_members dim_class Hin) as Hnodup.
  unfold offered, slice_to. destruct cap as [n|]; [|done].
  destruct (truthy_int (Some n)); [|done].
  destruct (n <? 0); (eapply sublist_NoDup; [exact Hnodup|apply sublist_take]).
Qed.

(** No combination comes twice out of a group of the registry. *)
Lemma NoDup_generate_combinations_for_group
    (group : list EnumClass) (cap : option Z) :
  sublist group DIMENSION_CLASSES →
  NoDup (generate_combinations_for_group group cap).
Proof.
  intros Hsub. rewrite generate_combinations_for_group_offered.
  assert (Hnames : NoDup (map __name__ group)).
  { eapply sublist_NoDup; [apply NoDup_dimension_names|].
    by apply (fmap_sublist __name__). }
  apply NoDup_fmap_2_strong.
  - intros combo1 combo2 H1 H2 Heq.
    apply elem_of_group_product in H1 as (vs1 & Hvs1 & ->).
    apply elem_of_group_product in H2 as (vs2 & Hvs2 & ->).
    injection Heq as Heq.
    rewrite !dict_of_items_distinct in Heq; [done|..];
      (rewrite fst_zip_names; [done|]; rewrite length_map;
       by eapply Forall2_length).
  - apply NoDup_product. apply Forall_fmap, Forall_forall.
    intros d Hd. cbn. apply (NoDup_fmap_2 (pair (__name__ d))).
    by apply NoDup_offered, (sublist_subseteq _ _ Hsub).
Qed.

(** The groups of the registry are told apart by their names. *)
Lemma group_names_inj (g1 g2 : list EnumClass) :
  sublist g1 DIMENSION_CLASSES → sublist g2 DIMENSION_CLASSES →
  map __name__ g1 = map __name__ g2 → g1 = g2.
Proof.
  intros H1%sublist_subseteq H2%sublist_subseteq. revert g2 H2.
  induction g1 as [|d1 g1 IH]; intros [|d2 g2] H2; cbn [map]; try done.
  intros [= Hname Hrest]. f_equal.
  - apply registry_name_inj; [apply H1|apply H2|done]; apply list_elem_of_here.
  - apply IH; [| |done].
    + intros x Hx. by apply H1, list_elem_of_further.
    + intros x Hx. by apply H2, list_elem_of_further.
Qed.

(** The canonical keys of the combinations of distinct groups of the
    registry are pairwise distinct. *)
Lemma NoDup_get_hash_groups (groups : list (list EnumClass)) (cap : option Z) :
  NoDup groups →
  (∀ g, g ∈ groups → sublist g DIMENSION_CLASSES) →
  NoDup (map get_hash
             (flat_map (fun g => generate_combinations_for_group g cap)
                       groups)).
Proof.
  intros Hgroups Hsub.
  assert (Hover : ∀ c,
    c ∈ flat_map (fun g => generate_combinations_for_group g cap) groups →
    over_registry c).
  { intros c Hc. apply list_elem_of_In, in_flat_map in Hc as (g & Hg & Hc).
    apply list_elem_of_In in Hg, Hc.
    by eapply generate_combinations_for_group_over_registry; [apply Hsub|]. }
  apply NoDup_fmap_2_strong.
  - intros c1 c2 H1 H2 Hhash.
    apply over_registry_lookups; [by apply Hover..|].
    apply get_hash_lookups; [by apply Hover..|done].
  - apply NoDup_flat_map; [done| |].
    + intros g Hg. by apply NoDup_generate_combinations_for_group, Hsub.
    + intros g1 g2 c Hg1 Hg2 Hc1 Hc2.
      apply group_names_inj; [by apply Hsub..|].
      rewrite <- (generate_combinations_for_group_keys g1 cap c),
              <- (generate_combinations_for_group_keys g2 cap c); try done.
      * eapply sublist_NoDup; [apply NoDup_dimension_names|].
        by apply (fmap_sublist __name__), Hsub.
      * eapply sublist_NoDup; [apply NoDup_dimension_names|].
        by apply (fmap_sublist __name__), Hsub.
Qed.

End distinct_keys.

Section distinct_keys_all.
Import Py dimensions combination_generator keys decisions loops.
Variable cap : option Z.
Variable max_total : option Z.
Implicit Types (results : gmap Z (list DimensionCombination)).

(** Whatever the ceiling, the inner loop appends the cross products of the
    first groups it was given, an initial part of them. *)
Lemma for_groups_prefix size visited rest results total :
  results !! size
  = Some (flat_map (fun g => generate_combinations_for_group g cap) visited) →
  ∃ n : nat,
    handed_on (for_groups cap max_total size rest results total) !! size
    = Some (flat_map (fun g => generate_combinations_for_group g cap)
                     (visited ++ take n rest))
    ∧ ∀ k, k ≠ size →
           handed_on (for_groups cap max_total size rest results total) !! k
           = results !! k.
Proof.
  revert visited results total.
  induction rest as [|group rest IH]; intros visited results total Hsize.
  - exists 0%nat. cbn. by rewrite app_nil_r.
  - cbn [for_groups].
    set (results1 := alter
           (fun l => l ++ generate_combinations_for_group group cap)
           size results).
    assert (Hsize1 : results1 !! size
              = Some (flat_map
                        (fun g => generate_combinations_for_group g cap)
                        (visited ++ [group]))).
    { unfold results1. rewrite lookup_alter_eq, Hsize, flat_map_app.
      cbn. by rewrite app_nil_r. }
    assert (Hother : ∀ k, k ≠ size → results1 !! k = results !! k).
    { intros k Hk. unfold results1. by rewrite lookup_alter_ne. }
    destruct (ceiling_reached max_total _).
    + exists 1%nat. cbn [handed_on take]. by rewrite take_0.
    + destruct (IH (visited ++ [group]) results1
                  (total + len (generate_combinations_for_group group cap))
                  Hsize1) as (n & Hn & Hk).
      exists (S n). cbn [take]. rewrite <- app_assoc in Hn. split; [done|].
      intros k Hne. rewrite Hk by done. by apply Hother.
Qed.

(** Every list of the result is the cross products of an initial part of the
    groups of its size. *)
Lemma for_sizes_prefix sizes results total :
  (∀ k l, results !! k = Some l →
          ∃ n : nat,
            l = flat_map (fun g => generate_combinations_for_group g cap)
                         (take n (generate_dimension_groups k))) →
  ∀ k l, for_sizes cap max_total sizes results total !! k = Some l →
         ∃ n : nat,
           l = flat_map (fun g => generate_combinations_for_group g cap)
                        (take n (generate_dimension_groups k)).
Proof.
  revert results total. induction sizes as [|size sizes IH];
    intros results total Hresults; cbn [for_sizes]; [done|].
  destruct (for_groups_prefix size [] (generate_dimension_groups size)
              (<[size := []]> results) total) as (n & Hsize & Hother).
  { by rewrite lookup_insert_eq. }
  assert (Hnext : ∀ k l,
    handed_on (for_groups cap max_total size (generate_dimension_groups size)
                 (<[size := []]> results) total) !! k = Some l →
    ∃ n : nat,
      l = flat_map (fun g => generate_combinations_for_group g cap)
                   (take n (generate_dimension_groups k))).
  { intros k l. destruct (decide (k = size)) as [->|Hne].
    - rewrite Hsize. intros [= <-]. by exists n.
    - rewrite Hother, lookup_insert_ne by done. apply Hresults. }
  destruct (for_groups cap max_total size (generate_dimension_groups size)
              (<[size := []]> results) total) as [[results' total']|results'];
    cbn [handed_on] in Hnext; [by apply IH|done].
Qed.

End distinct_keys_all.

Section distinct_keys_theorem.
Import Py dimensions combination_generator keys decisions.

(** X9: whatever the cap and the ceiling, the combinations
    [generate_all_combinations] lists under one size have pairwise distinct
    canonical keys. *)
Theorem generate_all_combinations_distinct_keys
    (self : CombinationGenerator) (cap max_total : option Z) (size : Z) :
  NoDup (map get_hash
             (default [] (generate_all_combinations cap max_total self
                          !! size))).
Proof.
  destruct (generate_all_combinations cap max_total self !! size) as [l|]
    eqn:Hl; [|apply NoDup_nil_2].
  unfold generate_all_combinations in Hl.
  apply for_sizes_prefix in Hl as (n & ->);
    [|intros k l'; by rewrite lookup_empty].
  cbn [default]. apply NoDup_get_hash_groups.
  - eapply sublist_NoDup; [|apply sublist_take].
    unfold generate_dimension_groups.
    destruct ((size <? 2) || (len DIMENSION_CLASSES <? size));
      [apply NoDup_nil_2|].
    apply combinations_NoDup, NoDup_DIMENSION_CLASSES.
  - intros g Hg. apply (sublist_subseteq _ _ (sublist_take _ n)) in Hg.
    by apply generate_dimension_groups_sublist in Hg as [Hsub _].
Qed.

(** [test_combinations_are_distinct]: the 180 keys of the pairs under a cap
    of 2. *)
Example generate_all_combinations_distinct_keys_pairs :
  length (remove_dups
            (map get_hash
               (default []
                  (generate_all_combinations (Some 2) None
                     (__init__ 2 (Some 2)) !! 2))))
  = 180%nat.
Proof. vm_compute. reflexivity. Qed.

End distinct_keys_theorem.

(* ===================================================================== *)
(** * Properties of the sampling *)
(* ===================================================================== *)

Section sampling_facts.
Import Py dimensions combination_generator test_executor sampling decisions
  offer.
Context `{Runtime} `{Random}.

(** Under a cap of 1 a group of the registry has one combination: the first
    value of each of its dimensions. *)
Lemma generate_combinations_for_group_first (group : list EnumClass) :
  sublist group DIMENSION_CLASSES →
  ∃ c, generate_combinations_for_group group (Some 1) = [c]
       ∧ Forall2 (fun d item => item.1 = __name__ d
                                ∧ head (members d) = Some item.2)
                 group (dimensions c).
Proof.
  intros Hsub.
  assert (Hlen : len (generate_combinations_for_group group (Some 1)) = 1).
  { rewrite len_generate_combinations_for_group. cbn [truthy_int Z.eqb negb].
    pose proof (sublist_subseteq _ _ Hsub) as Hin. clear Hsub.
    induction group as [|d group IH]; [done|]. cbn [map foldr].
    rewrite IH by (intros x Hx; by apply Hin, list_elem_of_further).
    assert (Hd : d ∈ DIMENSION_CLASSES) by apply Hin, list_elem_of_here.
    assert (Hnonempty : Forall (fun d => members d ≠ []) DIMENSION_CLASSES).
    { apply (bool_decide_unpack _). by vm_compute. }
    rewrite Forall_forall in Hnonempty. specialize (Hnonempty d Hd).
    destruct (members d) as [|v vs] eqn:Hm; [done|].
    rewrite len_slice_to_nonneg by lia. unfold len. cbn [length]. lia. }
  destruct (generate_combinations_for_group group (Some 1)) as [|c [|c' l]]
    eqn:Hgen; unfold len in Hlen; cbn [length] in Hlen; try lia.
  exists c. split; [done|].
  assert (Hc : c ∈ generate_combinations_for_group group (Some 1))
    by (rewrite Hgen; apply list_elem_of_here).
  apply generate_combinations_for_group_inv in Hc as (vs & Hvs & ->).
  2:{ eapply sublist_NoDup; [apply NoDup_dimension_names|].
      by apply (fmap_sublist __name__). }
  clear -Hvs. induction Hvs as [|d v group vs Hv _ IH]; cbn; constructor;
    [|done].
  split; [done|]. cbn in Hv. unfold slice_to in Hv. cbn in Hv.
  destruct (members d) as [|m ms]; cbn in Hv; [by apply elem_of_nil in Hv|].
  by apply list_elem_of_singleton in Hv as ->.
Qed.

(** The loop over the sampled groups keeps the one combination of each. *)
Lemma for_sampled_groups_all (sampled : list (list EnumClass))
    (all_combos : list DimensionCombination) :
  (∀ g, g ∈ sampled → sublist g DIMENSION_CLASSES) →
  for_sampled_groups sampled all_combos
  = all_combos
    ++ flat_map (fun g => generate_combinations_for_group g (Some 1)) sampled.
Proof.
  revert all_combos. induction sampled as [|g sampled IH];
    intros all_combos Hsub; cbn [for_sampled_groups flat_map].
  - by rewrite app_nil_r.
  - destruct (generate_combinations_for_group_first g) as (c & -> & _).
    { apply Hsub, list_elem_of_here. }
    rewrite IH by (intros g' Hg'; by apply Hsub, list_elem_of_further).
    by rewrite <- app_assoc.
Qed.

Lemma flat_map_first_length (sampled : list (list EnumClass)) :
  (∀ g, g ∈ sampled → sublist g DIMENSION_CLASSES) →
  length (flat_map (fun g => generate_combinations_for_group g (Some 1))
                   sampled)
  = length sampled.
Proof.
  induction sampled as [|g sampled IH]; intros Hsub; [done|].
  cbn [flat_map]. destruct (generate_combinations_for_group_first g)
    as (c & -> & _); [apply Hsub, list_elem_of_here|].
  cbn. f_equal. apply IH. intros g' Hg'. by apply Hsub, list_elem_of_further.
Qed.

Lemma for_sample_sizes_spec (samples_per_size : Z) (sizes : list Z)
    (results : gmap Z (list DimensionCombination)) (g : Rng) :
  sample_without_replacement →
  0 ≤ samples_per_size →
  ∃ results' g',
    for_sample_sizes samples_per_size sizes results g = (Returns results', g')
    ∧ ∀ k, if decide (k ∈ sizes)
           then ∃ l, results' !! k = Some l ∧ sample_of samples_per_size k l
           else results' !! k = results !! k.
Proof.
  intros Hsample Hsamples. revert results g.
  induction sizes as [|size sizes IH]; intros results g;
    cbn [for_sample_sizes].
  - exists results, g. split; [done|]. intros k.
    rewrite decide_False; [done|apply not_elem_of_nil].
  - set (groups := generate_dimension_groups size).
    set (k0 := Z.min samples_per_size (len groups)).
    assert (Hk0 : 0 ≤ k0 ≤ len groups) by (unfold k0, len; lia).
    unfold random_sample.
    destruct (Z.ltb_spec k0 0), (Z.ltb_spec (len groups) k0); try lia.
    cbn [orb].
    destruct (Hsample _ groups (Z.to_nat k0) g) as (chosen & Hperm & Hsub & Hlen);
      [unfold len in Hk0; lia|].
    destruct (choose_sample groups (Z.to_nat k0) g) as [sampled g1].
    cbn [fst] in Hperm.
    assert (Hin : ∀ x, x ∈ sampled → x ∈ groups).
    { intros x Hx. rewrite Hperm in Hx. by apply (sublist_subseteq _ _ Hsub). }
    assert (Hreg : ∀ x, x ∈ sampled → sublist x DIMENSION_CLASSES).
    { intros x Hx. by apply Hin, generate_dimension_groups_sublist in Hx as [? _]. }
    destruct (IH (<[size := for_sampled_groups sampled []]> results) g1)
      as (results' & g' & -> & Hspec).
    exists results', g'. split; [done|]. intros k. specialize (Hspec k).
    destruct (decide (k ∈ sizes)) as [Hk|Hk].
    + rewrite decide_True; [done|by apply list_elem_of_further].
    + destruct (decide (k = size)) as [->|Hne].
      * rewrite decide_True by apply list_elem_of_here.
        rewrite Hspec, lookup_insert_eq. eexists. split; [done|].
        rewrite for_sampled_groups_all by done. cbn [app]. split.
        -- unfold len. rewrite flat_map_first_length by done.
           rewrite Hperm, Hlen. fold groups. unfold k0, len in *. lia.
        -- intros c Hc. apply list_elem_of_In, in_flat_map in Hc
             as (group & Hgroup%list_elem_of_In & Hc%list_elem_of_In).
           exists group. split; [by apply Hin|].
           destruct (generate_combinations_for_group_first group
                       (Hreg _ Hgroup)) as (c' & Hgen & Hfirst).
           rewrite Hgen in Hc. apply list_elem_of_singleton in Hc as ->.
           done.
      * rewrite decide_False by (intros [?|?]%elem_of_cons; done).
        by rewrite Hspec, lookup_insert_ne.
Qed.

End sampling_facts.

Section sampling_theorems.
Import Py dimensions combination_generator test_executor sampling examples
  sampling_examples.

Lemma first_k_without_replacement :
  sample_without_replacement (H := first_k).
Proof.
  intros A population k g Hk. exists (take k population). cbn.
  split; [done|]. split; [apply sublist_take|].
  rewrite length_take. lia.
Qed.

(** X10: with a sampler that selects without replacement and a non-negative
    [samples_per_size], [generate_sample_combinations] returns a dictionary
    whose keys are the sizes from [min_dimensions] to [max_dimensions]; under
    each size it holds [min(samples_per_size, number of groups)] combinations,
    each the one combination of a group of that size that gives every
    dimension its first value. *)
Theorem generate_sample_combinations_sizes `{Runtime} `{Random}
    (self : CombinationGenerator) (samples_per_size : Z) (g : Rng) :
  sample_without_replacement →
  0 ≤ samples_per_size →
  ∃ results g',
    generate_sample_combinations self samples_per_size g
    = (Returns results, g')
    ∧ ∀ size,
        if decide (min_dimensions self ≤ size ≤ max_dimensions self)
        then ∃ l, results !! size = Some l
                  ∧ sample_of samples_per_size size l
        else results !! size = None.
Proof.
  intros Hsample Hsamples. unfold generate_sample_combinations.
  destruct (for_sample_sizes_spec samples_per_size
              (range (min_dimensions self) (max_dimensions self + 1)) ∅ g
              Hsample Hsamples) as (results & g' & Hrun & Hspec).
  exists results, g'. split; [done|]. intros size. specialize (Hspec size).
  unfold range in Hspec.
  destruct (decide (size ∈ seqZ (min_dimensions self)
                            (max_dimensions self + 1 - min_dimensions self)))
    as [Hin|Hnin]; rewrite elem_of_seqZ in *.
  - rewrite decide_True; [done|lia].
  - rewrite decide_False; [by rewrite Hspec, lookup_empty|lia].
Qed.

Lemma generate_sample_combinations_sizes_witness :
  (sample_without_replacement (H := first_k) ∧ 0 ≤ 5)
  ∧ ∃ results g',
      generate_sample_combinations (H := ticking) (H0 := first_k) (__init__ 2 (Some 3)) 5 tt
      = (Returns results, g')
      ∧ ∀ size,
          if decide (min_dimensions (__init__ 2 (Some 3)) ≤ size
                     ≤ max_dimensions (__init__ 2 (Some 3)))
          then ∃ l, results !! size = Some l ∧ sample_of 5 size l
          else results !! size = None.
Proof.
  split; [split; [apply first_k_without_replacement|lia]|].
  apply (generate_sample_combinations_sizes (H := ticking) (H0 := first_k)
           (__init__ 2 (Some 3)) 5 tt first_k_without_replacement).
  lia.
Defined.

(** [test_generate_sample_combinations]: five pairs and five triples. *)
Example generate_sample_combinations_five :
  match generate_sample_combinations (H := ticking) (H0 := first_k)
          (__init__ 2 (Some 3)) 5 tt with
  | (Returns results, _) => len <$> results = {[ 2 := 5; 3 := 5 ]}
  | (Raises _, _) => False
  end.
Proof. vm_compute. reflexivity. Qed.

(** X11: a negative [samples_per_size] makes [generate_sample_combinations]
    raise the [ValueError] of [random.sample] at the first size, whenever
    there is a size to sample ([min_dimensions <= max_dimensions]). *)
Theorem generate_sample_combinations_negative `{Runtime} `{Random}
    (self : CombinationGenerator) (samples_per_size : Z) (g : Rng) :
  samples_per_size < 0 →
  min_dimensions self ≤ max_dimensions self →
  generate_sample_combinations self samples_per_size g
  = (Raises (ValueError "Sample larger than population or is negative"), g).
Proof.
  intros Hneg Hrange. unfold generate_sample_combinations, range.
  rewrite seqZ_cons by lia. cbn [for_sample_sizes]. unfold random_sample.
  destruct (Z.ltb_spec
              (Z.min samples_per_size
                 (len (generate_dimension_groups (min_dimensions self)))) 0)
    as [_|Hge]; [done|lia].
Qed.

Lemma generate_sample_combinations_negative_witness :
  (-1 < 0 ∧ min_dimensions (__init__ 2 None) ≤ max_dimensions (__init__ 2 None))
  ∧ generate_sample_combinations (H := ticking) (H0 := first_k) (__init__ 2 None) (-1) tt
    = (Raises (ValueError "Sample larger than population or is negative"),
       tt).
Proof.
  assert (Hrange : min_dimensions (__init__ 2 None)
                   ≤ max_dimensions (__init__ 2 None)) by (by vm_compute).
  split; [split; [lia|exact Hrange]|].
  apply (generate_sample_combinations_negative (H := ticking) (H0 := first_k)
           (__init__ 2 None) (-1) tt); [lia|exact Hrange].
Defined.

End sampling_theorems.

(* ===================================================================== *)
(** * Further properties of the test executor *)
(* ===================================================================== *)

Section more_executor_facts.
Import Py dimensions combination_generator test_executor callbacks.
Context `{ThreadPoolExecutor}.
Implicit Types (self : TestExecutor) (suite : TestSuite) (w : World).

(** X12: every result of [execute_test], which returns one whenever the
    invocation of the predicate is contained, has one of the statuses PASSED,
    FAILED and ERROR, carries an error message exactly when its status is
    ERROR, and has empty metadata. *)
Theorem execute_test_terminal self combo timeout w :
  contained self combo (time_time w).2 →
  ∃ result w',
    execute_test self combo timeout w = (Returns result, w')
    ∧ (status result = PASSED ∨ status result = FAILED
       ∨ status result = ERROR)
    ∧ (is_Some (error_message result) ↔ status result = ERROR)
    ∧ metadata result = [].
Proof.
  intros Hcontained.
  destruct (proj1 (execute_test_returns self combo timeout w) Hcontained)
    as (result & w' & Hexec).
  destruct (execute_test_returned _ _ _ _ _ _ Hexec)
    as (_ & Hmetadata & Hstatus & Hmessage).
  by exists result, w'.
Qed.

(** The default test function answers, with a true value. *)
Lemma default_contained combo w :
  contained (new_TestExecutor None) combo w.
Proof. done. Qed.

Lemma default_test_function_passes combo timeout w result w' :
  execute_test (new_TestExecutor None) combo timeout w = (Returns result, w')
  → status result = PASSED ∧ error_message result = None.
Proof.
  intros Hexec.
  destruct (execute_test_cases (new_TestExecutor None) combo timeout w)
    as (result' & w'' & Hexec' & _ & Hstatus & Hmessage).
  rewrite Hexec in Hexec'. by injection Hexec' as <- <-.
Qed.

(** X13: an executor built without a test function passes everything: every
    result of its sequential batch is PASSED, without an error message. *)
Theorem default_executor_passes combos suite_name max_workers w :
  ∃ suite w',
    execute_batch (new_TestExecutor None) combos suite_name false max_workers w
    = (Returns suite, w')
    ∧ length (results suite) = length combos
    ∧ Forall (fun r => status r = PASSED ∧ error_message r = None)
             (results suite).
Proof.
  destruct (execute_batch_runs (new_TestExecutor None) combos suite_name
              max_workers w default_contained)
    as (rs & w1 & w2 & Hbatch & Hruns).
  eexists _, _. split; [exact Hbatch|]. cbn [results].
  split; [by eapply runs_length|].
  eapply runs_Forall; [|exact Hruns].
  intros combo w0 result w0'. apply default_test_function_passes.
Qed.

(** With a callback that returns and leaves the world as it is, the loop of
    [execute_with_callback] is the loop of [execute_batch]. *)
Lemma for_combinations_callback_silent self combos callback suite w :
  (∀ result w, ∃ v, callback result w = (Returns v, w)) →
  for_combinations_callback self combos callback suite w
  = for_combinations self combos suite w.
Proof.
  intros Hsilent. revert suite w.
  induction combos as [|combo rest IH]; intros suite w; [done|].
  cbn [for_combinations_callback for_combinations].
  unfold mbind, call_bind, bind.
  destruct (execute_test self combo None w) as [[result|e] w1]; [|done].
  destruct (Hsilent result w1) as [v ->]. apply IH.
Qed.

(** X14: with a callback that returns and changes nothing,
    [execute_with_callback] does what the sequential [execute_batch] does. *)
Theorem execute_with_callback_silent self combos callback suite_name
    max_workers w :
  (∀ result w, ∃ v, callback result w = (Returns v, w)) →
  execute_with_callback self combos callback suite_name w
  = execute_batch self combos suite_name false max_workers w.
Proof.
  intros Hsilent. unfold execute_with_callback, execute_batch.
  unfold mbind, call_bind, bind.
  destruct (new_TestSuite suite_name w) as [[suite|e] w0]; [|done].
  by rewrite for_combinations_callback_silent.
Qed.

(** The loop with a callback that always returns. *)
Lemma for_combinations_callback_observed self combos callback suite w :
  (∀ combo w, contained self combo w) →
  (∀ result w, ∃ v w', callback result w = (Returns v, w')) →
  ∃ rs w',
    for_combinations_callback self combos callback suite w
    = (Returns (mkTestSuite _ (name suite) (results suite ++ rs)
                            (start_time suite) (end_time suite)), w')
    ∧ observed self callback w combos rs w'.
Proof.
  intros Hcontained Hreturns. revert suite w.
  induction combos as [|combo rest IH]; intros suite w.
  - exists [], w. rewrite app_nil_r. split; [by destruct suite|constructor].
  - destruct (proj1 (execute_test_returns self combo None w))
      as (result & w1 & Hexec); [done|].
    destruct (Hreturns result w1) as (v & w2 & Hcall).
    destruct (IH (add_result suite result) w2) as (rs & w3 & Hloop & Hobs).
    exists (result :: rs), w3. split; [|by econstructor].
    cbn [for_combinations_callback]. unfold mbind, call_bind, bind.
    rewrite Hexec, Hcall, Hloop.
    cbn [add_result name results start_time end_time].
    by rewrite <- app_assoc.
Qed.

Lemma observed_combination self callback w combos rs w' :
  observed self callback w combos rs w' → map combination rs = combos.
Proof.
  induction 1 as [|w combo result w1 v w2 rest rs w3 Hexec _ _ IH]; [done|].
  destruct (execute_test_returned _ _ _ _ _ _ Hexec) as (Hcombo & _).
  cbn [map]. by rewrite Hcombo, IH.
Qed.

(** X15: for a predicate whose invocations are all contained and a callback
    that always returns, [execute_with_callback] returns a completed suite
    with one result per combination, in input order; the callback was called
    on each result right after its test and before the next test started. *)
Theorem execute_with_callback_observed self combos callback suite_name w :
  (∀ combo w, contained self combo w) →
  (∀ result w, ∃ v w', callback result w = (Returns v, w')) →
  ∃ suite w1 w2,
    execute_with_callback self combos callback suite_name w
    = (Returns suite, w2)
    ∧ observed self callback (datetime_now w).2 combos (results suite) w1
    ∧ map combination (results suite) = combos
    ∧ end_time suite = Some (datetime_now w1).1.
Proof.
  intros Hcontained Hreturns.
  unfold execute_with_callback, new_TestSuite, mark_complete, mbind,
    call_bind, bind, lift, mret, call_ret, ret.
  destruct (datetime_now w) as [start w0]. cbn [fst snd].
  destruct (for_combinations_callback_observed self combos callback
              (mkTestSuite _ suite_name [] start None) w0 Hcontained
              Hreturns)
    as (rs & w1 & -> & Hobs).
  cbn [name results start_time end_time app].
  destruct (datetime_now w1) as [stop w2] eqn:Hstop.
  eexists _, w1, w2. split; [reflexivity|]. cbn [results end_time].
  split; [done|]. split; [by eapply observed_combination|].
  by rewrite Hstop.
Qed.

(** The loop stops at the first call of the callback that raises. *)
Lemma for_combinations_callback_raises self callback before combo rest
    suite w rs w1 result w2 e w3 :
  observed self callback w before rs w1 →
  execute_test self combo None w1 = (Returns result, w2) →
  callback result w2 = (Raises e, w3) →
  for_combinations_callback self (before ++ combo :: rest) callback suite w
  = (Raises e, w3).
Proof.
  intros Hobs Hexec Hcall. revert suite.
  induction Hobs as [|w c r wa v wb before rs wc Hexec0 Hcall0 _ IH];
    intros suite; cbn [app for_combinations_callback];
    unfold mbind, call_bind, bind.
  - by rewrite Hexec, Hcall.
  - rewrite Hexec0, Hcall0. by apply IH.
Qed.

(** X16: an error raised by the callback is not caught: when the callback
    raises on the result of some combination, after returning on the results
    before it, [execute_with_callback] raises that error, in the world the
    callback left: no later combination is executed. *)
Theorem execute_with_callback_raises self callback before combo rest
    suite_name w rs w1 result w2 e w3 :
  observed self callback (datetime_now w).2 before rs w1 →
  execute_test self combo None w1 = (Returns result, w2) →
  callback result w2 = (Raises e, w3) →
  execute_with_callback self (before ++ combo :: rest) callback suite_name w
  = (Raises e, w3).
Proof.
  intros Hobs Hexec Hcall.
  unfold execute_with_callback, new_TestSuite, mbind, call_bind, bind, lift,
    mret, call_ret, ret.
  destruct (datetime_now w) as [start w0]. cbn [snd] in Hobs.
  by rewrite (for_combinations_callback_raises self callback before combo rest
                _ w0 rs w1 result w2 e w3 Hobs Hexec Hcall).
Qed.

End more_executor_facts.

Section more_executor_examples.
Import Py dimensions combination_generator test_executor callbacks examples
  callback_examples.

(** A value whose truth test raises [ValueError]: the invocation is
    contained, and the result is an ERROR with a message. *)
Lemma execute_test_terminal_witness :
  contained (H := ticking) (mkTestExecutor ticking return_undecided)
    json_only (time_time (Runtime := ticking) 0%nat).2
  ∧ ∃ result w',
      execute_test (H := ticking) (mkTestExecutor ticking return_undecided)
        json_only None 0%nat
      = (Returns result, w')
      ∧ (status result = PASSED ∨ status result = FAILED
         ∨ status result = ERROR)
      ∧ (is_Some (error_message result) ↔ status result = ERROR)
      ∧ metadata result = [].
Proof.
  assert (Hcontained :
            contained (H := ticking) (mkTestExecutor ticking return_undecided)
              json_only (time_time (Runtime := ticking) 0%nat).2).
  { right. split; [done|]. by eexists _, _. }
  split; [exact Hcontained|].
  apply (execute_test_terminal (H := ticking)
           (mkTestExecutor ticking return_undecided) json_only None 0%nat
           Hcontained).
Defined.

Lemma execute_with_callback_silent_witness :
  (∀ result w, ∃ v, silent_callback (H := ticking) result w = (Returns v, w))
  ∧ execute_with_callback (H := ticking) (new_TestExecutor (H := ticking) None)
      [json_only; xml_only] silent_callback "Combination Tests" 0%nat
    = execute_batch (H0 := @last_first ticking)
        (new_TestExecutor (H := ticking) None) [json_only; xml_only]
        "Combination Tests" false 4 0%nat.
Proof.
  assert (Hsilent : ∀ result w,
            ∃ v, silent_callback (H := ticking) result w = (Returns v, w))
    by (intros result w; by eexists).
  split; [exact Hsilent|].
  apply (execute_with_callback_silent (H0 := @last_first ticking)
           (new_TestExecutor (H := ticking) None) [json_only; xml_only]
           silent_callback "Combination Tests" 4 0%nat Hsilent).
Defined.

Lemma execute_with_callback_observed_witness :
  ((∀ combo w,
      contained (H := ticking) (new_TestExecutor (H := ticking) None) combo w)
   ∧ ∀ result w,
       ∃ v w', silent_callback (H := ticking) result w = (Returns v, w'))
  ∧ ∃ suite w1 w2,
      execute_with_callback (H := ticking)
        (new_TestExecutor (H := ticking) None) [json_only; xml_only]
        silent_callback "Combination Tests" 0%nat
      = (Returns suite, w2)
      ∧ observed (new_TestExecutor (H := ticking) None) silent_callback
          (datetime_now (Runtime := ticking) 0%nat).2 [json_only; xml_only]
          (results suite) w1
      ∧ map combination (results suite) = [json_only; xml_only]
      ∧ end_time suite = Some (datetime_now (Runtime := ticking) w1).1.
Proof.
  assert (Hreturns : ∀ result w,
            ∃ v w', silent_callback (H := ticking) result w = (Returns v, w'))
    by (intros result w; by eexists _, _).
  assert (Hcontained : ∀ combo w,
            contained (H := ticking) (new_TestExecutor (H := ticking) None)
              combo w) by done.
  split; [by split|].
  apply (execute_with_callback_observed (H := ticking)
           (new_TestExecutor (H := ticking) None) [json_only; xml_only]
           silent_callback "Combination Tests" 0%nat Hcontained Hreturns).
Defined.

(** [execute_with_callback] with a callback that raises on the first
    result: the second combination is never executed. *)
Lemma execute_with_callback_raises_witness :
  ∃ result w2,
    (observed (new_TestExecutor (H := ticking) None) failing_callback
       (datetime_now (Runtime := ticking) 0%nat).2 [] [] 1%nat
     ∧ execute_test (H := ticking) (new_TestExecutor (H := ticking) None)
         json_only None 1%nat = (Returns result, w2)
     ∧ failing_callback (H := ticking) result w2
       = (Raises (RuntimeError "observer failed"), w2))
    ∧ execute_with_callback (H := ticking)
        (new_TestExecutor (H := ticking) None) ([] ++ json_only :: [xml_only])
        failing_callback "Combination Tests" 0%nat
      = (Raises (RuntimeError "observer failed"), w2).
Proof.
  eexists _, _.
  assert (Hobs : observed (new_TestExecutor (H := ticking) None)
                   failing_callback
                   (datetime_now (Runtime := ticking) 0%nat).2 [] [] 1%nat)
    by constructor.
  split; [split; [exact Hobs|split; [vm_compute; reflexivity|reflexivity]]|].
  eapply (execute_with_callback_raises (H := ticking)
            (new_TestExecutor (H := ticking) None) failing_callback
            [] json_only [xml_only] "Combination Tests" 0%nat [] 1%nat
            _ _ _ _ Hobs); [vm_compute; reflexivity|reflexivity].
Defined.

End more_executor_examples.

(* ===================================================================== *)
(** * Further properties of the suite summary *)
(* ===================================================================== *)

Section more_summary_facts.
Import Py dimensions combination_generator test_executor.
Context `{Runtime}.
Implicit Types (self : TestSuite).

Lemma count_status_cons (result : TestResult) (rest : list TestResult)
    (s : TestStatus) :
  count_status (result :: rest) s
  = (if decide (status result = s) then 1 else 0) + count_status rest s.
Proof.
  unfold count_status, len. rewrite filter_cons.
  destruct (decide (status result = s)); cbn [length]; lia.
Qed.

(** Every result is counted under one status. *)
Lemma count_status_total (results : list TestResult) :
  foldr Z.add 0 (map (count_status results) TestStatus_members)
  = len results.
Proof.
  induction results as [|result rest IH]; [done|].
  cbn [TestStatus_members map foldr] in *. rewrite !count_status_cons.
  replace (len (result :: rest)) with (1 + len rest)
    by (unfold len; cbn [length]; lia).
  rewrite <- IH. destruct (status result); repeat case_decide; try done; lia.
Qed.

Lemma get_summary_returns self :
  ∃ rate,
    get_summary self
    = Returns
        (mkSummary (name self) (len (results self))
           (fold_left
              (fun (d : gmap string Z) s =>
                 <[status_value s := count_status (results self) s]> d)
              TestStatus_members ∅)
           (float_sum (map execution_time (results self)))
           match end_time self with
           | Some e => Some (total_seconds e (start_time self))
           | None => None
           end
           rate).
Proof.
  unfold get_summary.
  pose proof (status_counts_lookup (results self) PASSED) as Hpassed.
  cbn [status_value] in Hpassed.
  destruct (results self) as [|result rest] eqn:Hresults.
  - by eexists.
  - unfold getitem. rewrite Hpassed. cbn [mbind outcome_bind].
    unfold truediv.
    destruct (Z.eqb_spec (len (result :: rest)) 0) as [Hzero|_].
    { unfold len in Hzero. cbn [length] in Hzero. lia. }
    by eexists.
Qed.

(** X17: the status counts of [get_summary] have a key for each of the six
    statuses and no other, each holding the number of results of that
    status; the counts add up to [total_tests]. *)
Theorem get_summary_status_counts self :
  ∃ summary,
    get_summary self = Returns summary
    ∧ (∀ s, status_counts summary !! status_value s
            = Some (count_status (results self) s))
    ∧ (∀ key, (∀ s, key ≠ status_value s) →
              status_counts summary !! key = None)
    ∧ foldr Z.add 0
        (map (fun s => default 0 (status_counts summary !! status_value s))
             TestStatus_members)
      = total_tests summary.
Proof.
  destruct (get_summary_returns self) as (rate & ->).
  eexists. split; [reflexivity|]. cbn [status_counts total_tests].
  split; [apply status_counts_lookup|]. split.
  - intros key Hkey. cbn [fold_left TestStatus_members status_value].
    pose proof (Hkey PENDING). pose proof (Hkey RUNNING).
    pose proof (Hkey PASSED). pose proof (Hkey FAILED).
    pose proof (Hkey SKIPPED). pose proof (Hkey ERROR).
    cbn [status_value] in *. by simplify_map_eq.
  - rewrite <- count_status_total. cbn [map TestStatus_members].
    by rewrite !status_counts_lookup.
Qed.

(** X18: for a predicate whose invocations are all contained, the summary
    of what a sequential [execute_batch] returns counts as many tests as
    there were combinations, none of them PENDING, RUNNING or SKIPPED, and
    has a suite duration. *)
Theorem execute_batch_summary `{!ThreadPoolExecutor} (executor : TestExecutor)
    (combos : list DimensionCombination) (suite_name : string)
    (max_workers : Z) (w : World) :
  (∀ combo w, contained executor combo w) →
  ∃ suite w' summary,
    execute_batch executor combos suite_name false max_workers w
    = (Returns suite, w')
    ∧ get_summary suite = Returns summary
    ∧ summary_name summary = suite_name
    ∧ total_tests summary = len combos
    ∧ status_counts summary !! "pending" = Some 0
    ∧ status_counts summary !! "running" = Some 0
    ∧ status_counts summary !! "skipped" = Some 0
    ∧ is_Some (suite_duration summary).
Proof.
  intros Hcontained.
  destruct (execute_batch_runs executor combos suite_name max_workers w
              Hcontained) as (rs & w1 & w2 & Hbatch & Hruns).
  destruct (get_summary_returns
              (mkTestSuite _ suite_name rs (datetime_now w).1
                 (Some (datetime_now w1).1))) as (rate & Hsummary).
  eexists _, _, _. split; [exact Hbatch|]. split; [exact Hsummary|].
  cbn [summary_name total_tests status_counts suite_duration name results
       end_time].
  split; [done|]. split.
  { unfold len. f_equal. by eapply runs_length. }
  assert (Hterminal : Forall (fun r => status r = PASSED ∨ status r = FAILED
                                       ∨ status r = ERROR) rs).
  { eapply runs_Forall; [|exact Hruns].
    intros combo w0 result w0' Hexec.
    by destruct (execute_test_returned _ _ _ _ _ _ Hexec) as (_ & _ & ? & _). }
  assert (Hzero : ∀ s, s ≠ PASSED → s ≠ FAILED → s ≠ ERROR →
                       count_status rs s = 0).
  { intros s H1 H2 H3. clear -Hterminal H1 H2 H3.
    induction Hterminal as [|r rs Hr _ IH]; [done|].
    rewrite count_status_cons, IH.
    rewrite decide_False; [done|]. intros <-. by destruct Hr as [?|[?|?]]. }
  change "pending" with (status_value PENDING).
  change "running" with (status_value RUNNING).
  change "skipped" with (status_value SKIPPED).
  rewrite !status_counts_lookup, !Hzero by done. by repeat split.
Qed.

End more_summary_facts.

Section more_summary_examples.
Import Py dimensions combination_generator test_executor examples.

(** [test_error_handling], summed up: two tests, none of them left PENDING,
    RUNNING or SKIPPED. *)
Lemma execute_batch_summary_witness :
  (∀ combo w,
     contained (H := ticking) (mkTestExecutor ticking error_function) combo w)
  ∧ ∃ suite w' summary,
      execute_batch (H0 := @last_first ticking)
        (mkTestExecutor ticking error_function) [json_only; xml_only]
        "Combination Tests" false 4 0%nat
      = (Returns suite, w')
      ∧ get_summary suite = Returns summary
      ∧ summary_name summary = "Combination Tests"
      ∧ total_tests summary = len [json_only; xml_only]
      ∧ status_counts summary !! "pending" = Some 0
      ∧ status_counts summary !! "running" = Some 0
      ∧ status_counts summary !! "skipped" = Some 0
      ∧ is_Some (suite_duration summary).
Proof.
  assert (Hcontained : ∀ combo w,
            contained (H := ticking) (mkTestExecutor ticking error_function)
              combo w).
  { intros combo w. right. split; [done|]. by eexists _, _. }
  split; [exact Hcontained|].
  apply (execute_batch_summary (H := ticking) (H0 := @last_first ticking)
           (mkTestExecutor ticking error_function) [json_only; xml_only]
           "Combination Tests" 4 0%nat Hcontained).
Defined.

End more_summary_examples.

(* ===================================================================== *)
(** * Properties of the analysis by dimension *)
(* ===================================================================== *)

Section reporter_facts.
Import Py dimensions combination_generator test_executor reporter
  reporter_counts.
Context `{Runtime}.
Implicit Types (d : gmap string stats) (s : TestStatus) (key : string).

Lemma count_result_total s st : total (count_result s st) = total st + 1.
Proof. by destruct s. Qed.

Lemma count_result_passed s st :
  passed (count_result s st)
  = passed st + (if decide (s = PASSED) then 1 else 0).
Proof. destruct s; cbn; case_decide; try done; lia. Qed.

Lemma count_result_failed s st :
  failed (count_result s st)
  = failed st + (if decide (s = FAILED) then 1 else 0).
Proof. destruct s; cbn; case_decide; try done; lia. Qed.

Lemma count_result_error s st :
  error (count_result s st)
  = error st + (if decide (s = ERROR) then 1 else 0).
Proof. destruct s; cbn; case_decide; try done; lia. Qed.

Lemma count_result_counted s st :
  0 ≤ total st ∧ 0 ≤ passed st ∧ 0 ≤ failed st ∧ 0 ≤ error st
  ∧ passed st + failed st + error st ≤ total st →
  counted (count_result s st).
Proof. unfold counted. destruct s; cbn; lia. Qed.

(** The counters of a key after the items of one result. *)
Lemma count_items_lookup s (items : dict EnumMember) d key :
  let n := len (filter (fun item => item_key item = key) items) in
  let before := default no_stats (d !! key) in
  let after := default no_stats (count_items s items d !! key) in
  total after = total before + n
  ∧ passed after = passed before + (if decide (s = PASSED) then n else 0)
  ∧ failed after = failed before + (if decide (s = FAILED) then n else 0)
  ∧ error after = error before + (if decide (s = ERROR) then n else 0).
Proof.
  cbn zeta. revert d. induction items as [|item items IH]; intros d.
  - unfold len. cbn. repeat case_decide; lia.
  - cbn [count_items fold_left]. fold (item_key item).
    fold (count_items s items
            (<[item_key item
               := count_result s (default no_stats (d !! item_key item))]> d)).
    destruct (IH (<[item_key item
                    := count_result s
                         (default no_stats (d !! item_key item))]> d))
      as (Ht & Hp & Hf & He).
    rewrite Ht, Hp, Hf, He. clear IH Ht Hp Hf He.
    unfold dict in *.
    rewrite filter_cons. destruct (decide (item_key item = key)) as [<-|Hne].
    + rewrite lookup_insert_eq. cbn [default from_option id].
      rewrite count_result_total, count_result_passed, count_result_failed,
        count_result_error.
      unfold len. cbn [length]. repeat case_decide; lia.
    + rewrite lookup_insert_ne by done. done.
Qed.

Lemma count_items_counted s (items : dict EnumMember) d :
  map_Forall (fun _ st => counted st) d →
  map_Forall (fun _ st => counted st) (count_items s items d).
Proof.
  revert d. induction items as [|item items IH]; intros d Hd; [done|].
  cbn [count_items fold_left]. apply IH. apply map_Forall_insert_2; [|done].
  apply count_result_counted.
  destruct (d !! (item.1 +:+ ":" +:+ value item.2)) as [st|] eqn:Hst;
    cbn [default from_option id].
  - specialize (Hd _ _ Hst). unfold counted in Hd. cbn beta in Hd. lia.
  - cbn [no_stats total passed failed error]. lia.
Qed.

Lemma count_items_is_Some s (items : dict EnumMember) d key :
  is_Some (count_items s items d !! key)
  ↔ is_Some (d !! key) ∨ key ∈ map item_key items.
Proof.
  revert d. induction items as [|item items IH]; intros d.
  - cbn. split; [by left|]. intros [?|?%elem_of_nil]; done.
  - cbn [count_items fold_left map]. fold (item_key item).
    fold (count_items s items
            (<[item_key item
               := count_result s (default no_stats (d !! item_key item))]> d)).
    rewrite IH, lookup_insert_is_Some, elem_of_cons.
    destruct (decide (item_key item = key)) as [Heq|Hne]; split.
    + intros _. right. by left.
    + intros _. left. by left.
    + intros [[?|[_ ?]]|?]; [done|by left|right; by right].
    + intros [?|[?|?]]; [left; right; done|done|by right].
Qed.

Lemma dimension_stats_fold (rs : list TestResult) d key :
  let after :=
    default no_stats
      (fold_left
         (fun d result =>
            count_items (status result) (dimensions (combination result)) d)
         rs d !! key) in
  let before := default no_stats (d !! key) in
  total after = total before + occurrences key rs
  ∧ passed after
    = passed before
      + occurrences key (filter (fun r => status r = PASSED) rs)
  ∧ failed after
    = failed before
      + occurrences key (filter (fun r => status r = FAILED) rs)
  ∧ error after
    = error before
      + occurrences key (filter (fun r => status r = ERROR) rs).
Proof.
  cbn zeta. revert d. induction rs as [|r rs IH]; intros d.
  - cbn. lia.
  - cbn [fold_left].
    destruct (IH (count_items (status r) (dimensions (combination r)) d))
      as (Ht & Hp & Hf & He).
    rewrite Ht, Hp, Hf, He. clear IH Ht Hp Hf He.
    destruct (count_items_lookup (status r) (dimensions (combination r)) d key)
      as (Ht & Hp & Hf & He).
    rewrite Ht, Hp, Hf, He. rewrite !filter_cons.
    unfold occurrences.
    repeat case_decide; cbn [map foldr]; try congruence; lia.
Qed.

(** X19: for every key, the counters of the analysis by dimension hold the
    number of items with that key among the combinations of all results (the
    total) and among those of the PASSED, FAILED and ERROR results; a key is
    present exactly when some item has it. *)
Theorem dimension_stats_counts (suite : TestSuite) (key : string) :
  let st := default no_stats (dimension_stats suite !! key) in
  total st = occurrences key (results suite)
  ∧ passed st
    = occurrences key (filter (fun r => status r = PASSED) (results suite))
  ∧ failed st
    = occurrences key (filter (fun r => status r = FAILED) (results suite))
  ∧ error st
    = occurrences key (filter (fun r => status r = ERROR) (results suite))
  ∧ (is_Some (dimension_stats suite !! key)
     ↔ 0 < occurrences key (results suite)).
Proof.
  cbn zeta. unfold dimension_stats.
  destruct (dimension_stats_fold (results suite) ∅ key) as (Ht & Hp & Hf & He).
  rewrite lookup_empty in *. cbn [default no_stats total passed failed error]
    in *.
  rewrite Ht, Hp, Hf, He. do 4 (split; [lia|]).
  generalize (results suite). intros rs.
  assert (Hgen : ∀ d,
    is_Some (fold_left
               (fun d result =>
                  count_items (status result)
                    (dimensions (combination result)) d) rs d !! key)
    ↔ is_Some (d !! key) ∨ 0 < occurrences key rs).
  { induction rs as [|r rs IH]; intros d.
    - cbn. split; [by left|]. intros [?|?]; [done|lia].
    - cbn [fold_left]. rewrite IH, count_items_is_Some.
      unfold occurrences. cbn [map foldr].
      fold (occurrences key rs).
      assert (Hocc : 0 ≤ occurrences key rs).
      { clear. unfold occurrences. induction rs; cbn; [lia|].
        unfold len in *. lia. }
      assert (Hitems : key ∈ map item_key (dimensions (combination r))
                ↔ 0 < len (filter (fun item => item_key item = key)
                                  (dimensions (combination r)))).
      { generalize (dimensions (combination r)). unfold dict. intros items.
        induction items as [|item items IHi].
        - cbn. split; [by intros ?%elem_of_nil|unfold len; cbn; lia].
        - cbn [map]. rewrite elem_of_cons, filter_cons, IHi. unfold len.
          case_decide as Hkey; cbn beta in Hkey; cbn [length].
          + split; [lia|by left].
          + split; [intros [?|?]; [congruence|done]|by right]. }
      rewrite Hitems.
      set (n := len (filter (fun item => item_key item = key)
                            (dimensions (combination r)))).
      assert (Hn : 0 ≤ n) by (unfold n, len; lia).
      split.
      + intros [[?|?]|?]; [by left|right; lia|right; lia].
      + intros [?|Hpos]; [by left; left|].
        destruct (decide (0 < n)); [left; by right|right; lia]. }
  rewrite Hgen, lookup_empty. split; [intros [[? ?]|?]; done|by right].
Qed.

End reporter_facts.

Section reporter_theorems.
Import Py dimensions combination_generator test_executor reporter
  reporter_counts.
Context `{Runtime} `{Format}.

Lemma dimension_stats_counted (suite : TestSuite) :
  map_Forall (fun _ st => counted st) (dimension_stats suite).
Proof.
  unfold dimension_stats. generalize (results suite). intros rs.
  assert (Hgen : ∀ d : gmap string stats,
    map_Forall (fun _ st => counted st) d →
    map_Forall (fun _ st => counted st)
      (fold_left
         (fun d result =>
            count_items (status result) (dimensions (combination result)) d)
         rs d)).
  { induction rs as [|r rs IH]; intros d Hd; [done|].
    cbn [fold_left]. by apply IH, count_items_counted. }
  apply Hgen, map_Forall_empty.
Qed.

(** The loop over the keys returns when every key has counters with a
    positive total. *)
Lemma analysis_lines_returns (d : gmap string stats) (keys lines : list string) :
  (∀ key, key ∈ keys → ∃ st, d !! key = Some st ∧ 0 < total st) →
  ∃ lines', analysis_lines d keys lines = Returns lines'.
Proof.
  revert lines. induction keys as [|key keys IH]; intros lines Hkeys.
  - by eexists.
  - destruct (Hkeys key) as (st & Hst & Htotal); [apply list_elem_of_here|].
    cbn [analysis_lines]. unfold getitem. rewrite Hst.
    cbn [mbind outcome_bind]. unfold analysis_line, stats_pass_rate, truediv.
    destruct (Z.ltb_spec 0 (total st)); [|lia].
    destruct (Z.eqb_spec (total st) 0); [lia|].
    cbn [mbind outcome_bind mret outcome_ret].
    apply IH. intros key' Hkey'. by apply Hkeys, list_elem_of_further.
Qed.

(** X20: [format_dimension_analysis] always returns its text: every key it
    formats is in the statistics, with a positive total, so neither the
    lookup nor the division of the pass rate can fail; and all counters fit
    together (passed + failed + error <= total). *)
Theorem format_dimension_analysis_returns (suite : TestSuite) :
  (∃ text, format_dimension_analysis suite = Returns text)
  ∧ map_Forall (fun _ st => counted st) (dimension_stats suite).
Proof.
  split; [|apply dimension_stats_counted].
  unfold format_dimension_analysis.
  destruct (analysis_lines_returns (dimension_stats suite)
              (sorted (elements (dom (dimension_stats suite))))
              [newline +:+ "Dimension Analysis:"; repeat_string "-" 70])
    as (lines & ->).
  - intros key Hkey. rewrite sorted_Permutation in Hkey.
    apply elem_of_elements, elem_of_dom in Hkey as [st Hst].
    exists st. split; [done|].
    by destruct (dimension_stats_counted suite key st Hst).
  - by eexists.
Qed.

Lemma count_items_terminal (s : TestStatus) (items : dict EnumMember)
    (d : gmap string stats) :
  s = PASSED ∨ s = FAILED ∨ s = ERROR →
  map_Forall (fun _ st => total st = passed st + failed st + error st) d →
  map_Forall (fun _ st => total st = passed st + failed st + error st)
             (count_items s items d).
Proof.
  intros Hs. revert d. induction items as [|item items IH]; intros d Hd;
    [done|].
  cbn [count_items fold_left]. apply IH. apply map_Forall_insert_2; [|done].
  destruct (d !! (item.1 +:+ ":" +:+ value item.2)) as [st|] eqn:Hst;
    cbn [default from_option id].
  - specialize (Hd _ _ Hst). cbn beta in Hd.
    destruct Hs as [->|[->| ->]]; cbn; lia.
  - destruct Hs as [->|[->| ->]]; cbn; lia.
Qed.

Lemma execute_test_status (executor : TestExecutor) combo timeout w result w' :
  execute_test executor combo timeout w = (Returns result, w') →
  status result = PASSED ∨ status result = FAILED ∨ status result = ERROR.
Proof.
  intros Hexec.
  by destruct (execute_test_returned _ _ _ _ _ _ Hexec) as (_ & _ & ? & _).
Qed.

(** X21: for a predicate whose invocations are all contained, in the
    analysis of what a sequential [execute_batch] returns, the total of every
    key is the sum of its passed, failed and errored counts. *)
Theorem execute_batch_dimension_stats `{!ThreadPoolExecutor}
    (executor : TestExecutor) (combos : list DimensionCombination)
    (suite_name : string) (max_workers : Z) (w : World) :
  (∀ combo w, contained executor combo w) →
  ∃ suite w',
    execute_batch executor combos suite_name false max_workers w
    = (Returns suite, w')
    ∧ map_Forall
        (fun _ st => total st = passed st + failed st + error st)
        (dimension_stats suite).
Proof.
  intros Hcontained.
  destruct (execute_batch_runs executor combos suite_name max_workers w
              Hcontained) as (rs & w1 & w2 & Hbatch & Hruns).
  eexists _, _. split; [exact Hbatch|].
  unfold dimension_stats. cbn [results].
  assert (Hterminal : Forall (fun r => status r = PASSED ∨ status r = FAILED
                                       ∨ status r = ERROR) rs).
  { eapply runs_Forall; [|exact Hruns].
    intros combo w0 result w0'. apply execute_test_status. }
  clear Hbatch Hruns.
  assert (Hgen : ∀ d : gmap string stats,
    map_Forall (fun _ st => total st = passed st + failed st + error st) d →
    map_Forall (fun _ st => total st = passed st + failed st + error st)
      (fold_left
         (fun d result =>
            count_items (status result) (dimensions (combination result)) d)
         rs d)).
  { induction Hterminal as [|r rs Hr _ IH]; intros d Hd; [done|].
    cbn [fold_left]. by apply IH, count_items_terminal. }
  apply Hgen, map_Forall_empty.
Qed.

End reporter_theorems.

Section reporter_examples.
Import Py dimensions combination_generator test_executor reporter
  reporter_counts examples.

Lemma execute_batch_dimension_stats_witness :
  (∀ combo w,
     contained (H := ticking) (mkTestExecutor ticking always_fail) combo w)
  ∧ ∃ suite w',
      execute_batch (H0 := @last_first ticking)
        (mkTestExecutor ticking always_fail) [json_only; json_hierarchical]
        "Combination Tests" false 4 0%nat
      = (Returns suite, w')
      ∧ map_Forall
          (fun _ st => total st = passed st + failed st + error st)
          (dimension_stats suite).
Proof.
  assert (Hcontained : ∀ combo w,
            contained (H := ticking) (mkTestExecutor ticking always_fail)
              combo w) by done.
  split; [exact Hcontained|].
  apply (execute_batch_dimension_stats (H := ticking)
           (H1 := @last_first ticking) (mkTestExecutor ticking always_fail)
           [json_only; json_hierarchical] "Combination Tests" 4 0%nat
           Hcontained).
Defined.

(** The statistics of a batch of two combinations that share
    ["FormatVariation:json"], under a test function that always fails. *)
Example dimension_stats_example :
  match execute_batch (H0 := @last_first ticking)
          (mkTestExecutor ticking always_fail)
          [json_only; json_hierarchical] "Combination Tests" false 4
          0%nat with
  | (Returns suite, _) =>
      dimension_stats suite
      = {[ "FormatVariation:json" := mkStats 2 0 2 0;
           "StructuralArchitecture:hierarchical" := mkStats 1 0 1 0 ]}
  | (Raises _, _) => False
  end.
Proof. vm_compute. reflexivity. Qed.

End reporter_examples.
